(** * django_fabdeploy: release log, wheel repository, install planner and
      deployment tasks

    A shallow embedding of [src/django_fabdeploy.py] (Python 2).

    Conventions of the embedding:
    - text is a Rocq [string]: the bytes of a [str] (the lines read from the
      release log), the code points of a [unicode] text, taken below 256
      (requirement lines, the output of [pip freeze]);
    - a Python exception is a value of [Exn]; a function that can raise
      returns a [result];
    - [dict]s looked up by key are [gmap]s; the requirement [dict], of which
      only [keys()] is read, is the list of its items in iteration order;
    - objects compared by identity ([VirtualenvConf], [HostConf]) carry an
      explicit identity field;
    - the two libraries the module calls are modelled beside it:
      [distutils.version.LooseVersion] concretely (module [Version]) and
      pip's [Wheel(name).pyversions] as the parameter [pyversions];
    - fabric's remote operations are answered by an oracle ([World]) that
      sees the history of the run; everything the tasks do to the outside
      (commands, transfers, prompts, warnings, lines appended to the release
      log) is recorded in order in a trace of [Event]s. *)

From Stdlib Require Import ZArith Ascii String List Lia.
From stdpp Require Import base option list strings gmap.

Local Open Scope list_scope.

(** ** Exceptions and results *)

Inductive Exn :=
| Skip
| SystemExit
| ValueError
| IndexError
| AttributeError
| IOError
| InvalidWheelFilename.

Inductive result (A : Type) :=
| Ok (a : A)
| Raise (e : Exn).
Arguments Ok {A} a.
Arguments Raise {A} e.

#[global] Instance result_ret : MRet result := fun A a => Ok a.

#[global] Instance result_bind : MBind result := fun A B k r =>
  match r with
  | Ok a => k a
  | Raise e => Raise e
  end.

(** ** The Python string operations the module uses *)

Module Py.

Definition chars : string → list ascii := list_ascii_of_string.
Definition text : list ascii → string := string_of_list_ascii.

(** [c.isdigit()] on one ASCII character. *)
Definition isdigit (c : ascii) : bool :=
  (48 <=? nat_of_ascii c) && (nat_of_ascii c <=? 57).

Definition islower (c : ascii) : bool :=
  (97 <=? nat_of_ascii c) && (nat_of_ascii c <=? 122).

Definition isupper (c : ascii) : bool :=
  (65 <=? nat_of_ascii c) && (nat_of_ascii c <=? 90).

(** The characters [str.strip()] removes: space, \t, \n, \v, \f, \r. *)
Definition isspace (c : ascii) : bool :=
  (nat_of_ascii c =? 32) || ((9 <=? nat_of_ascii c) && (nat_of_ascii c <=? 13)).

(** [int(c)] on a one-character string. *)
Definition int_char (c : ascii) : result Z :=
  if isdigit c then Ok (Z.of_nat (nat_of_ascii c - 48)) else Raise ValueError.

(** [v[-k]], for [k >= 1]. *)
Definition neg_index (v : string) (k : nat) : result ascii :=
  match rev (chars v) !! (k - 1) with
  | Some c => Ok c
  | None => Raise IndexError
  end.

Fixpoint prefix_of (p s : list ascii) : bool :=
  match p, s with
  | [], _ => true
  | _ :: _, [] => false
  | a :: p', b :: s' => if Ascii.eqb a b then prefix_of p' s' else false
  end.

Definition startswith (s p : string) : bool := prefix_of (chars p) (chars s).

Definition endswith (s p : string) : bool :=
  prefix_of (rev (chars p)) (rev (chars s)).

Fixpoint lstrip (s : list ascii) : list ascii :=
  match s with
  | c :: s' => if isspace c then lstrip s' else s
  | [] => []
  end.

Definition strip (s : string) : string :=
  text (rev (lstrip (rev (lstrip (chars s))))).

(** The characters [unicode.strip()] removes, among the code points below
    256: those of [str.strip()], \x1c to \x1f, \x85 and \xa0. *)
Definition isspace_u (c : ascii) : bool :=
  isspace c
  || ((28 <=? nat_of_ascii c) && (nat_of_ascii c <=? 31))
  || (nat_of_ascii c =? 133) || (nat_of_ascii c =? 160).

Fixpoint lstrip_u (s : list ascii) : list ascii :=
  match s with
  | c :: s' => if isspace_u c then lstrip_u s' else s
  | [] => []
  end.

(** [strip] on a [unicode] text. *)
Definition strip_u (s : string) : string :=
  text (rev (lstrip_u (rev (lstrip_u (chars s))))).

(** [s.split(sep, maxsplit)] for a non-empty separator: [cur] holds the
    characters of the current field in reverse, [n] the number of splits
    still allowed ([None]: no limit). *)
Fixpoint split_go (sep : list ascii) (n : option nat) (cur s : list ascii)
    (fuel : nat) : list string :=
  match fuel with
  | O => [text (rev cur ++ s)]
  | S fuel' =>
      match s with
      | [] => [text (rev cur)]
      | c :: s' =>
          match n with
          | Some O => [text (rev cur ++ s)]
          | _ =>
              if prefix_of sep s
              then text (rev cur)
                   :: split_go sep (pred <$> n) [] (drop (length sep) s) fuel'
              else split_go sep n (c :: cur) s' fuel'
          end
      end
  end.

Definition split (s sep : string) (maxsplit : option nat) : list string :=
  split_go (chars sep) maxsplit [] (chars s) (S (String.length s)).

(** [sub in s]. *)
Fixpoint contains_go (sub s : list ascii) : bool :=
  prefix_of sub s ||
  match s with
  | [] => false
  | _ :: s' => contains_go sub s'
  end.

Definition contains (sub s : string) : bool := contains_go (chars sub) (chars s).

Definition lower_char (c : ascii) : ascii :=
  if isupper c then ascii_of_nat (nat_of_ascii c + 32) else c.

Definition lower (s : string) : string := text (map lower_char (chars s)).

(** [s.replace(a, b)] for single characters. *)
Definition replace_char (a b : ascii) (s : string) : string :=
  text (map (fun c => if Ascii.eqb c a then b else c) (chars s)).

(** [f.readlines()]: every line keeps its newline; a last line without one
    is returned as it is. *)
Fixpoint readlines_go (cur s : list ascii) : list string :=
  match s with
  | [] => match cur with [] => [] | _ => [text (rev cur)] end
  | c :: s' =>
      if Ascii.eqb c "010"
      then text (rev (c :: cur)) :: readlines_go [] s'
      else readlines_go (c :: cur) s'
  end.

Definition readlines (content : string) : list string :=
  readlines_go [] (chars content).

(** [os.path.basename]: what follows the last slash. *)
Fixpoint basename_go (cur s : list ascii) : list ascii :=
  match s with
  | [] => rev cur
  | c :: s' => if Ascii.eqb c "/" then basename_go [] s' else basename_go (c :: cur) s'
  end.

Definition basename (p : string) : string := text (basename_go [] (chars p)).

(** [os.path.join(a, b)]. *)
Definition path_join (a b : string) : string :=
  if startswith b "/" then b
  else if String.eqb a "" || endswith a "/" then a +:+ b
  else a +:+ "/" +:+ b.

(** [sep.join(items)]. *)
Fixpoint join (sep : string) (items : list string) : string :=
  match items with
  | [] => ""
  | [x] => x
  | x :: rest => x +:+ sep +:+ join sep rest
  end.

End Py.

(** ** distutils.version.LooseVersion (Python 2)

    [LooseVersion(vstring)] keeps the string and its components:
    [component_re = (\d+ | [a-z]+ | \.)] splits the string into maximal runs
    of digits, of lower-case letters and of other characters; the dots are
    dropped and the runs of digits become integers. [__cmp__] is [cmp] on the
    component lists: lexicographic, an integer below every string.
    [__init__] parses the string only [if vstring:]: the object built from
    the empty string has neither [vstring] nor [version], and every
    comparison with it raises [AttributeError]. It is the value whose
    [vstring] is empty. *)

Module Version.

Inductive component :=
| CInt (n : Z)
| CStr (s : string).

Inductive cclass := Digit | Lower | Dot | Other.

Definition classify (c : ascii) : cclass :=
  if Py.isdigit c then Digit
  else if Py.islower c then Lower
  else if Ascii.eqb c "." then Dot
  else Other.

Definition same_run (k : cclass) (c : ascii) : bool :=
  match k, classify c with
  | Digit, Digit | Lower, Lower | Other, Other => true
  | _, _ => false
  end.

(** The pieces [component_re.split] returns, empty ones left out: [k] is
    the class of the run being read, [cur] its characters in reverse. *)
Fixpoint runs (k : cclass) (cur s : list ascii) : list (cclass * list ascii) :=
  match s with
  | [] => [(k, rev cur)]
  | c :: s' =>
      if same_run k c then runs k (c :: cur) s'
      else (k, rev cur) :: runs (classify c) [c] s'
  end.

Definition pieces (s : list ascii) : list (cclass * list ascii) :=
  match s with
  | [] => []
  | c :: s' => runs (classify c) [c] s'
  end.

(** [int(digits)] on a run of decimal digits. *)
Definition int_digits (ds : list ascii) : Z :=
  fold_left (fun acc c => (10 * acc + Z.of_nat (nat_of_ascii c - 48))%Z) ds 0%Z.

Definition to_component (p : cclass * list ascii) : option component :=
  match p with
  | (Dot, _) => None
  | (Digit, ds) => Some (CInt (int_digits ds))
  | (_, cs) => Some (CStr (Py.text cs))
  end.

Definition parse (vstring : string) : list component :=
  omap to_component (pieces (Py.chars vstring)).

Record LooseVersion := mk {
  vstring : string;
  version : list component
}.

Definition new (vstring : string) : LooseVersion :=
  {| vstring := vstring; version := parse vstring |}.

Definition cmp_component (a b : component) : comparison :=
  match a, b with
  | CInt x, CInt y => Z.compare x y
  | CInt _, CStr _ => Lt
  | CStr _, CInt _ => Gt
  | CStr x, CStr y => String.compare x y
  end.

Fixpoint cmp_list (l1 l2 : list component) : comparison :=
  match l1, l2 with
  | [], [] => Eq
  | [], _ :: _ => Lt
  | _ :: _, [] => Gt
  | a :: l1', b :: l2' =>
      match cmp_component a b with
      | Eq => cmp_list l1' l2'
      | c => c
      end
  end.

(** [cmp(self.version, other.version)], for two objects that have the
    attribute. *)
Definition cmp (a b : LooseVersion) : comparison :=
  cmp_list (version a) (version b).

(** Whether [__init__] has set the attributes. *)
Definition has_version (v : LooseVersion) : bool :=
  negb (String.eqb (vstring v) "").

(** [__cmp__]: [return cmp(self.version, other.version)]. *)
Definition compare (a b : LooseVersion) : result comparison :=
  if has_version a && has_version b then Ok (cmp a b) else Raise AttributeError.

(** [a > b], [a < b] and [a == b] go through [__cmp__]. *)
Definition gt (a b : LooseVersion) : result bool :=
  c ← compare a b; mret (match c with Gt => true | _ => false end).
Definition lt (a b : LooseVersion) : result bool :=
  c ← compare a b; mret (match c with Lt => true | _ => false end).
Definition eq (a b : LooseVersion) : result bool :=
  c ← compare a b; mret (match c with Eq => true | _ => false end).

(** [unicode(v)] is [v.vstring]; the module applies it only to a version
    that has been compared. *)
Definition to_unicode (v : LooseVersion) : string := vstring v.

End Version.

Abbreviation LooseVersion := Version.LooseVersion.

(** ** pip's wheel-name parser

    [get_platform_tags] calls [pip.wheel.Wheel(wheel).pyversions]: the Python
    tags of a wheel file name, or [InvalidWheelFilename] for a name that is
    not a wheel's. The parser is pip's, so it is a parameter here. *)

Class Pip := pyversions : string → result (list string).

Definition get_platform_tags `{Pip} (wheel : string) : result (list string) :=
  pyversions wheel.

(** An instance for the examples: on a name [pkg-ver-pyver-abi-plat.whl] of
    exactly five non-empty fields whose version starts with a digit, the
    tags are the third field cut at the dots, as pip finds them. *)
Definition five_field_pyversions : Pip := fun wheel =>
  if Py.endswith wheel ".whl" then
    match Py.split wheel "-" None with
    | [name; ver; pyver; abi; plat] =>
        match Py.chars name, Py.chars ver, Py.chars pyver, Py.chars abi with
        | _ :: _, d :: _, _ :: _, _ :: _ =>
            if Py.isdigit d && (4 <? String.length plat)
            then Ok (Py.split pyver "." None)
            else Raise InvalidWheelFilename
        | _, _, _, _ => Raise InvalidWheelFilename
        end
    | _ => Raise InvalidWheelFilename
    end
  else Raise InvalidWheelFilename.

(** ** PkgSpec, PyVersionInfo, PkgSpecList *)

Module PkgSpec.
Record t := mk {
  pkg : string;
  version : LooseVersion;
  wheel : string
}.

(** [PkgSpec(pkg, version, wheel)]. *)
Definition new (pkg version wheel : string) : t :=
  {| pkg := pkg; version := Version.new version; wheel := wheel |}.
End PkgSpec.

Record PyVersionInfo := { major : Z; minor : Z }.

Module PkgSpecList.

Record t := mk {
  pkg : string;
  version : LooseVersion;
  wheels : list (list string * string)
}.

(** [PkgSpecList(pkg, version, wheels)]: the tags of every wheel are read
    off its name when the entry is built. *)
Fixpoint tag_wheels `{Pip} (ws : list string) : result (list (list string * string)) :=
  match ws with
  | [] => Ok []
  | w :: ws' =>
      tags ← get_platform_tags w;
      rest ← tag_wheels ws';
      mret ((tags, w) :: rest)
  end.

Definition new `{Pip} (pkg version : string) (ws : list string) : result t :=
  tagged ← tag_wheels ws;
  mret {| pkg := pkg; version := Version.new version; wheels := tagged |}.

(** The test of the first loop of [get_wheel] on one tag [v]:
    [v[-2].isdigit()] and then [int(v[-2]) == major and int(v[-1]) == minor]. *)
Definition exact_tag (major minor : Z) (v : string) : result bool :=
  c2 ← Py.neg_index v 2;
  if Py.isdigit c2 then
    n2 ← Py.int_char c2;
    if (n2 =? major)%Z then
      c1 ← Py.neg_index v 1;
      n1 ← Py.int_char c1;
      mret (n1 =? minor)%Z
    else mret false
  else mret false.

(** The test of the second loop:
    [not v[-2].isdigit() and (major==2 and v[-1]=='2' or major==3 and v[-1]=='3')]. *)
Definition family_tag (major : Z) (v : string) : result bool :=
  c2 ← Py.neg_index v 2;
  if negb (Py.isdigit c2) then
    c1 ← Py.neg_index v 1;
    mret ((major =? 2)%Z && Ascii.eqb c1 "2" || (major =? 3)%Z && Ascii.eqb c1 "3")
  else mret false.

(** [for v in vs: if test(v): return w], seen from the outer loop. *)
Fixpoint scan_tags (test : string → result bool) (vs : list string) : result bool :=
  match vs with
  | [] => Ok false
  | v :: vs' =>
      b ← test v;
      if b : bool then Ok true else scan_tags test vs'
  end.

(** [for vs, w in self.wheels: for v in vs: if test(v): return w]. *)
Fixpoint scan_wheels (test : string → result bool)
    (ws : list (list string * string)) : result (option string) :=
  match ws with
  | [] => Ok None
  | (vs, w) :: ws' =>
      b ← scan_tags test vs;
      if b : bool then Ok (Some w) else scan_wheels test ws'
  end.

Definition get_wheel (self : t) (py_versioninfo : PyVersionInfo) : result (option string) :=
  let major := major py_versioninfo in
  let minor := minor py_versioninfo in
  r ← scan_wheels (exact_tag major minor) (wheels self);
  match r with
  | Some w => Ok (Some w)
  | None => scan_wheels (family_tag major) (wheels self)
  end.

(** [self.wheels.append((get_platform_tags(wheel), wheel))]. *)
Definition add_wheel `{Pip} (self : t) (wheel : string) : result t :=
  tags ← get_platform_tags wheel;
  mret {| pkg := pkg self; version := version self;
          wheels := wheels self ++ [(tags, wheel)] |}.

End PkgSpecList.

(** ** The install planner *)

Record ToInstallResult := {
  installables : list string;
  missing : list string;
  ahead : list PkgSpec.t
}.

Record ProjectConf := {
  settings_module : string;
  user : option string;
  migrate : bool
}.

(** [host_id] and [vpy_id] stand for the identity of the Python objects:
    [v.host == host] and the sets of [task_deploy] compare by identity. *)
Record HostConf := {
  host_id : nat;
  hostname : string;
  reload_once : bool
}.

Record VirtualenvConf := {
  vpy_id : nat;
  ssh_user : option string;
  vpy_path : string;
  vpy_user : option string;
  requirements : list (string * option LooseVersion);
  site_packages : list string;
  projects : list ProjectConf;
  host : HostConf
}.

(** [PkgRepository] is a [dict] from package name to [PkgSpecList]. *)
Abbreviation PkgRepository := (gmap string PkgSpecList.t).

(** One row of the list [installable] of [get_pkgs_to_install]:
    [(pkg, spec, wheel, version)]. *)
Record Row := {
  r_pkg : string;
  r_spec : option PkgSpecList.t;
  r_wheel : option string;
  r_version : option LooseVersion
}.

Module Planner.

(** [(pkg, release_log.get_latest(pkg), installed.get(pkg))] completed with
    [spec.get_wheel(pyversion) if spec is not None else None]. *)
Definition row (installed : gmap string (option LooseVersion))
    (release_log : PkgRepository) (pyversion : PyVersionInfo) (pkg : string) : result Row :=
  let spec := release_log !! pkg in
  let version := installed !! pkg ≫= id in
  wheel ← match spec with
          | Some s => PkgSpecList.get_wheel s pyversion
          | None => Ok None
          end;
  mret {| r_pkg := pkg; r_spec := spec; r_wheel := wheel; r_version := version |}.

Fixpoint rows (installed : gmap string (option LooseVersion))
    (release_log : PkgRepository) (pyversion : PyVersionInfo)
    (pkgs : list string) : result (list Row) :=
  match pkgs with
  | [] => Ok []
  | pkg :: pkgs' =>
      r ← row installed release_log pyversion pkg;
      rest ← rows installed release_log pyversion pkgs';
      mret (r :: rest)
  end.

(** [wheel is not None and (version is None or spec.version > version)].
    A row with a wheel has a spec: the wheel was selected from it. *)
Definition test_installable (r : Row) : result bool :=
  match r_wheel r, r_spec r with
  | Some _, Some spec =>
      match r_version r with
      | None => Ok true
      | Some version => Version.gt (PkgSpecList.version spec) version
      end
  | _, _ => Ok false
  end.

(** [wheel is not None and version is not None and spec.version < version]. *)
Definition test_ahead (r : Row) : result bool :=
  match r_wheel r, r_spec r, r_version r with
  | Some _, Some spec, Some version => Version.lt (PkgSpecList.version spec) version
  | _, _, _ => Ok false
  end.

(** [[value(r) for r in rows if test(r)]]: the rows are tested in order, and
    a test that raises ends the comprehension. *)
Fixpoint collect {A} (test : Row → result bool) (value : Row → option A)
    (rs : list Row) : result (list A) :=
  match rs with
  | [] => Ok []
  | r :: rs' =>
      b ← test r;
      rest ← collect test value rs';
      mret (if b : bool
            then match value r with
                 | Some a => a :: rest
                 | None => rest
                 end
            else rest)
  end.

(** [PkgSpec(pkg, unicode(version), wheel)]. *)
Definition ahead_value (r : Row) : option PkgSpec.t :=
  match r_wheel r, r_version r with
  | Some wheel, Some version =>
      Some (PkgSpec.new (r_pkg r) (Version.to_unicode version) wheel)
  | _, _ => None
  end.

(** What the first test gives on a row when it returns. *)
Definition is_installable (r : Row) : bool :=
  match r_wheel r, r_spec r with
  | Some _, Some spec =>
      match r_version r with
      | None => true
      | Some version =>
          match Version.cmp (PkgSpecList.version spec) version with
          | Gt => true
          | _ => false
          end
      end
  | _, _ => false
  end.

(** [wheel is None]. *)
Definition is_missing (r : Row) : bool :=
  match r_wheel r with
  | None => true
  | Some _ => false
  end.

(** What the last test gives on a row when it returns. *)
Definition is_ahead (r : Row) : bool :=
  match r_wheel r, r_spec r, r_version r with
  | Some _, Some spec, Some version =>
      match Version.cmp (PkgSpecList.version spec) version with
      | Lt => true
      | _ => false
      end
  | _, _, _ => false
  end.

Definition installable_of (r : Row) : option string :=
  if is_installable r then r_wheel r else None.

Definition missing_of (r : Row) : option string :=
  if is_missing r then Some (r_pkg r) else None.

Definition ahead_of (r : Row) : option PkgSpec.t :=
  if is_ahead r then ahead_value r else None.

(** The package names the planner walks through:
    [self.requirements.keys() + self.site_packages]. *)
Definition packages (self : VirtualenvConf) : list string :=
  map fst (requirements self) ++ site_packages self.

(** [get_pkgs_to_install]; [installed] is what [self.get_installed_pkgs()]
    returned. The three lists are built one after the other. *)
Definition get_pkgs_to_install (installed : gmap string (option LooseVersion))
    (self : VirtualenvConf) (release_log : PkgRepository)
    (pyversion : PyVersionInfo) : result ToInstallResult :=
  installable ← rows installed release_log pyversion (packages self);
  to_install ← collect test_installable r_wheel installable;
  ahead ← collect test_ahead ahead_value installable;
  mret {| installables := to_install;
          missing := omap missing_of installable;
          ahead := ahead |}.

End Planner.

(** ** PkgRepository.add_wheel *)

Module Repository.

(** Returns the repository after the call and the value returned;
    an exception leaves the repository as it was. *)
Definition add_wheel `{Pip} (self : PkgRepository) (pkg version wheel : string)
    : result (PkgRepository * bool) :=
  let old := self !! pkg in
  match old with
  | None =>
      entry ← PkgSpecList.new pkg version [wheel];
      mret (<[pkg := entry]> self, true)
  | Some o =>
      newer ← Version.gt (Version.new version) (PkgSpecList.version o);
      if newer : bool then
        entry ← PkgSpecList.new pkg version [wheel];
        mret (<[pkg := entry]> self, true)
      else
        same ← Version.eq (Version.new version) (PkgSpecList.version o);
        if same : bool then
          entry ← PkgSpecList.add_wheel o wheel;
          mret (<[pkg := entry]> self, true)
        else mret (self, false)
  end.

End Repository.

(** ** ReleaseLog._read_entries *)

Module Replay.

(** [tag, spec, wheel, stamp = l.strip().split(" ", 3)] and
    [pkg, version = spec.split('==')]: unpacking a list of another length
    raises [ValueError]. *)
Definition release_fields (l : string) : result (string * string * string) :=
  match Py.split (Py.strip l) " " (Some 3) with
  | [tag; spec; wheel; stamp] =>
      match Py.split spec "==" None with
      | [pkg; version] => Ok (pkg, version, wheel)
      | _ => Raise ValueError
      end
  | _ => Raise ValueError
  end.

(** The loop over [f.readlines()]. *)
Fixpoint read_lines `{Pip} (latest_pkg : PkgRepository) (lines : list string)
    : result PkgRepository :=
  match lines with
  | [] => Ok latest_pkg
  | l :: rest =>
      if Py.startswith l "release:" then
        '(pkg, version, wheel) ← release_fields l;
        '(latest_pkg', _) ← Repository.add_wheel latest_pkg pkg version wheel;
        read_lines latest_pkg' rest
      else read_lines latest_pkg rest
  end.

(** [content] is the text of the file at [self.path]. *)
Definition _read_entries `{Pip} (content : string) : result PkgRepository :=
  read_lines ∅ (Py.readlines content).

End Replay.


(** ** What a task does to the outside, and the state it runs in *)

(** A line appended to the release log, without its time stamp:
    [release: pkg==version wheel at ...], [install: vpy: wheel at ...],
    [error: vpy: msg], [aborting: vpy: msg]. *)
Inductive LogLine :=
| LRelease (pkg version wheel : string)
| LInstall (vpy wheel : string)
| LError (vpy msg : string)
| LAborting (vpy msg : string).

(** The commands [task_deploy] passes to [vpy.run]. *)
Inductive Command :=
| CmdPyVersion                      (* "%s --version" % self.python *)
| CmdFreeze                         (* "%s freeze" % self.pip *)
| CmdMkdir (dir : string)           (* "mkdir -p %s" % vpy.wheels *)
| CmdInstall (remote_path : string) (* "%s install --upgrade %s" % (vpy.pip, remote_path) *)
| CmdMigrate (proj : ProjectConf)   (* "%s migrate $DJANGO_SETTINGS_MODULE", under proj.settings() *)
| CmdReload (h : HostConf).         (* self.reload_cmd(vpy) *)

Inductive Event :=
| EvRun (vpy : VirtualenvConf) (cmd : Command)
| EvPut (vpy : VirtualenvConf) (local_path remote_path : string)
| EvPrompt (vpy : VirtualenvConf)
| EvWarn (msg : string)
| EvLog (line : LogLine).

(** The answers of the remote side, each a function of the history of the
    run. Fabric is in its [warn_only] mode: a failed operation returns a
    result whose [succeeded] is false, which is what the task tests. *)
Record World := {
  py_version : list Event → VirtualenvConf → result PyVersionInfo;
  installed_pkgs : list Event → VirtualenvConf → result (gmap string (option LooseVersion));
  answer : list Event → VirtualenvConf → string;
  succeeded : list Event → Event → bool;
  (* where a host object stands in the iteration of a [set] built at this
     point of the run: it depends on the addresses of the objects *)
  host_rank : list Event → HostConf → nat
}.

Record State := {
  trace : list Event;                  (* in the order of the run *)
  updated_vpys : list VirtualenvConf;  (* the set [updated_vpys] of task_deploy *)
  latest_pkg : PkgRepository;          (* self.release_log.latest_pkg *)
  files : gset string                  (* the paths that exist locally *)
}.

Definition M (A : Type) : Type := State → result A * State.

#[global] Instance M_ret : MRet M := fun A a s => (Ok a, s).

#[global] Instance M_bind : MBind M := fun A B k m s =>
  match m s with
  | (Ok a, s') => k a s'
  | (Raise e, s') => (Raise e, s')
  end.

Definition raise {A} (e : Exn) : M A := fun s => (Raise e, s).

Definition lift {A} (r : result A) : M A := fun s => (r, s).

Definition emit (e : Event) : M unit := fun s =>
  (Ok tt, {| trace := trace s ++ [e]; updated_vpys := updated_vpys s;
             latest_pkg := latest_pkg s; files := files s |}).

Definition history : M (list Event) := fun s => (Ok (trace s), s).

Definition get_latest_pkg : M PkgRepository := fun s => (Ok (latest_pkg s), s).

Definition set_latest_pkg (repo : PkgRepository) : M unit := fun s =>
  (Ok tt, {| trace := trace s; updated_vpys := updated_vpys s;
             latest_pkg := repo; files := files s |}).

Definition get_updated_vpys : M (list VirtualenvConf) := fun s =>
  (Ok (updated_vpys s), s).

Definition set_updated_vpys (vpys : list VirtualenvConf) : M unit := fun s =>
  (Ok tt, {| trace := trace s; updated_vpys := vpys;
             latest_pkg := latest_pkg s; files := files s |}).

Definition get_files : M (gset string) := fun s => (Ok (files s), s).

Definition set_files (fs : gset string) : M unit := fun s =>
  (Ok tt, {| trace := trace s; updated_vpys := updated_vpys s;
             latest_pkg := latest_pkg s; files := fs |}).

(** [try: body except Skip: pass]. *)
Definition except_Skip (body : M unit) : M unit := fun s =>
  match body s with
  | (Raise Skip, s') => (Ok tt, s')
  | r => r
  end.

Fixpoint for_each {A} (l : list A) (body : A → M unit) : M unit :=
  match l with
  | [] => mret tt
  | x :: l' => body x;; for_each l' body
  end.

Definition warn (msg : string) : M unit := emit (EvWarn msg).

(** ** VirtualenvConf *)

Module Vpy.

(** [__unicode__]: ["%s:%s" % (self.host, self.vpy_path)]. *)
Definition unicode (self : VirtualenvConf) : string :=
  hostname (host self) +:+ ":" +:+ vpy_path self.

Definition wheels (self : VirtualenvConf) : string :=
  Py.path_join (vpy_path self) "wheels".

(** [vpy.run(cmd)]: the command is issued and [r.succeeded] returned. *)
Definition run (world : World) (self : VirtualenvConf) (cmd : Command) : M bool :=
  h ← history;
  emit (EvRun self cmd);;
  mret (succeeded world h (EvRun self cmd)).

Definition get_py_version (world : World) (self : VirtualenvConf) : M PyVersionInfo :=
  h ← history;
  emit (EvRun self CmdPyVersion);;
  lift (py_version world h self).

Definition get_installed_pkgs (world : World) (self : VirtualenvConf)
    : M (gmap string (option LooseVersion)) :=
  h ← history;
  emit (EvRun self CmdFreeze);;
  lift (installed_pkgs world h self).

Definition get_pkgs_to_install (world : World) (self : VirtualenvConf)
    (pyversion : PyVersionInfo) : M ToInstallResult :=
  installed ← get_installed_pkgs world self;
  release_log ← get_latest_pkg;
  lift (Planner.get_pkgs_to_install installed self release_log pyversion).

(** [match(query)]; unpacking [query.split('@')] or [query.split(':')]
    raises [ValueError] when the separator occurs more than once. *)
Definition matches (self : VirtualenvConf) (query : string) : result bool :=
  r1 ← (if Py.contains "@" query then
          match Py.split query "@" None with
          | [user; query'] =>
              Ok (if decide (vpy_user self = Some user) then Some query' else None)
          | _ => Raise ValueError
          end
        else Ok (Some query));
  match r1 with
  | None => Ok false
  | Some query1 =>
      r2 ← (if Py.contains ":" query1 then
              match Py.split query1 ":" None with
              | [query'; path] =>
                  Ok (if String.eqb (vpy_path self) path then Some query' else None)
              | _ => Raise ValueError
              end
            else Ok (Some query1));
      match r2 with
      | None => Ok false
      | Some query2 =>
          if String.eqb query2 "" then Ok true
          else Ok (String.eqb query2 (hostname (host self)))
      end
  end.

End Vpy.

(** ** HostConf *)

Module Host.

Definition same (a b : HostConf) : bool := host_id a =? host_id b.

(** [reload_webservices(vpys)]: [vpys[:1]] when [reload_once]. The result
    of the reload command is not looked at. *)
Definition reload_webservices (world : World) (self : HostConf)
    (vpys : list VirtualenvConf) : M unit :=
  let vpys := if reload_once self then take 1 vpys else vpys in
  for_each vpys (fun vpy => Vpy.run world vpy (CmdReload self);; mret tt).

End Host.

(** ** ReleaseLog *)

(** The text of the lines the release log writes: [add_release],
    [add_install] and [_error_message] (used by [log_error] with the tag
    [error] and by [abort] with the tag [aborting]). [stamp] is
    [now.isoformat()]. *)
Module Lines.

Definition nl : string := String "010" EmptyString.

Definition release_line (pkg version wheel stamp : string) : string :=
  "release: " +:+ pkg +:+ "==" +:+ version +:+ " " +:+ wheel +:+ " at " +:+ stamp +:+ nl.

Definition install_line (vpy wheel stamp : string) : string :=
  "install: " +:+ vpy +:+ ": " +:+ wheel +:+ " at " +:+ stamp +:+ nl.

Definition _error_message (tag vpy msg : string) : string :=
  tag +:+ ": " +:+ vpy +:+ ": " +:+ msg +:+ nl.

Definition render (line : LogLine) (stamp : string) : string :=
  match line with
  | LRelease pkg version wheel => release_line pkg version wheel stamp
  | LInstall vpy wheel => install_line vpy wheel stamp
  | LError vpy msg => _error_message "error" vpy msg
  | LAborting vpy msg => _error_message "aborting" vpy msg
  end.

End Lines.

Module ReleaseLog.

Definition get_latest (pkg : string) : M (option PkgSpecList.t) :=
  repo ← get_latest_pkg;
  mret (repo !! pkg).

(** The line is written first, then the repository updated. *)
Definition add_release `{Pip} (pkg version wheel : string) : M unit :=
  emit (EvLog (LRelease pkg version wheel));;
  repo ← get_latest_pkg;
  '(repo', _) ← lift (Repository.add_wheel repo pkg version wheel);
  set_latest_pkg repo'.

Definition add_install (vpy : VirtualenvConf) (wheel : string) : M unit :=
  emit (EvLog (LInstall (Vpy.unicode vpy) wheel)).

(** [fabric.utils.error] is given the line that was written; it warns,
    fabric being in its [warn_only] mode. *)
Definition log_error (vpy : VirtualenvConf) (msg : string) : M unit :=
  emit (EvLog (LError (Vpy.unicode vpy) msg));;
  warn (Lines._error_message "error" (Vpy.unicode vpy) msg).

(** [fabric.utils.abort] raises [SystemExit]. *)
Definition abort (vpy : VirtualenvConf) (msg : string) : M unit :=
  emit (EvLog (LAborting (Vpy.unicode vpy) msg));;
  raise SystemExit.

End ReleaseLog.

(** ** LocalConf *)

Record LocalConf := {
  workspace : string;
  wheels : string;
  vpy_path_local : string;
  all_vpys : list VirtualenvConf
}.

Module Deploy.

(** [", ".join(p.wheel for p in ps)] where [ps] is a slice of
    [to_install], a list of wheel file names: a [unicode] string has no
    attribute [wheel], so the first element raises [AttributeError]. *)
Definition join_wheel_attr (ps : list string) : result string :=
  match ps with
  | [] => Ok ""%string
  | _ :: _ => Raise AttributeError
  end.

(** [updated_vpys.add(vpy)]. *)
Definition add_updated (vpy : VirtualenvConf) : M unit :=
  updated ← get_updated_vpys;
  if existsb (fun v => vpy_id v =? vpy_id vpy) updated then mret tt
  else set_updated_vpys (updated ++ [vpy]).

(** The elements of [set(vpy.host for vpy in updated_vpys)], each listed
    once. *)
Fixpoint hosts_of (seen : list HostConf) (vpys : list VirtualenvConf) : list HostConf :=
  match vpys with
  | [] => []
  | v :: vpys' =>
      if existsb (Host.same (host v)) seen then hosts_of seen vpys'
      else host v :: hosts_of (host v :: seen) vpys'
  end.

(** [put(local_path, remote_path, use_sudo)]. *)
Definition put (world : World) (vpy : VirtualenvConf) (local_path remote_path : string)
    : M bool :=
  h ← history;
  emit (EvPut vpy local_path remote_path);;
  mret (succeeded world h (EvPut vpy local_path remote_path)).

Definition prompt (world : World) (vpy : VirtualenvConf) : M string :=
  h ← history;
  emit (EvPrompt vpy);;
  mret (answer world h vpy).

(** [for i, wheel in enumerate(to_install)], from index [i] on. *)
Fixpoint install_loop (self : LocalConf) (world : World) (vpy : VirtualenvConf)
    (to_install : list string) (i : nat) (rest : list string) : M unit :=
  match rest with
  | [] => mret tt
  | wheel :: rest' =>
      remote_path ←
        (if String.eqb (hostname (host vpy)) "localhost" then
           mret (Py.path_join (wheels self) wheel)
         else
           let remote_path := Py.path_join (Vpy.wheels vpy) wheel in
           r ← put world vpy (Py.path_join (wheels self) wheel) remote_path;
           (if r : bool then mret tt
            else ReleaseLog.abort vpy ("could not put " +:+ wheel));;
           mret remote_path);
      r ← Vpy.run world vpy (CmdInstall remote_path);
      (if r : bool then mret tt
       else
         done ← lift (join_wheel_attr (take i to_install));
         ReleaseLog.abort vpy
           ("could not install " +:+ wheel +:+ " after installing " +:+ done));;
      ReleaseLog.add_install vpy wheel;;
      install_loop self world vpy to_install (S i) rest'
  end.

(** [for proj in vpy.projects: if proj.migrate: ...]. *)
Definition migrate_loop (world : World) (vpy : VirtualenvConf)
    (to_install : list string) : M unit :=
  for_each (projects vpy) (fun proj =>
    if migrate proj then
      r ← Vpy.run world vpy (CmdMigrate proj);
      if r : bool then mret tt
      else
        installed ← lift (join_wheel_attr to_install);
        ReleaseLog.log_error vpy
          ("could not migrate in " +:+ settings_module proj
           +:+ " after installing " +:+ installed)
    else mret tt).

(** What follows the confirmation, inside the [try]. *)
Definition update (self : LocalConf) (world : World) (vpy : VirtualenvConf)
    (to_install : list string) : M unit :=
  add_updated vpy;;
  r ← Vpy.run world vpy (CmdMkdir (Vpy.wheels vpy));
  (if r : bool then mret tt
   else ReleaseLog.abort vpy "cannot create wheel directory");;
  install_loop self world vpy to_install 0 to_install;;
  migrate_loop world vpy to_install;;
  for_each to_install (fun wheel => ReleaseLog.add_install vpy wheel).

(** The body of the [try] for one [vpy]. *)
Definition deploy_vpy (self : LocalConf) (world : World) (vpy : VirtualenvConf) : M unit :=
  pyversion ← Vpy.get_py_version world vpy;
  plan ← Vpy.get_pkgs_to_install world vpy pyversion;
  let to_install := installables plan in
  (match ahead plan with
   | [] => mret tt
   | _ :: _ =>
       warn ("Packages ahead of repository: "
             +:+ Py.join ", " (map (fun s => PkgSpec.pkg s +:+ "=="
                                     +:+ Version.to_unicode (PkgSpec.version s))
                                   (ahead plan)))
   end);;
  match missing plan with
  | _ :: _ =>
      warn ("skipping " +:+ Vpy.unicode vpy +:+ ": missing packages: "
            +:+ Py.join ", " (missing plan));;
      raise Skip
  | [] =>
      match to_install with
      | [] => raise Skip
      | _ :: _ =>
          confirm ← prompt world vpy;
          if String.eqb (Py.lower confirm) "j" || String.eqb (Py.lower confirm) "y"
          then update self world vpy to_install
          else raise Skip
      end
  end.

(** The order in which a [set] with the elements [hs] is iterated: by rank. *)
Fixpoint insert_by (rank : HostConf → nat) (h : HostConf) (hs : list HostConf)
    : list HostConf :=
  match hs with
  | [] => [h]
  | x :: hs' => if rank h <? rank x then h :: x :: hs' else x :: insert_by rank h hs'
  end.

Definition set_order (rank : HostConf → nat) (hs : list HostConf) : list HostConf :=
  foldr (insert_by rank) [] hs.

(** The hosts of [for host in set(vpy.host for vpy in updated_vpys)], in
    the order of the iteration, in state [s]. *)
Definition reload_order (world : World) (s : State) : list HostConf :=
  set_order (host_rank world (trace s)) (hosts_of [] (updated_vpys s)).

(** The reloads at the end of the body of [for vpy in vpys]. *)
Definition reload_updated (world : World) (vpys : list VirtualenvConf) : M unit :=
  updated ← get_updated_vpys;
  h ← history;
  for_each (set_order (host_rank world h) (hosts_of [] updated)) (fun h =>
    Host.reload_webservices world h
      (filter (fun v => Host.same (host v) h = true) vpys)).

(** [for vpy in vpys: ...], over the rest of the selection; [vpys] is the
    whole selection. *)
Definition deploy_loop (self : LocalConf) (world : World)
    (vpys rest : list VirtualenvConf) : M unit :=
  for_each rest (fun vpy =>
    except_Skip (deploy_vpy self world vpy);;
    reload_updated world vpys).

(** [any(v.match(vpy_name) for vpy_name in vpy_name_list)]. *)
Fixpoint any_match (v : VirtualenvConf) (names : list string) : result bool :=
  match names with
  | [] => Ok false
  | n :: names' =>
      b ← Vpy.matches v n;
      if b : bool then Ok true else any_match v names'
  end.

Fixpoint select (vpys : list VirtualenvConf) (names : list string)
    : result (list VirtualenvConf) :=
  match vpys with
  | [] => Ok []
  | v :: vpys' =>
      b ← any_match v names;
      rest ← select vpys' names;
      mret (if b : bool then v :: rest else rest)
  end.

Definition task_deploy (self : LocalConf) (world : World) (vpy_names : string) : M unit :=
  vpys ← lift (select (all_vpys self) (Py.split vpy_names "," None));
  set_updated_vpys [];;
  deploy_loop self world vpys vpys.

End Deploy.

Module Intake.

(** [x == py_version] for an element [x] of a tag list and the tag list
    [py_version]: a [unicode] string is never equal to a [list]. *)
Definition str_eq_list (x : string) (l : list string) : bool := false.

(** [py_version in v]. *)
Definition list_in (py_version v : list string) : bool :=
  existsb (fun x => str_eq_list x py_version) v.

(** [shutil.copy(path, target_path)]. *)
Definition copy (path target_path : string) : M unit :=
  fs ← get_files;
  if decide (path ∈ fs) then set_files (fs ∪ {[target_path]})
  else raise IOError.

(** The checks against [existing_pkg]: [true] when the function executes
    [return]. *)
Definition check_existing `{Pip} (basepath version : string)
    (existing_pkg : option PkgSpecList.t) : M bool :=
  match existing_pkg with
  | None => mret false
  | Some e =>
      older ← lift (Version.lt (Version.new version) (PkgSpecList.version e));
      if older : bool then
        warn ("wheel " +:+ basepath +:+ " is out of date, ignoring");;
        mret true
      else
        same ← lift (Version.eq (Version.new version) (PkgSpecList.version e));
        if same : bool then
          py_version ← lift (get_platform_tags basepath);
          if existsb (fun vw => list_in py_version (fst vw)) (PkgSpecList.wheels e) then
            warn ("wheel " +:+ basepath +:+ " already in repository, ignoring");;
            mret true
          else mret false
        else mret false
  end.

(** The body of [for path in pathnames]: [true] when the function executes
    [return]. *)
Definition add_path `{Pip} (self : LocalConf) (path : string) : M bool :=
  if Py.endswith path ".whl" then
    let basepath := Py.basename path in
    let target_path := Py.path_join (wheels self) basepath in
    fs ← get_files;
    if decide (target_path ∈ fs) then
      warn ("wheel " +:+ basepath +:+ " already exists, ignoring");;
      mret false
    else
      match Py.split basepath "-" (Some 2) with
      | [pkg; version; _] =>
          existing_pkg ← ReleaseLog.get_latest pkg;
          returned ← check_existing basepath version existing_pkg;
          if returned : bool then mret true
          else
            copy path target_path;;
            ReleaseLog.add_release (Py.replace_char "_" "-" pkg) version basepath;;
            mret false
      | _ => raise ValueError
      end
  else
    warn ("Ignoring non-wheel-file " +:+ path);;
    mret false.

Fixpoint task_add_wheel `{Pip} (self : LocalConf) (pathnames : list string) : M unit :=
  match pathnames with
  | [] => mret tt
  | path :: rest =>
      returned ← add_path self path;
      if returned : bool then mret tt
      else task_add_wheel self rest
  end.

End Intake.

(** ** Properties stated in the specification's words *)

Module Spec.

(** The last two characters of a tag. *)
Definition last2 (v : string) : option (ascii * ascii) :=
  match rev (Py.chars v) with
  | c1 :: c2 :: _ => Some (c2, c1)
  | _ => None
  end.

Definition digit_value (c : ascii) : Z := Z.of_nat (nat_of_ascii c - 48).







(** The test of the first loop of [get_wheel] as a boolean: the tag ends in
    the two digits [major], [minor]. *)
Definition encodes_exact (major minor : Z) (v : string) : bool :=
  match last2 v with
  | Some (c2, c1) =>
      Py.isdigit c2 && Py.isdigit c1
      && (digit_value c2 =? major)%Z && (digit_value c1 =? minor)%Z
  | None => false
  end.

(** The generic tag of an interpreter family: no digit before the last
    character, which is the family's number, 2 or 3. *)
Definition generic_for (major : Z) (v : string) : bool :=
  match last2 v with
  | Some (c2, c1) =>
      negb (Py.isdigit c2)
      && ((major =? 2)%Z && Ascii.eqb c1 "2" || (major =? 3)%Z && Ascii.eqb c1 "3")
  | None => false
  end.

(** The tags on which neither loop of [get_wheel] raises: at least two
    characters, and a digit in the last place but one is followed by a
    digit. *)
Definition tag_wf (v : string) : bool :=
  match last2 v with
  | Some (c2, c1) => implb (Py.isdigit c2) (Py.isdigit c1)
  | None => false
  end.

Definition wheels_wf (ws : list (list string * string)) : Prop :=
  ∀ vs w v, (vs, w) ∈ ws → v ∈ vs → tag_wf v = true.

(** The first wheel, in the order of the entry, one of whose tags
    satisfies [p]. *)
Definition first_with (p : string → bool) (ws : list (list string * string))
    : option string :=
  snd <$> find (fun vw => existsb p (fst vw)) ws.

(** What the two loops of [get_wheel] return on such tags. *)
Definition select (ws : list (list string * string)) (major minor : Z) : option string :=
  match first_with (encodes_exact major minor) ws with
  | Some w => Some w
  | None => first_with (generic_for major) ws
  end.

(** The [install] lines among the events of a trace: target and wheel. *)
Definition install_lines (tr : list Event) : list (string * string) :=
  omap (fun e => match e with
                 | EvLog (LInstall vpy wheel) => Some (vpy, wheel)
                 | _ => None
                 end) tr.

Definition is_install_line (e : Event) : Prop :=
  match e with
  | EvLog (LInstall _ _) => True
  | _ => False
  end.

(** The [aborting] lines of a trace. *)
Definition aborting_lines (tr : list Event) : list (string * string) :=
  omap (fun e => match e with
                 | EvLog (LAborting vpy msg) => Some (vpy, msg)
                 | _ => None
                 end) tr.

(** The reload commands of a trace: host and target. *)
Definition reloads (tr : list Event) : list (HostConf * VirtualenvConf) :=
  omap (fun e => match e with
                 | EvRun vpy (CmdReload h) => Some (h, vpy)
                 | _ => None
                 end) tr.

Definition is_reload (e : Event) : Prop :=
  match e with
  | EvRun _ (CmdReload _) => True
  | _ => False
  end.

(** What one round of the install loop does when nothing fails. *)
Definition install_events (self : LocalConf) (vpy : VirtualenvConf) (wheel : string)
    : list Event :=
  if String.eqb (hostname (host vpy)) "localhost" then
    [EvRun vpy (CmdInstall (Py.path_join (wheels self) wheel));
     EvLog (LInstall (Vpy.unicode vpy) wheel)]
  else
    [EvPut vpy (Py.path_join (wheels self) wheel) (Py.path_join (Vpy.wheels vpy) wheel);
     EvRun vpy (CmdInstall (Py.path_join (Vpy.wheels vpy) wheel));
     EvLog (LInstall (Vpy.unicode vpy) wheel)].

(** The reload commands of one call of [reload_webservices]. *)
Definition reload_events (h : HostConf) (vpys : list VirtualenvConf) : list Event :=
  map (fun v => EvRun v (CmdReload h)) (if reload_once h then take 1 vpys else vpys).

End Spec.

(** [s'] continues [s]: the trace has grown by [evs] and no target has left
    the set of updated targets. *)
Definition continues (s s' : State) (evs : list Event) : Prop :=
  trace s' = trace s ++ evs
  ∧ ∀ u, u ∈ updated_vpys s → u ∈ updated_vpys s'.

(** Whatever its outcome, [m] only appends events that satisfy [P]. *)
Definition appends {A} (P : Event → Prop) (m : M A) : Prop :=
  ∀ s, ∃ evs, continues s (m s).2 evs ∧ Forall P evs.

(** The state [s] after the events [evs]. *)
Definition after (s : State) (evs : list Event) : State :=
  {| trace := trace s ++ evs; updated_vpys := updated_vpys s;
     latest_pkg := latest_pkg s; files := files s |}.

Ltac munfold :=
  unfold warn in *;
  unfold mbind, M_bind, mret, M_ret, emit, history, lift, raise,
    get_latest_pkg, set_latest_pkg, get_updated_vpys, set_updated_vpys,
    get_files, set_files in *.

(** ** Configurations for the examples *)

Module Ex.

Definition web1 : HostConf :=
  {| host_id := 1; hostname := "web1"; reload_once := false |}.

Definition web2 : HostConf :=
  {| host_id := 2; hostname := "web2"; reload_once := true |}.

(** A target at [path] on [h] that requires the packages [names]. *)
Definition venv (id : nat) (h : HostConf) (path : string) (names : list string)
    : VirtualenvConf :=
  {| vpy_id := id; ssh_user := Some "deploy"%string; vpy_path := path;
     vpy_user := Some "deploy"%string;
     requirements := map (fun n => (n, None)) names;
     site_packages := []; projects := []; host := h |}.

Definition wheel_a : string := "a-1.0-py3-none-any.whl".
Definition wheel_b : string := "b-1.0-py3-none-any.whl".

(** The repository with release 1.0 of [a] and of [b], one py3 wheel each. *)
Definition repo_ab : PkgRepository :=
  {[ "a"%string := PkgSpecList.mk "a" (Version.new "1.0") [(["py3"%string], wheel_a)];
     "b"%string := PkgSpecList.mk "b" (Version.new "1.0") [(["py3"%string], wheel_b)] ]}.

Definition conf (vpys : list VirtualenvConf) : LocalConf :=
  {| workspace := "/home/me/ws"; wheels := "/home/me/wheels";
     vpy_path_local := "/home/me/venv"; all_vpys := vpys |}.

Definition start (repo : PkgRepository) (fs : gset string) : State :=
  {| trace := []; updated_vpys := []; latest_pkg := repo; files := fs |}.

(** Python 3.7, nothing installed, every question answered with y; an
    operation succeeds unless [fails] says otherwise; a set of hosts is
    iterated in the order of their identities. *)
Definition world (fails : Event → bool) : World :=
  {| py_version := fun _ _ => Ok {| major := 3; minor := 7 |};
     installed_pkgs := fun _ _ => Ok ∅;
     answer := fun _ _ => "y"%string;
     succeeded := fun _ e => negb (fails e);
     host_rank := fun _ h => host_id h |}.

Definition nothing_fails (e : Event) : bool := false.

(** The install of the wheel of [b] fails. *)
Definition install_b_fails (e : Event) : bool :=
  match e with
  | EvRun _ (CmdInstall p) => Py.endswith p wheel_b
  | _ => false
  end.

Definition A : VirtualenvConf := venv 1 web1 "/srv/a" ["a"%string].
Definition B : VirtualenvConf := venv 2 web1 "/srv/b" [].
Definition AB : VirtualenvConf := venv 3 web1 "/srv/ab" ["a"%string; "b"%string].
Definition C : VirtualenvConf := venv 4 web2 "/srv/c" ["a"%string].
Definition D : VirtualenvConf := venv 5 web2 "/srv/d" ["b"%string].

End Ex.

(** ** Further code of the module *)

(** [_lines_to_requirements], [read_requirements] and the parsing done by
    [get_installed_pkgs]. The [dict] built from the pairs is a [gmap]: a
    later pair with the same key replaces the earlier one. *)
Module Requirements.

(** One pair of the generator: [x = l.strip().split("==", 1)] and
    [(x[0], LooseVersion(x[1]) if len(x)==2 else None)]. The lines are
    [unicode]. *)
Definition item (l : string) : result (string * option LooseVersion) :=
  match Py.split (Py.strip_u l) "==" (Some 1) with
  | [] => Raise IndexError
  | [name; version] => Ok (name, Some (Version.new version))
  | name :: _ => Ok (name, None)
  end.

Fixpoint fill (acc : gmap string (option LooseVersion)) (lines : list string)
    : result (gmap string (option LooseVersion)) :=
  match lines with
  | [] => Ok acc
  | l :: rest =>
      '(name, version) ← item l;
      fill (<[name := version]> acc) rest
  end.

Definition _lines_to_requirements (lines : list string)
    : result (gmap string (option LooseVersion)) :=
  fill ∅ lines.

(** [content] is the text of the file at [path]. *)
Definition read_requirements (content : string)
    : result (gmap string (option LooseVersion)) :=
  _lines_to_requirements (Py.readlines content).

(** What [get_installed_pkgs] makes of the output [out] of [pip freeze]:
    [_lines_to_requirements(out.split('\n'))]. *)
Definition of_freeze (out : string) : result (gmap string (option LooseVersion)) :=
  _lines_to_requirements (Py.split out Lines.nl None).

End Requirements.

(** Python's [int] on a string, left to the interpreter. *)
Class PyInt := py_int : string → result Z.

(** An instance for the examples: the value of a non-empty string of decimal
    digits, [ValueError] for any other string. *)
Definition digits_int : PyInt := fun s =>
  match Py.chars s with
  | [] => Raise ValueError
  | ds => if forallb Py.isdigit ds then Ok (Version.int_digits ds) else Raise ValueError
  end.

(** What [get_py_version] makes of the output [out] of [python --version]:
    [interpreter, version = out.split(" ", 2)], [v = version.split('.')],
    [PyVersionInfo(int(v[0]), int(v[1]))]. *)
Module PyVersion.

Definition item (v : list string) (i : nat) : result string :=
  match v !! i with
  | Some x => Ok x
  | None => Raise IndexError
  end.

Definition parse `{PyInt} (out : string) : result PyVersionInfo :=
  match Py.split out " " (Some 2) with
  | [interpreter; version] =>
      let v := Py.split version "." None in
      v0 ← item v 0;
      major ← py_int v0;
      v1 ← item v 1;
      minor ← py_int v1;
      mret {| major := major; minor := minor |}
  | _ => Raise ValueError
  end.

End PyVersion.


Definition rstrip_chars_u (t : list ascii) : list ascii := rev (Py.lstrip_u (rev t)).

(** A text whose last line, if it has any, ends with a newline: the state
    of a release log that only this module writes. *)
Definition terminated (content : string) : Prop :=
  content = ""%string ∨ ∃ t, content = t +:+ Lines.nl.

(** [c] does not occur in [s]. *)
Definition lacks (c : ascii) (s : string) : Prop := c ∉ Py.chars s.


(** The text of a release log with the given lines and time stamps. *)
Fixpoint log_text (lines : list (LogLine * string)) : string :=
  match lines with
  | [] => ""
  | (line, stamp) :: rest => Lines.render line stamp +:+ log_text rest
  end.

(** The repository after the release lines among [lines], each given to
    [PkgRepository.add_wheel] in turn. *)
Fixpoint released `{Pip} (repo : PkgRepository) (lines : list LogLine)
    : result PkgRepository :=
  match lines with
  | [] => Ok repo
  | LRelease pkg version wheel :: rest =>
      rb ← Repository.add_wheel repo pkg version wheel;
      released (fst rb) rest
  | _ :: rest => released repo rest
  end.

(** The lines appended to the release log in a trace. *)
Definition log_lines (tr : list Event) : list LogLine :=
  omap (fun e => match e with EvLog line => Some line | _ => None end) tr.

(** Every entry is stored under its own package name, has a wheel, and
    holds for each wheel the tags pip reads off its name. *)
Definition repository_ok `{Pip} (repo : PkgRepository) : Prop :=
  ∀ k e, repo !! k = Some e →
    PkgSpecList.pkg e = k
    ∧ PkgSpecList.wheels e ≠ []
    ∧ Forall (fun tw : list string * string => get_platform_tags (snd tw) = Ok (fst tw))
        (PkgSpecList.wheels e).

(** [r2] has every package of [r1], in a version that is not lower. *)
Definition never_below (r1 r2 : PkgRepository) : Prop :=
  ∀ k old, r1 !! k = Some old →
    ∃ e, r2 !! k = Some e
         ∧ Version.cmp (PkgSpecList.version e) (PkgSpecList.version old) ≠ Lt.

(** What [task_deploy] does for a target before it asks for confirmation:
    the version probe, [pip freeze], and the warning about packages ahead of
    the repository. *)
Definition planning_events (vpy : VirtualenvConf) (plan : ToInstallResult) : list Event :=
  [EvRun vpy CmdPyVersion; EvRun vpy CmdFreeze]
  ++ match ahead plan with
     | [] => []
     | _ :: _ =>
         [EvWarn ("Packages ahead of repository: "
                  +:+ Py.join ", " (map (fun s => PkgSpec.pkg s +:+ "=="
                                          +:+ Version.to_unicode (PkgSpec.version s))
                                        (ahead plan)))]
     end.

(** What [task_deploy] does for a target whether it is updated or not:
    probes, prompts, warnings, and the reload commands. *)
Definition unconditional (e : Event) : Prop :=
  match e with
  | EvRun _ (CmdPyVersion | CmdFreeze | CmdReload _) | EvPrompt _ | EvWarn _ => True
  | _ => False
  end.

(** Events that change the target [v] or write about it in the release
    log. *)
Definition modifies (v : VirtualenvConf) (e : Event) : Prop :=
  match e with
  | EvRun v' (CmdMkdir _ | CmdInstall _ | CmdMigrate _) => v' = v
  | EvPut v' _ _ => v' = v
  | EvLog (LInstall n _ | LError n _ | LAborting n _) => n = Vpy.unicode v
  | _ => False
  end.

(** An event that is unconditional or modifies a target counted among
    [updated]. *)
Definition allowed (updated : list VirtualenvConf) (e : Event) : Prop :=
  unconditional e ∨ ∃ u, u ∈ updated ∧ modifies u e.

(** Every target counted as updated in [s] is one of [targets]. *)
Definition within (targets : list VirtualenvConf) (s : State) : Prop :=
  ∀ u, u ∈ updated_vpys s → u ∈ targets.

(** [s'] extends [s]: it continues it, with the repository and the local
    files as they were, and the targets it counts in addition are among
    [targets]. *)
Definition extends (targets : list VirtualenvConf) (s s' : State) (evs : list Event)
    : Prop :=
  continues s s' evs ∧ latest_pkg s' = latest_pkg s ∧ files s' = files s
  ∧ (within targets s → within targets s').

(** Whatever its outcome, [m] extends the state by events that satisfy
    [P]. *)
Definition frames {A} (targets : list VirtualenvConf) (P : Event → Prop) (m : M A)
    : Prop :=
  ∀ s, ∃ evs, extends targets s (m s).2 evs ∧ Forall P evs.

(** From a state whose updated targets are among [targets], [m] extends
    the state by events that are allowed by the targets counted as updated
    when it ends. *)
Definition guarded {A} (targets : list VirtualenvConf) (m : M A) : Prop :=
  ∀ s, within targets s →
    ∃ evs, extends targets s (m s).2 evs
           ∧ Forall (allowed (updated_vpys (m s).2)) evs.

(** The identities tell the targets apart. *)
Definition distinct_ids (targets : list VirtualenvConf) : Prop :=
  ∀ u v, u ∈ targets → v ∈ targets → vpy_id u = vpy_id v → u = v.

(** The migrations of [vpy]: the projects that are to be migrated. *)
Definition migrations (vpy : VirtualenvConf) : list ProjectConf :=
  filter (fun p => migrate p = true) (projects vpy).

(** An event that is no [aborting] line. *)
Definition no_abort (e : Event) : Prop :=
  match e with
  | EvLog (LAborting _ _) => False
  | _ => True
  end.

(** The messages [task_deploy] gives to [abort]. *)
Definition abort_message (msg : string) : Prop :=
  msg = "cannot create wheel directory"%string
  ∨ ∃ wheel, msg = "could not put " +:+ wheel
             ∨ msg = "could not install " +:+ wheel +:+ " after installing " +:+ "".

(** The events [evs] of an update of [vpy] that ended with [r]: an
    [aborting] line for [vpy] is the last event when [r] is [SystemExit], and
    there is no other one. *)
Definition abort_shape (vpy : VirtualenvConf) (r : result unit) (evs : list Event) : Prop :=
  match r with
  | Ok _ => Forall no_abort evs
  | Raise SystemExit =>
      ∃ evs' msg, evs = evs' ++ [EvLog (LAborting (Vpy.unicode vpy) msg)]
                  ∧ Forall no_abort evs' ∧ abort_message msg
  | Raise e => e = AttributeError ∧ Forall no_abort evs
  end.

(** The events of [task_add_wheel]: warnings and release lines. *)
Definition intake_event (e : Event) : Prop :=
  match e with
  | EvWarn _ | EvLog (LRelease _ _ _) => True
  | _ => False
  end.

(** Whatever its outcome, [m] only adds warnings and release lines to the
    trace, removes no local file, and, when it returns, leaves the repository
    that the release lines it wrote make of the one it found. *)
Definition in_step `{Pip} {A} (m : M A) : Prop :=
  ∀ s, ∃ evs,
    trace (m s).2 = trace s ++ evs
    ∧ updated_vpys (m s).2 = updated_vpys s
    ∧ files s ⊆ files (m s).2
    ∧ Forall intake_event evs
    ∧ (∀ a, (m s).1 = Ok a →
         released (latest_pkg s) (log_lines evs) = Ok (latest_pkg (m s).2)).

(** The text of a requirement file that pins every package: a line
    [name==version] for each pair. *)
Fixpoint pins_text (pins : list (string * string)) : string :=
  match pins with
  | [] => ""
  | (name, version) :: rest =>
      (name +:+ "==" +:+ version) +:+ Lines.nl +:+ pins_text rest
  end.

(** The dict that maps every name to its version, a later pair replacing an
    earlier one with the same name. *)
Fixpoint pins_dict (acc : gmap string (option LooseVersion))
    (pins : list (string * string)) : gmap string (option LooseVersion) :=
  match pins with
  | [] => acc
  | (name, version) :: rest =>
      pins_dict (<[name := Some (Version.new version)]> acc) rest
  end.

(** A name and a version as a requirement file holds them: on one line,
    the name without an equals sign, the name beginning and the version
    ending with a character that [unicode.strip] does not remove. *)
Definition pin_ok (pin : string * string) : Prop :=
  lacks "=" (fst pin) ∧ lacks "010" (fst pin) ∧ lacks "010" (snd pin)
  ∧ (∃ c, head (Py.chars (fst pin)) = Some c ∧ Py.isspace_u c = false)
  ∧ (∃ c, last (Py.chars (snd pin)) = Some c ∧ Py.isspace_u c = false).

(** ** Further configurations for the examples *)

Module Cases.

Definition stamp : string := "2016-05-01T10:00:00.000000".

Definition release_a : string :=
  "release: a==1.0 a-1.0-py3-none-any.whl at 2016-05-01T10:00:00.000000" +:+ Lines.nl.

Definition entry_a : PkgSpecList.t :=
  PkgSpecList.mk "a" (Version.new "1.0") [(["py3"%string], Ex.wheel_a)].

(** An entry with a wheel for CPython 3.10 and a generic one. *)
Definition entry_x : PkgSpecList.t :=
  PkgSpecList.mk "x" (Version.new "1.0")
    [(["cp310"%string], "x-1.0-cp310-cp310-linux_x86_64.whl"%string);
     (["py3"%string], "x-1.0-py3-none-any.whl"%string)].

(** An entry whose first tag is too short, and one whose first tag ends in
    a digit and a letter. *)
Definition entry_short : PkgSpecList.t :=
  PkgSpecList.mk "y" (Version.new "1.0") [(["3"%string], "y-1.0-3-none-any.whl"%string)].

Definition entry_odd : PkgSpecList.t :=
  PkgSpecList.mk "z" (Version.new "1.0") [(["cp3x"%string], "z-1.0-cp3x-none-any.whl"%string)].

(** A target that names [a] among its requirements and its site packages. *)
Definition twice : VirtualenvConf :=
  {| vpy_id := 6; ssh_user := Some "deploy"%string; vpy_path := "/srv/t";
     vpy_user := Some "deploy"%string;
     requirements := [("a"%string, None)];
     site_packages := ["a"%string]; projects := []; host := Ex.web1 |}.

Definition shop : ProjectConf :=
  {| settings_module := "shop.settings"; user := None; migrate := true |}.

(** A target that requires [a] and has a project to migrate. *)
Definition with_project : VirtualenvConf :=
  {| vpy_id := 7; ssh_user := Some "deploy"%string; vpy_path := "/srv/shop";
     vpy_user := Some "deploy"%string;
     requirements := [("a"%string, None)];
     site_packages := []; projects := [shop]; host := Ex.web1 |}.

Definition mkdir_fails (e : Event) : bool :=
  match e with
  | EvRun _ (CmdMkdir _) => true
  | _ => false
  end.

Definition migrate_fails (e : Event) : bool :=
  match e with
  | EvRun _ (CmdMigrate _) => true
  | _ => false
  end.

(** Every question is answered with n. *)
Definition declining : World :=
  {| py_version := fun _ _ => Ok {| major := 3; minor := 7 |};
     installed_pkgs := fun _ _ => Ok ∅;
     answer := fun _ _ => "n"%string;
     succeeded := fun _ _ => true;
     host_rank := fun _ h => host_id h |}.

(** The repository with release 2.0 of [my-pkg]. *)
Definition repo_dash : PkgRepository :=
  {[ "my-pkg"%string :=
       PkgSpecList.mk "my-pkg" (Version.new "2.0")
         [(["py3"%string], "my_pkg-2.0-py3-none-any.whl"%string)] ]}.

End Cases.

(** * Theorems *)

(** ** The version order *)

Lemma cmp_component_antisym a b :
  Version.cmp_component a b = CompOpp (Version.cmp_component b a).
Proof.
  destruct a, b; simpl; auto using Z.compare_antisym, String.compare_antisym.
Qed.

Lemma cmp_list_antisym l1 : ∀ l2,
  Version.cmp_list l1 l2 = CompOpp (Version.cmp_list l2 l1).
Proof.
  induction l1 as [|a l1 IH]; intros [|b l2]; simpl; auto.
  rewrite (cmp_component_antisym a b).
  destruct (Version.cmp_component b a); simpl; auto.
Qed.

Lemma cmp_antisym a b : Version.cmp a b = CompOpp (Version.cmp b a).
Proof. apply cmp_list_antisym. Qed.

Lemma cmp_Lt_Gt a b : Version.cmp a b = Lt ↔ Version.cmp b a = Gt.
Proof. rewrite (cmp_antisym a b). destruct (Version.cmp b a); simpl; split; congruence. Qed.

Lemma cmp_refl a : Version.cmp a a = Eq.
Proof.
  unfold Version.cmp. induction (Version.version a) as [|c l IH]; simpl; auto.
  assert (Version.cmp_component c c = Eq) as ->; auto.
  pose proof (cmp_component_antisym c c) as H.
  destruct (Version.cmp_component c c); simpl in H; congruence.
Qed.

Example version_order :
  Version.cmp (Version.new "1.10") (Version.new "1.9") = Gt
  ∧ Version.cmp (Version.new "1.9") (Version.new "1.2") = Gt
  ∧ Version.cmp (Version.new "2.0") (Version.new "1.5") = Gt.
Proof. repeat split. Qed.


Lemma compare_ok a b :
  Version.has_version a = true → Version.has_version b = true →
  Version.compare a b = Ok (Version.cmp a b).
Proof. intros Ha Hb. unfold Version.compare. by rewrite Ha, Hb. Qed.


Lemma compare_returns a b c :
  Version.compare a b = Ok c →
  c = Version.cmp a b
  ∧ Version.has_version a = true ∧ Version.has_version b = true.
Proof.
  unfold Version.compare.
  destruct (Version.has_version a), (Version.has_version b); simpl; try done.
  by intros [= <-].
Qed.

Lemma compare_cases a b :
  Version.compare a b = Ok (Version.cmp a b)
  ∨ Version.compare a b = Raise AttributeError.
Proof.
  unfold Version.compare.
  destruct (Version.has_version a && Version.has_version b); auto.
Qed.

(** ** PkgRepository.add_wheel *)

Lemma new_single `{Pip} pkg version wheel tags :
  get_platform_tags wheel = Ok tags →
  PkgSpecList.new pkg version [wheel]
  = Ok (PkgSpecList.mk pkg (Version.new version) [(tags, wheel)]).
Proof. intros Ht. unfold PkgSpecList.new. simpl. by rewrite Ht. Qed.

(** When pip rejects the wheel name the call raises, unless the release is
    older than the stored one. *)
Lemma add_wheel_invalid_name `{Pip} (self : PkgRepository) pkg version wheel e :
  get_platform_tags wheel = Raise e →
  Repository.add_wheel self pkg version wheel = Raise e
  ∨ Repository.add_wheel self pkg version wheel = Ok (self, false)
  ∨ Repository.add_wheel self pkg version wheel = Raise AttributeError.
Proof.
  intros Ht. unfold Repository.add_wheel, PkgSpecList.new, PkgSpecList.add_wheel,
    Version.gt, Version.eq.
  simpl. rewrite Ht. simpl.
  destruct (self !! pkg) as [old|]; auto.
  destruct (compare_cases (Version.new version) (PkgSpecList.version old)) as [-> | ->];
    simpl; auto.
  destruct (Version.cmp _ _); simpl; auto.
Qed.

(** What [add_wheel] does against a stored entry, by the order of the two
    versions. *)
Lemma add_wheel_stored `{Pip} (self : PkgRepository) pkg version wheel old :
  self !! pkg = Some old →
  Version.has_version (Version.new version) = true →
  Version.has_version (PkgSpecList.version old) = true →
  Repository.add_wheel self pkg version wheel
  = match Version.cmp (Version.new version) (PkgSpecList.version old) with
    | Gt => entry ← PkgSpecList.new pkg version [wheel];
            mret (<[pkg := entry]> self, true)
    | Eq => entry ← PkgSpecList.add_wheel old wheel;
            mret (<[pkg := entry]> self, true)
    | Lt => Ok (self, false)
    end.
Proof.
  intros Hold Hnew Hstored. unfold Repository.add_wheel, Version.gt, Version.eq.
  rewrite Hold, (compare_ok _ _ Hnew Hstored). simpl.
  by destruct (Version.cmp _ _).
Qed.


(** [add_wheel] returns for a wheel name pip accepts when the comparison
    with a stored version returns. *)
Lemma add_wheel_returns `{Pip} (self : PkgRepository) pkg version wheel tags :
  get_platform_tags wheel = Ok tags →
  (∀ old, self !! pkg = Some old →
     Version.has_version (Version.new version) = true
     ∧ Version.has_version (PkgSpecList.version old) = true) →
  ∃ r b, Repository.add_wheel self pkg version wheel = Ok (r, b).
Proof.
  intros Ht Hver. destruct (self !! pkg) as [old|] eqn:Hold.
  - destruct (Hver old eq_refl) as [Hv Hstored].
    rewrite (add_wheel_stored self pkg version wheel old Hold Hv Hstored).
    unfold PkgSpecList.add_wheel. rewrite (new_single _ _ _ _ Ht), Ht. simpl.
    destruct (Version.cmp _ _); eauto.
  - unfold Repository.add_wheel. rewrite Hold, (new_single _ _ _ _ Ht). simpl. eauto.
Qed.

Lemma lt_returns a b r :
  Version.lt a b = Ok r →
  Version.compare a b = Ok (Version.cmp a b)
  ∧ r = match Version.cmp a b with Lt => true | _ => false end.
Proof.
  unfold Version.lt. destruct (compare_cases a b) as [-> | ->]; simpl; [|done].
  by intros [= <-].
Qed.



(** ** PkgSpecList.get_wheel *)

Section get_wheel.

Variables major minor : Z.

Lemma exact_tag_wf v :
  Spec.tag_wf v = true →
  PkgSpecList.exact_tag major minor v = Ok (Spec.encodes_exact major minor v).
Proof.
  unfold Spec.tag_wf, Spec.encodes_exact, Spec.last2, PkgSpecList.exact_tag,
    Py.neg_index, Py.int_char, Spec.digit_value.
  destruct (rev (Py.chars v)) as [|c1 [|c2 l]]; try discriminate. simpl.
  destruct (Py.isdigit c2); simpl; [|done].
  intros ->. simpl.
  by destruct (_ =? major)%Z.
Qed.

Lemma family_tag_wf v :
  Spec.tag_wf v = true →
  PkgSpecList.family_tag major v = Ok (Spec.generic_for major v).
Proof.
  unfold Spec.tag_wf, Spec.generic_for, Spec.last2, PkgSpecList.family_tag,
    Py.neg_index.
  destruct (rev (Py.chars v)) as [|c1 [|c2 l]]; try discriminate. simpl.
  by destruct (Py.isdigit c2).
Qed.

(** A tag of fewer than two characters makes both loops raise. *)
Lemma short_tag_raises v :
  Spec.last2 v = None →
  PkgSpecList.exact_tag major minor v = Raise IndexError.
Proof.
  unfold Spec.last2, PkgSpecList.exact_tag, Py.neg_index.
  by destruct (rev (Py.chars v)) as [|c1 [|c2 l]].
Qed.

End get_wheel.

Lemma scan_tags_spec test (p : string → bool) vs :
  (∀ v, v ∈ vs → test v = Ok (p v)) →
  PkgSpecList.scan_tags test vs = Ok (existsb p vs).
Proof.
  induction vs as [|v vs IH]; intros Htest; simpl; [done|].
  rewrite (Htest v) by left. simpl.
  destruct (p v); simpl; [done|].
  apply IH. intros v' Hv'. apply Htest. by right.
Qed.

Lemma scan_wheels_spec test (p : string → bool) ws :
  (∀ vs w v, (vs, w) ∈ ws → v ∈ vs → test v = Ok (p v)) →
  PkgSpecList.scan_wheels test ws = Ok (Spec.first_with p ws).
Proof.
  unfold Spec.first_with.
  induction ws as [|[vs w] ws IH]; intros Htest; simpl; [done|].
  rewrite (scan_tags_spec test p vs) by (intros v Hv; apply (Htest vs w); [left|done]).
  simpl. destruct (existsb p vs); simpl; [done|].
  apply IH. intros vs' w' v Hin Hv. apply (Htest vs' w'); [by right|done].
Qed.


Lemma wheels_wf_forallb ws :
  forallb (fun vw : list string * string => forallb Spec.tag_wf (fst vw)) ws = true →
  Spec.wheels_wf ws.
Proof.
  intros Hall vs w v Hin Hv.
  rewrite forallb_forall in Hall.
  apply list_elem_of_In in Hin. specialize (Hall _ Hin). simpl in Hall.
  rewrite forallb_forall in Hall. apply Hall. by apply list_elem_of_In.
Qed.

Lemma get_wheel_select self pv :
  Spec.wheels_wf (PkgSpecList.wheels self) →
  PkgSpecList.get_wheel self pv
  = Ok (Spec.select (PkgSpecList.wheels self) (major pv) (minor pv)).
Proof.
  intros Hwf. unfold PkgSpecList.get_wheel, Spec.select.
  rewrite (scan_wheels_spec (PkgSpecList.exact_tag (major pv) (minor pv))
             (Spec.encodes_exact (major pv) (minor pv)))
    by (intros vs w v Hin Hv; apply exact_tag_wf; by apply (Hwf vs w)).
  simpl. destruct (Spec.first_with _ _); [done|].
  apply scan_wheels_spec. intros vs w v Hin Hv. apply family_tag_wf.
  by apply (Hwf vs w).
Qed.











(** ** The install planner *)

Section planner.

Variable installed : gmap string (option LooseVersion).
Variable release_log : PkgRepository.
Variable pyversion : PyVersionInfo.

Lemma row_fields pkg r :
  Planner.row installed release_log pyversion pkg = Ok r →
  r_pkg r = pkg
  ∧ r_spec r = release_log !! pkg
  ∧ r_version r = (installed !! pkg ≫= id)
  ∧ match release_log !! pkg with
    | Some e => PkgSpecList.get_wheel e pyversion = Ok (r_wheel r)
    | None => r_wheel r = None
    end.
Proof.
  unfold Planner.row. destruct (release_log !! pkg) as [e|]; simpl.
  - destruct (PkgSpecList.get_wheel e pyversion) as [w|ex]; simpl; [|discriminate].
    intros [= <-]. done.
  - intros [= <-]. done.
Qed.

Lemma row_total pkg :
  (∀ e, release_log !! pkg = Some e → Spec.wheels_wf (PkgSpecList.wheels e)) →
  ∃ r, Planner.row installed release_log pyversion pkg = Ok r.
Proof.
  intros Hwf. unfold Planner.row.
  destruct (release_log !! pkg) as [e|] eqn:He; simpl; [|eauto].
  rewrite (get_wheel_select e pyversion (Hwf e eq_refl)). simpl. eauto.
Qed.

Lemma rows_total pkgs :
  (∀ pkg e, pkg ∈ pkgs → release_log !! pkg = Some e →
            Spec.wheels_wf (PkgSpecList.wheels e)) →
  ∃ rs, Planner.rows installed release_log pyversion pkgs = Ok rs.
Proof.
  induction pkgs as [|pkg pkgs IH]; intros Hwf; simpl; [eauto|].
  destruct (row_total pkg) as [r ->]; [intros e; apply Hwf; left|].
  destruct IH as [rs ->]; [intros p e Hp; apply Hwf; by right|].
  simpl. eauto.
Qed.

(** The rows follow the package list, one row for each name. *)
Lemma rows_Forall2 pkgs : ∀ rs,
  Planner.rows installed release_log pyversion pkgs = Ok rs →
  Forall2 (fun pkg r => Planner.row installed release_log pyversion pkg = Ok r) pkgs rs.
Proof.
  induction pkgs as [|pkg pkgs IH]; simpl; intros rs.
  - intros [= <-]. constructor.
  - destruct (Planner.row _ _ _ pkg) as [r|] eqn:Hr; simpl; [|discriminate].
    destruct (Planner.rows _ _ _ pkgs) as [rs'|]; simpl; [|discriminate].
    intros [= <-]. constructor; auto.
Qed.

Lemma rows_of_pkg pkgs rs pkg :
  Planner.rows installed release_log pyversion pkgs = Ok rs →
  pkg ∈ pkgs →
  ∃ r, r ∈ rs ∧ Planner.row installed release_log pyversion pkg = Ok r.
Proof.
  intros Hrs%rows_Forall2 Hin.
  induction Hrs as [|p r pkgs rs Hr Hrs IH]; [inversion Hin|].
  apply elem_of_cons in Hin as [->|Hin].
  - exists r. split; [left|done].
  - destruct (IH Hin) as (r' & Hr' & Hrow). exists r'. split; [by right|done].
Qed.

Lemma pkg_of_rows pkgs rs r :
  Planner.rows installed release_log pyversion pkgs = Ok rs →
  r ∈ rs →
  r_pkg r ∈ pkgs ∧ Planner.row installed release_log pyversion (r_pkg r) = Ok r.
Proof.
  intros Hrs%rows_Forall2 Hin.
  induction Hrs as [|p r' pkgs rs Hr Hrs IH]; [inversion Hin|].
  apply elem_of_cons in Hin as [->|Hin].
  - destruct (row_fields _ _ Hr) as [-> _]. split; [left|done].
  - destruct (IH Hin). split; [by right|done].
Qed.

Lemma rows_length pkgs rs :
  Planner.rows installed release_log pyversion pkgs = Ok rs →
  length rs = length pkgs.
Proof. intros Hrs%rows_Forall2. symmetry. by eapply Forall2_length. Qed.

(** No row passes two of the three filters. *)
Lemma filters_exclusive r :
  (Planner.is_installable r = true → Planner.is_missing r = false ∧ Planner.is_ahead r = false)
  ∧ (Planner.is_missing r = true → Planner.is_installable r = false ∧ Planner.is_ahead r = false)
  ∧ (Planner.is_ahead r = true → Planner.is_installable r = false ∧ Planner.is_missing r = false).
Proof.
  unfold Planner.is_installable, Planner.is_missing, Planner.is_ahead.
  destruct (r_wheel r), (r_spec r) as [e|], (r_version r) as [v|];
    try (repeat split; congruence).
  destruct (Version.cmp (PkgSpecList.version e) v); repeat split; congruence.
Qed.

(** A test that returns gives the order of the two versions. *)
Lemma test_installable_returns r b :
  Planner.test_installable r = Ok b → b = Planner.is_installable r.
Proof.
  unfold Planner.test_installable, Planner.is_installable, Version.gt.
  destruct (r_wheel r), (r_spec r) as [e|], (r_version r) as [v|]; try by intros [= <-].
  destruct (compare_cases (PkgSpecList.version e) v) as [-> | ->]; simpl; [|done].
  by intros [= <-].
Qed.

Lemma test_ahead_returns r b :
  Planner.test_ahead r = Ok b → b = Planner.is_ahead r.
Proof.
  unfold Planner.test_ahead, Planner.is_ahead, Version.lt.
  destruct (r_wheel r), (r_spec r) as [e|], (r_version r) as [v|]; try by intros [= <-].
  destruct (compare_cases (PkgSpecList.version e) v) as [-> | ->]; simpl; [|done].
  by intros [= <-].
Qed.

(** The tests return on a row whose two versions can be compared. *)
Lemma tests_return r :
  (∀ e v, r_wheel r ≠ None → r_spec r = Some e → r_version r = Some v →
          Version.has_version (PkgSpecList.version e) = true
          ∧ Version.has_version v = true) →
  Planner.test_installable r = Ok (Planner.is_installable r)
  ∧ Planner.test_ahead r = Ok (Planner.is_ahead r).
Proof.
  unfold Planner.test_installable, Planner.is_installable, Planner.test_ahead,
    Planner.is_ahead, Version.gt, Version.lt.
  destruct (r_wheel r), (r_spec r) as [e|], (r_version r) as [v|]; try done.
  intros Hv. destruct (Hv e v) as [He Hv']; try done.
  by rewrite (compare_ok _ _ He Hv').
Qed.

Lemma collect_returns {A} test (p : Row → bool) (value : Row → option A) rs :
  (∀ r b, test r = Ok b → b = p r) →
  ∀ l, Planner.collect test value rs = Ok l →
       l = omap (fun r => if p r then value r else None) rs.
Proof.
  intros Htest. induction rs as [|r rs IH]; simpl; intros l.
  - by intros [= <-].
  - destruct (test r) as [b|] eqn:Hb; simpl; [|done].
    destruct (Planner.collect test value rs) as [rest|]; simpl; [|done].
    intros [= <-]. specialize (IH rest eq_refl). subst rest.
    rewrite <- (Htest r b Hb).
    destruct b; [|done]. by destruct (value r).
Qed.

Lemma collect_total {A} test (p : Row → bool) (value : Row → option A) rs :
  (∀ r, r ∈ rs → test r = Ok (p r)) →
  ∃ l, Planner.collect test value rs = Ok l.
Proof.
  induction rs as [|r rs IH]; intros Htest; simpl; [eauto|].
  rewrite (Htest r) by left. simpl.
  destruct IH as [rest ->]; [intros r' Hr'; apply Htest; by right|].
  simpl. eauto.
Qed.

End planner.

(** A plan that is returned holds what the three filters keep of the rows. *)
Lemma plan_returned installed self release_log pyversion plan :
  Planner.get_pkgs_to_install installed self release_log pyversion = Ok plan →
  ∃ rs,
    Planner.rows installed release_log pyversion (Planner.packages self) = Ok rs
    ∧ plan = {| installables := omap Planner.installable_of rs;
                missing := omap Planner.missing_of rs;
                ahead := omap Planner.ahead_of rs |}.
Proof.
  unfold Planner.get_pkgs_to_install.
  destruct (Planner.rows _ _ _ _) as [rs|]; simpl; [|done].
  destruct (Planner.collect Planner.test_installable _ rs) as [l1|] eqn:H1; simpl; [|done].
  destruct (Planner.collect Planner.test_ahead _ rs) as [l2|] eqn:H2; simpl; [|done].
  intros [= <-]. exists rs. split; [done|].
  by rewrite (collect_returns _ Planner.is_installable _ rs test_installable_returns _ H1),
    (collect_returns _ Planner.is_ahead _ rs test_ahead_returns _ H2).
Qed.

(** The planner returns a plan when the tags of the entries it looks up
    have the shape the matcher reads and the versions it compares were built
    from non-empty strings. *)
Lemma plan_total installed self release_log pyversion :
  (∀ pkg e, pkg ∈ Planner.packages self → release_log !! pkg = Some e →
            Spec.wheels_wf (PkgSpecList.wheels e)) →
  (∀ pkg e w v, pkg ∈ Planner.packages self → release_log !! pkg = Some e →
                PkgSpecList.get_wheel e pyversion = Ok (Some w) →
                (installed !! pkg ≫= id) = Some v →
                Version.has_version (PkgSpecList.version e) = true
                ∧ Version.has_version v = true) →
  ∃ plan, Planner.get_pkgs_to_install installed self release_log pyversion = Ok plan.
Proof.
  intros Hwf Hver. unfold Planner.get_pkgs_to_install.
  destruct (rows_total installed release_log pyversion (Planner.packages self) Hwf)
    as [rs Hrs].
  rewrite Hrs. simpl.
  assert (Htests : ∀ r, r ∈ rs →
            Planner.test_installable r = Ok (Planner.is_installable r)
            ∧ Planner.test_ahead r = Ok (Planner.is_ahead r)).
  { intros r Hr. apply tests_return. intros e v Hw He Hv.
    destruct (pkg_of_rows _ _ _ _ _ r Hrs Hr) as [Hpkg Hrow].
    destruct (row_fields _ _ _ _ _ Hrow) as (_ & Hs & Hv' & Hget).
    rewrite <- Hs, He in Hget.
    destruct (r_wheel r) as [w|] eqn:Hwheel; [|done].
    apply (Hver (r_pkg r) e w v); try done; congruence. }
  destruct (collect_total Planner.test_installable Planner.is_installable r_wheel rs)
    as [l1 ->]; [intros r Hr; by apply Htests|].
  destruct (collect_total Planner.test_ahead Planner.is_ahead Planner.ahead_value rs)
    as [l2 ->]; [intros r Hr; by apply Htests|].
  simpl. eauto.
Qed.

(** C3. Classification by the planner. In every plan the planner returns,
    for every package among the requirement names and the site packages of the
    target: with no entry in the repository, or no wheel selected for the
    interpreter, the package is in [missing]; with a wheel selected and the
    package either not installed or installed in a version below the
    repository's, the wheel is in [installables]; with a wheel selected and
    the installed version above the repository's, the package is in [ahead]
    with the installed version. The planner returns a plan when the tags of
    the entries of these packages have the shape the matcher reads and the
    versions it compares, the repository's and the installed one of a package
    with a wheel, were built from non-empty strings. A repository holding only
    mypkg 1.0 with one py3 wheel, a target requiring mypkg that has not
    installed it and interpreter (3,7) give the plan with that wheel as only
    installable, nothing missing and nothing ahead. *)
Theorem planner_classification :
  (∀ (installed : gmap string (option LooseVersion)) (self : VirtualenvConf)
     (release_log : PkgRepository) (pyversion : PyVersionInfo) (plan : ToInstallResult),
     Planner.get_pkgs_to_install installed self release_log pyversion = Ok plan →
     ∀ pkg, pkg ∈ map fst (requirements self) ++ site_packages self →
       ((release_log !! pkg = None
         ∨ ∃ e, release_log !! pkg = Some e
                ∧ PkgSpecList.get_wheel e pyversion = Ok None) →
        pkg ∈ missing plan)
       ∧ (∀ e w, release_log !! pkg = Some e →
            PkgSpecList.get_wheel e pyversion = Ok (Some w) →
            ((installed !! pkg ≫= id) = None
             ∨ ∃ v, (installed !! pkg ≫= id) = Some v
                    ∧ Version.cmp (PkgSpecList.version e) v = Gt) →
            w ∈ installables plan)
       ∧ (∀ e w v, release_log !! pkg = Some e →
            PkgSpecList.get_wheel e pyversion = Ok (Some w) →
            (installed !! pkg ≫= id) = Some v →
            Version.cmp v (PkgSpecList.version e) = Gt →
            PkgSpec.new pkg (Version.vstring v) w ∈ ahead plan))
  ∧ (∀ (installed : gmap string (option LooseVersion)) (self : VirtualenvConf)
       (release_log : PkgRepository) (pyversion : PyVersionInfo),
       (∀ pkg e, pkg ∈ map fst (requirements self) ++ site_packages self →
                 release_log !! pkg = Some e →
                 Spec.wheels_wf (PkgSpecList.wheels e)) →
       (∀ pkg e w v, pkg ∈ map fst (requirements self) ++ site_packages self →
                     release_log !! pkg = Some e →
                     PkgSpecList.get_wheel e pyversion = Ok (Some w) →
                     (installed !! pkg ≫= id) = Some v →
                     Version.has_version (PkgSpecList.version e) = true
                     ∧ Version.has_version v = true) →
       ∃ plan,
         Planner.get_pkgs_to_install installed self release_log pyversion = Ok plan)
  ∧ (∀ (installed : gmap string (option LooseVersion)) (self : VirtualenvConf)
       (pin : option LooseVersion),
       requirements self = [("mypkg"%string, pin)] →
       site_packages self = [] →
       installed !! "mypkg"%string = None →
       Planner.get_pkgs_to_install installed self
         {[ "mypkg"%string :=
              PkgSpecList.mk "mypkg" (Version.new "1.0")
                [(["py3"%string], "mypkg-1.0-py3-none-any.whl"%string)] ]}
         {| major := 3; minor := 7 |}
       = Ok {| installables := ["mypkg-1.0-py3-none-any.whl"%string];
               missing := [];
               ahead := [] |}).
Proof.
  split; [|split].
  - intros installed self release_log pyversion plan Hplan.
    destruct (plan_returned _ _ _ _ _ Hplan) as (rs & Hrs & ->). simpl.
    intros pkg Hpkg.
    destruct (rows_of_pkg _ _ _ _ _ pkg Hrs Hpkg) as (r & Hr & Hrow).
    destruct (row_fields _ _ _ _ _ Hrow) as (Hp & Hs & Hv & Hw).
    repeat split.
    + intros Hmiss. apply list_elem_of_omap. exists r. split; [done|].
      unfold Planner.missing_of, Planner.is_missing.
      destruct Hmiss as [Hnone | (e & He & Hget)].
      * rewrite Hnone in Hw. rewrite Hw. by rewrite Hp.
      * rewrite He, Hget in Hw. injection Hw as <-. by rewrite Hp.
    + intros e w He Hget Hver. apply list_elem_of_omap. exists r. split; [done|].
      rewrite He, Hget in Hw. injection Hw as Hw.
      unfold Planner.installable_of, Planner.is_installable.
      rewrite <- Hw, Hs, He, Hv.
      destruct Hver as [-> | (v & -> & Hgt)]; [done|].
      by rewrite Hgt.
    + intros e w v He Hget Hver Hgt. apply list_elem_of_omap. exists r. split; [done|].
      rewrite He, Hget in Hw. injection Hw as Hw.
      apply cmp_Lt_Gt in Hgt.
      unfold Planner.ahead_of, Planner.is_ahead, Planner.ahead_value.
      rewrite <- Hw, Hs, He, Hv, Hver. rewrite Hgt.
      by rewrite Hp.
  - intros installed self release_log pyversion Hwf Hver.
    by apply plan_total.
  - intros installed self pin Hreq Hsite Hinst.
    unfold Planner.get_pkgs_to_install, Planner.packages.
    rewrite Hreq, Hsite. simpl. unfold Planner.row.
    rewrite lookup_singleton_eq, Hinst. reflexivity.
Qed.

Lemma planner_classification_witness :
  ∃ plan,
    Planner.get_pkgs_to_install
      {[ "django"%string := Some (Version.new "1.8") ]}
      {| vpy_id := 0; ssh_user := None; vpy_path := "/srv/venv"; vpy_user := None;
         requirements := [("django"%string, None)];
         site_packages := ["mysite"%string]; projects := [];
         host := {| host_id := 0; hostname := "web1"; reload_once := true |} |}
      {[ "django"%string :=
           PkgSpecList.mk "django" (Version.new "1.10")
             [(["py2"%string; "py3"%string], "Django-1.10-py2.py3-none-any.whl"%string)] ]}
      {| major := 2; minor := 7 |} = Ok plan
    ∧ "Django-1.10-py2.py3-none-any.whl"%string ∈ installables plan
    ∧ "mysite"%string ∈ missing plan.
Proof.
  destruct (proj1 (proj2 planner_classification)
    {[ "django"%string := Some (Version.new "1.8") ]}
    {| vpy_id := 0; ssh_user := None; vpy_path := "/srv/venv"; vpy_user := None;
       requirements := [("django"%string, None)];
       site_packages := ["mysite"%string]; projects := [];
       host := {| host_id := 0; hostname := "web1"; reload_once := true |} |}
    {[ "django"%string :=
         PkgSpecList.mk "django" (Version.new "1.10")
           [(["py2"%string; "py3"%string], "Django-1.10-py2.py3-none-any.whl"%string)] ]}
    {| major := 2; minor := 7 |})
    as (plan & Hplan).
  { intros pkg e _ Hlook. apply lookup_singleton_Some in Hlook as [_ <-].
    apply wheels_wf_forallb. reflexivity. }
  { intros pkg e w v _ Hlook _ Hv.
    apply lookup_singleton_Some in Hlook as [<- <-].
    rewrite lookup_singleton_eq in Hv. injection Hv as <-. split; reflexivity. }
  exists plan. split; [exact Hplan|].
  pose proof (proj1 planner_classification _ _ _ _ _ Hplan) as Hclass. split.
  - refine (proj1 (proj2 (Hclass "django"%string _)) _ _ _ _ _).
    + simpl. left.
    + apply lookup_singleton_eq.
    + reflexivity.
    + right. exists (Version.new "1.8"). split; [|reflexivity].
      by rewrite lookup_singleton_eq.
  - refine (proj1 (Hclass "mysite"%string _) _).
    + simpl. right. left.
    + left. by apply lookup_singleton_ne.
Defined.

(** C9. The pinned versions of the requirements do not reach the plan: two
    targets whose requirements have the same names, in the same order of
    iteration, and the same site packages get the same result from the planner
    for the same installed packages, repository and interpreter, whatever the
    versions the requirements pin; every name is looked up in the repository,
    which holds the latest release only. *)
Theorem planner_ignores_pins
    (installed : gmap string (option LooseVersion)) (release_log : PkgRepository)
    (pyversion : PyVersionInfo) (self1 self2 : VirtualenvConf) :
  map fst (requirements self1) = map fst (requirements self2) →
  site_packages self1 = site_packages self2 →
  Planner.get_pkgs_to_install installed self1 release_log pyversion
  = Planner.get_pkgs_to_install installed self2 release_log pyversion.
Proof.
  intros Hkeys Hsite. unfold Planner.get_pkgs_to_install, Planner.packages.
  by rewrite Hkeys, Hsite.
Qed.

Lemma planner_ignores_pins_witness :
  Planner.get_pkgs_to_install ∅
    {| vpy_id := 0; ssh_user := None; vpy_path := "/srv/venv"; vpy_user := None;
       requirements := [("mypkg"%string, Some (Version.new "1.0"))];
       site_packages := []; projects := [];
       host := {| host_id := 0; hostname := "web1"; reload_once := true |} |}
    {[ "mypkg"%string :=
         PkgSpecList.mk "mypkg" (Version.new "2.0")
           [(["py3"%string], "mypkg-2.0-py3-none-any.whl"%string)] ]}
    {| major := 3; minor := 7 |}
  = Planner.get_pkgs_to_install ∅
    {| vpy_id := 0; ssh_user := None; vpy_path := "/srv/venv"; vpy_user := None;
       requirements := [("mypkg"%string, None)];
       site_packages := []; projects := [];
       host := {| host_id := 0; hostname := "web1"; reload_once := true |} |}
    {[ "mypkg"%string :=
         PkgSpecList.mk "mypkg" (Version.new "2.0")
           [(["py3"%string], "mypkg-2.0-py3-none-any.whl"%string)] ]}
    {| major := 3; minor := 7 |}.
Proof. apply planner_ignores_pins; reflexivity. Defined.

(** A requirement pinned to 1.0 gets the wheel of the latest release, 2.0. *)
Example pinned_gets_latest :
  Planner.get_pkgs_to_install ∅
    {| vpy_id := 0; ssh_user := None; vpy_path := "/srv/venv"; vpy_user := None;
       requirements := [("mypkg"%string, Some (Version.new "1.0"))];
       site_packages := []; projects := [];
       host := {| host_id := 0; hostname := "web1"; reload_once := true |} |}
    {[ "mypkg"%string :=
         PkgSpecList.mk "mypkg" (Version.new "2.0")
           [(["py3"%string], "mypkg-2.0-py3-none-any.whl"%string)] ]}
    {| major := 3; minor := 7 |}
  = Ok {| installables := ["mypkg-2.0-py3-none-any.whl"%string];
          missing := []; ahead := [] |}.
Proof.
  unfold Planner.get_pkgs_to_install, Planner.packages. simpl. unfold Planner.row.
  rewrite lookup_singleton_eq, lookup_empty. reflexivity.
Qed.

Lemma row_one_list r :
  match Planner.installable_of r, Planner.missing_of r, Planner.ahead_of r with
  | None, None, None
  | Some _, None, None
  | None, Some _, None
  | None, None, Some _ => True
  | _, _, _ => False
  end.
Proof.
  pose proof (filters_exclusive r) as (Hi & Hm & Ha).
  unfold Planner.installable_of, Planner.missing_of, Planner.ahead_of,
    Planner.ahead_value.
  destruct (Planner.is_installable r) eqn:Ei.
  - destruct (Hi eq_refl) as [-> ->]. by destruct (r_wheel r).
  - destruct (Planner.is_missing r) eqn:Em.
    + by destruct (Hm eq_refl) as [_ ->].
    + destruct (Planner.is_ahead r); [|done].
      by destruct (r_wheel r), (r_version r).
Qed.

Lemma omap_cons {A B} (f : A → option B) x l :
  omap f (x :: l) = match f x with Some y => y :: omap f l | None => omap f l end.
Proof. reflexivity. Qed.

Lemma plan_lengths (rs : list Row) :
  length (omap Planner.installable_of rs) + length (omap Planner.missing_of rs)
  + length (omap Planner.ahead_of rs) ≤ length rs.
Proof.
  induction rs as [|r rs IH]; [simpl; lia|].
  rewrite !omap_cons.
  pose proof (row_one_list r) as H1.
  destruct (Planner.installable_of r), (Planner.missing_of r), (Planner.ahead_of r);
    simpl; try done; lia.
Qed.

Lemma plan_lengths_strict (rs : list Row) r :
  r ∈ rs →
  Planner.installable_of r = None → Planner.missing_of r = None →
  Planner.ahead_of r = None →
  length (omap Planner.installable_of rs) + length (omap Planner.missing_of rs)
  + length (omap Planner.ahead_of rs) < length rs.
Proof.
  intros Hin Hi Hm Ha.
  induction rs as [|r' rs IH]; [inversion Hin|].
  apply elem_of_cons in Hin as [<-|Hin]; rewrite !omap_cons.
  - rewrite Hi, Hm, Ha. pose proof (plan_lengths rs). simpl. lia.
  - specialize (IH Hin). pose proof (row_one_list r') as H1.
    destruct (Planner.installable_of r'), (Planner.missing_of r'), (Planner.ahead_of r');
      simpl; try done; lia.
Qed.

(** C10. The three lists of a plan exclude each other and do not cover every
    package. The plan is made of the rows of the package list, each row
    filtered into at most one of [installables], [missing] and [ahead]; no
    package named in [missing] has an entry in [ahead]; the three lists
    together are not longer than the package list. A package with a wheel
    selected and an installed version equal to the repository's passes none
    of the filters: it is not in [missing], has no entry in [ahead], adds no
    wheel to [installables], and the three lists together are then shorter
    than the package list. *)
Theorem plan_lists_exclusive_not_exhaustive
    (installed : gmap string (option LooseVersion)) (self : VirtualenvConf)
    (release_log : PkgRepository) (pyversion : PyVersionInfo) (plan : ToInstallResult) :
  Planner.get_pkgs_to_install installed self release_log pyversion = Ok plan →
  ∃ rs,
    Planner.rows installed release_log pyversion
      (map fst (requirements self) ++ site_packages self) = Ok rs
    ∧ installables plan = omap Planner.installable_of rs
    ∧ missing plan = omap Planner.missing_of rs
    ∧ ahead plan = omap Planner.ahead_of rs
    ∧ (∀ r, r ∈ rs →
         ¬ (Planner.is_installable r = true ∧ Planner.is_missing r = true)
         ∧ ¬ (Planner.is_installable r = true ∧ Planner.is_ahead r = true)
         ∧ ¬ (Planner.is_missing r = true ∧ Planner.is_ahead r = true))
    ∧ (∀ pkg a, pkg ∈ missing plan → a ∈ ahead plan → PkgSpec.pkg a ≠ pkg)
    ∧ length (installables plan) + length (missing plan) + length (ahead plan)
      ≤ length (map fst (requirements self) ++ site_packages self)
    ∧ (∀ pkg e w v,
         pkg ∈ map fst (requirements self) ++ site_packages self →
         release_log !! pkg = Some e →
         PkgSpecList.get_wheel e pyversion = Ok (Some w) →
         (installed !! pkg ≫= id) = Some v →
         Version.cmp (PkgSpecList.version e) v = Eq →
         (∀ r, r ∈ rs → r_pkg r = pkg →
            Planner.installable_of r = None ∧ Planner.missing_of r = None
            ∧ Planner.ahead_of r = None)
         ∧ (pkg ∉ missing plan)
         ∧ (∀ a, a ∈ ahead plan → PkgSpec.pkg a ≠ pkg)
         ∧ length (installables plan) + length (missing plan) + length (ahead plan)
           < length (map fst (requirements self) ++ site_packages self)).
Proof.
  intros Hplan. destruct (plan_returned _ _ _ _ _ Hplan) as (rs & Hrs & ->).
  unfold Planner.packages in Hrs. simpl. exists rs.
  assert (∀ r pkg, r ∈ rs → r_pkg r = pkg →
          Planner.row installed release_log pyversion pkg = Ok r) as Hrow.
  { intros r pkg Hr <-. by destruct (pkg_of_rows _ _ _ _ _ r Hrs Hr). }
  assert (∀ pkg, pkg ∈ omap Planner.missing_of rs →
          ∃ r, r ∈ rs ∧ r_pkg r = pkg ∧ Planner.is_missing r = true) as Hmiss.
  { intros pkg (r & Hr & Hm)%list_elem_of_omap. exists r.
    unfold Planner.missing_of in Hm. destruct (Planner.is_missing r); [|discriminate].
    injection Hm as <-. done. }
  assert (∀ a, a ∈ omap Planner.ahead_of rs →
          ∃ r, r ∈ rs ∧ r_pkg r = PkgSpec.pkg a ∧ Planner.is_ahead r = true) as Hahead.
  { intros a (r & Hr & Ha)%list_elem_of_omap. exists r.
    unfold Planner.ahead_of, Planner.ahead_value in Ha.
    destruct (Planner.is_ahead r); [|discriminate].
    destruct (r_wheel r), (r_version r); try discriminate.
    injection Ha as <-. done. }
  assert (∀ pkg e w v,
          release_log !! pkg = Some e →
          PkgSpecList.get_wheel e pyversion = Ok (Some w) →
          (installed !! pkg ≫= id) = Some v →
          Version.cmp (PkgSpecList.version e) v = Eq →
          ∀ r, r ∈ rs → r_pkg r = pkg →
          Planner.is_installable r = false ∧ Planner.is_missing r = false
          ∧ Planner.is_ahead r = false) as Hsame.
  { intros pkg e w v He Hget Hv Heq r Hr Hp.
    destruct (row_fields _ _ _ _ _ (Hrow r pkg Hr Hp)) as (_ & Hs & Hver & Hw).
    rewrite He, Hget in Hw. injection Hw as Hw.
    unfold Planner.is_installable, Planner.is_missing, Planner.is_ahead.
    rewrite <- Hw, Hs, He, Hver, Hv. by rewrite Heq. }
  split; [done|]. split; [done|]. split; [done|]. split; [done|].
  split; [|split; [|split; [|]]].
  - intros r Hr. pose proof (filters_exclusive r) as (Hi & Hm & Ha).
    repeat split.
    + intros [Ei Em]. destruct (Hi Ei). congruence.
    + intros [Ei Ea]. destruct (Hi Ei). congruence.
    + intros [Em Ea]. destruct (Hm Em). congruence.
  - intros pkg a (r & Hr & Hp & Hm)%Hmiss (r' & Hr' & Hp' & Ha)%Hahead Heq.
    assert (r' = r) as ->.
    { pose proof (Hrow r pkg Hr Hp) as E1. rewrite Heq in Hp'.
      pose proof (Hrow r' pkg Hr' Hp') as E2. congruence. }
    destruct (filters_exclusive r) as (_ & Hx & _). destruct (Hx Hm). congruence.
  - rewrite <- (rows_length _ _ _ _ _ Hrs). apply plan_lengths.
  - intros pkg e w v Hpkg He Hget Hv Heq.
    pose proof (Hsame pkg e w v He Hget Hv Heq) as Hnone.
    split; [|split; [|split]].
    + intros r Hr Hp. destruct (Hnone r Hr Hp) as (Hi & Hm & Ha).
      unfold Planner.installable_of, Planner.missing_of, Planner.ahead_of.
      by rewrite Hi, Hm, Ha.
    + intros (r & Hr & Hp & Hm)%Hmiss.
      destruct (Hnone r Hr Hp) as (_ & Hm' & _). congruence.
    + intros a (r & Hr & Hp & Ha)%Hahead Heqa. rewrite Heqa in Hp.
      destruct (Hnone r Hr Hp) as (_ & _ & Ha'). congruence.
    + destruct (rows_of_pkg _ _ _ _ _ pkg Hrs Hpkg) as (r & Hr & Hrw).
      destruct (row_fields _ _ _ _ _ Hrw) as (Hp & _).
      destruct (Hnone r Hr Hp) as (Hi & Hm & Ha).
      rewrite <- (rows_length _ _ _ _ _ Hrs).
      apply (plan_lengths_strict rs r Hr).
      * unfold Planner.installable_of. by rewrite Hi.
      * unfold Planner.missing_of. by rewrite Hm.
      * unfold Planner.ahead_of. by rewrite Ha.
Qed.

Lemma plan_lists_exclusive_not_exhaustive_witness :
  ∃ rs,
    Planner.rows {[ "mypkg"%string := Some (Version.new "1.0") ]}
      {[ "mypkg"%string :=
           PkgSpecList.mk "mypkg" (Version.new "1.0")
             [(["py3"%string], "mypkg-1.0-py3-none-any.whl"%string)] ]}
      {| major := 3; minor := 7 |} ["mypkg"%string] = Ok rs
    ∧ omap Planner.installable_of rs = []
    ∧ omap Planner.missing_of rs = []
    ∧ omap Planner.ahead_of rs = [].
Proof.
  destruct (plan_lists_exclusive_not_exhaustive
    {[ "mypkg"%string := Some (Version.new "1.0") ]}
    {| vpy_id := 0; ssh_user := None; vpy_path := "/srv/venv"; vpy_user := None;
       requirements := [("mypkg"%string, None)];
       site_packages := []; projects := [];
       host := {| host_id := 0; hostname := "web1"; reload_once := true |} |}
    {[ "mypkg"%string :=
         PkgSpecList.mk "mypkg" (Version.new "1.0")
           [(["py3"%string], "mypkg-1.0-py3-none-any.whl"%string)] ]}
    {| major := 3; minor := 7 |}
    {| installables := []; missing := []; ahead := [] |})
    as (rs & Hrs & Hi & Hm & Ha & _).
  { vm_compute. reflexivity. }
  exists rs. simpl in *. by rewrite <- Hi, <- Hm, <- Ha.
Defined.

(** ** The tasks: what a computation adds to the trace *)

Lemma continues_refl s : continues s s [].
Proof. split; [by rewrite app_nil_r | done]. Qed.

Lemma continues_trans s1 s2 s3 evs1 evs2 :
  continues s1 s2 evs1 → continues s2 s3 evs2 → continues s1 s3 (evs1 ++ evs2).
Proof.
  intros [Ht1 Hu1] [Ht2 Hu2]. split; [|auto].
  by rewrite Ht2, Ht1, app_assoc.
Qed.

Section appends.

Context {A B : Type} (P : Event → Prop).

Lemma appends_ret (a : A) : appends P (mret a).
Proof. intros s. exists []. split; [apply continues_refl | constructor]. Qed.

Lemma appends_raise e : appends P (raise e : M A).
Proof. intros s. exists []. split; [apply continues_refl | constructor]. Qed.

Lemma appends_lift (r : result A) : appends P (lift r).
Proof. intros s. exists []. split; [apply continues_refl | constructor]. Qed.

Lemma appends_bind (m : M A) (k : A → M B) :
  appends P m → (∀ a, appends P (k a)) → appends P (m ≫= k).
Proof.
  intros Hm Hk s. destruct (Hm s) as (evs1 & Hc1 & HP1).
  unfold mbind, M_bind. destruct (m s) as [[a|e] s1] eqn:Hms; simpl in *.
  - destruct (Hk a s1) as (evs2 & Hc2 & HP2).
    exists (evs1 ++ evs2). split; [by eapply continues_trans | by apply Forall_app].
  - by exists evs1.
Qed.

Lemma appends_weaken (Q : Event → Prop) (m : M A) :
  (∀ e, P e → Q e) → appends P m → appends Q m.
Proof.
  intros HPQ Hm s. destruct (Hm s) as (evs & Hc & HP).
  exists evs. split; [done|]. eapply Forall_impl; eauto.
Qed.

End appends.

Lemma appends_emit (P : Event → Prop) e : P e → appends P (emit e).
Proof.
  intros HP s. exists [e]. split; [|by repeat constructor]. by split.
Qed.

Lemma appends_history P : appends P history.
Proof. intros s. exists []. split; [apply continues_refl | constructor]. Qed.

Lemma appends_get_latest_pkg P : appends P get_latest_pkg.
Proof. intros s. exists []. split; [apply continues_refl | constructor]. Qed.

Lemma appends_set_latest_pkg P repo : appends P (set_latest_pkg repo).
Proof.
  intros s. exists []. split; [|constructor]. split; [by rewrite app_nil_r | done].
Qed.

Lemma appends_get_updated_vpys P : appends P get_updated_vpys.
Proof. intros s. exists []. split; [apply continues_refl | constructor]. Qed.

Lemma appends_except_Skip P body : appends P body → appends P (except_Skip body).
Proof.
  intros Hb s. destruct (Hb s) as (evs & Hc & HP). exists evs.
  unfold except_Skip. by destruct (body s) as [[[]|[]] s1].
Qed.

Lemma appends_for_each {A} P (l : list A) body :
  (∀ x, x ∈ l → appends P (body x)) → appends P (for_each l body).
Proof.
  induction l as [|x l IH]; intros Hb; simpl.
  - apply appends_ret.
  - apply appends_bind; [apply Hb; left|].
    intros _. apply IH. intros y Hy. apply Hb. by right.
Qed.

Lemma appends_add_updated P vpy : appends P (Deploy.add_updated vpy).
Proof.
  intros s. exists []. split; [|constructor].
  unfold Deploy.add_updated. munfold. simpl.
  destruct (existsb _ _); simpl; split; try (by rewrite app_nil_r); try done.
  intros u Hu. apply elem_of_app. by left.
Qed.

(** ** The steps of task_deploy *)

Lemma after_nil s : after s [] = s.
Proof. destruct s. unfold after. simpl. by rewrite app_nil_r. Qed.

Lemma after_app s evs1 evs2 : after (after s evs1) evs2 = after s (evs1 ++ evs2).
Proof. unfold after. simpl. by rewrite app_assoc. Qed.

Lemma run_eq world vpy cmd s :
  Vpy.run world vpy cmd s
  = (Ok (succeeded world (trace s) (EvRun vpy cmd)), after s [EvRun vpy cmd]).
Proof. reflexivity. Qed.

Lemma put_eq world vpy l r s :
  Deploy.put world vpy l r s
  = (Ok (succeeded world (trace s) (EvPut vpy l r)), after s [EvPut vpy l r]).
Proof. reflexivity. Qed.

Lemma add_install_eq vpy wheel s :
  ReleaseLog.add_install vpy wheel s
  = (Ok tt, after s [EvLog (LInstall (Vpy.unicode vpy) wheel)]).
Proof. reflexivity. Qed.

(** [abort] appends one [aborting] line naming the target and raises
    [SystemExit]. *)
Lemma abort_eq vpy msg s :
  ReleaseLog.abort vpy msg s
  = (Raise SystemExit, after s [EvLog (LAborting (Vpy.unicode vpy) msg)]).
Proof. reflexivity. Qed.

Lemma bind_eq {A B} (m : M A) (k : A → M B) s :
  (m ≫= k) s = match m s with
               | (Ok a, s') => k a s'
               | (Raise e, s') => (Raise e, s')
               end.
Proof. reflexivity. Qed.

(** A loop stops at the first round that raises. *)
Lemma for_each_raise {A} (body : A → M unit) x l s e s' :
  body x s = (Raise e, s') → for_each (x :: l) body s = (Raise e, s').
Proof. intros Hb. simpl. rewrite bind_eq. by rewrite Hb. Qed.

Lemma for_each_app {A} (body : A → M unit) l1 l2 s :
  for_each (l1 ++ l2) body s
  = match for_each l1 body s with
    | (Ok _, s') => for_each l2 body s'
    | (Raise e, s') => (Raise e, s')
    end.
Proof.
  revert s. induction l1 as [|x l1 IH]; intros s; simpl; [done|].
  rewrite !bind_eq. destruct (body x s) as [[[]|e] s1]; [apply IH | done].
Qed.

Ltac mstep :=
  repeat first
    [ rewrite bind_eq | rewrite run_eq | rewrite put_eq
    | rewrite add_install_eq | rewrite abort_eq | progress simpl ].

Lemma install_loop_ok self world vpy to_install rest : ∀ i s s',
  Deploy.install_loop self world vpy to_install i rest s = (Ok tt, s') →
  s' = after s (flat_map (Spec.install_events self vpy) rest).
Proof.
  induction rest as [|wheel rest IH]; intros i s s'.
  - intros [= <-]. simpl. by rewrite after_nil.
  - change (flat_map (Spec.install_events self vpy) (wheel :: rest))
      with (Spec.install_events self vpy wheel
            ++ flat_map (Spec.install_events self vpy) rest).
    unfold Spec.install_events at 1.
    cbn [Deploy.install_loop].
    destruct (String.eqb (hostname (host vpy)) "localhost").
    + mstep. destruct (succeeded world _ _); mstep.
      * intros H%IH. by rewrite H, !after_app.
      * destruct (Deploy.join_wheel_attr _); mstep; discriminate.
    + mstep. destruct (succeeded world _ _); mstep; [|discriminate].
      destruct (succeeded world _ _); mstep.
      * intros H%IH. by rewrite H, !after_app.
      * destruct (Deploy.join_wheel_attr _); mstep; discriminate.
Qed.

Lemma for_each_after {A} (body : A → M unit) (f : A → list Event) l : ∀ s,
  (∀ x s, body x s = (Ok tt, after s (f x))) →
  for_each l body s = (Ok tt, after s (flat_map f l)).
Proof.
  induction l as [|x l IH]; intros s Hb; simpl.
  - by rewrite after_nil.
  - rewrite bind_eq, Hb, IH by done. by rewrite after_app.
Qed.

Lemma install_lines_app evs1 evs2 :
  Spec.install_lines (evs1 ++ evs2) = Spec.install_lines evs1 ++ Spec.install_lines evs2.
Proof. apply omap_app. Qed.

Lemma install_lines_none evs :
  Forall (fun e => ¬ Spec.is_install_line e) evs → Spec.install_lines evs = [].
Proof.
  induction 1 as [|e evs He _ IH]; [done|].
  unfold Spec.install_lines in *. rewrite omap_cons, IH.
  destruct e as [| | | |[]]; simpl in *; tauto.
Qed.

Lemma install_lines_install_events self vpy ws :
  Spec.install_lines (flat_map (Spec.install_events self vpy) ws)
  = map (fun w => (Vpy.unicode vpy, w)) ws.
Proof.
  induction ws as [|w ws IH]; [done|].
  simpl. rewrite install_lines_app, IH. unfold Spec.install_events.
  by destruct (String.eqb _ _).
Qed.

Lemma install_lines_add_install vpy ws :
  Spec.install_lines
    (flat_map (fun w => [EvLog (LInstall (Vpy.unicode vpy) w)]) ws)
  = map (fun w => (Vpy.unicode vpy, w)) ws.
Proof.
  induction ws as [|w ws IH]; [done|].
  change (Spec.install_lines
            ([EvLog (LInstall (Vpy.unicode vpy) w)]
             ++ flat_map (fun w => [EvLog (LInstall (Vpy.unicode vpy) w)]) ws)
          = (Vpy.unicode vpy, w) :: map (fun w => (Vpy.unicode vpy, w)) ws).
  by rewrite install_lines_app, IH.
Qed.

Lemma appends_run P world vpy cmd :
  P (EvRun vpy cmd) → appends P (Vpy.run world vpy cmd).
Proof.
  intros HP. unfold Vpy.run.
  apply appends_bind; [apply appends_history | intros h].
  apply appends_bind; [by apply appends_emit | intros _]. apply appends_ret.
Qed.

Lemma appends_log_error P vpy msg :
  P (EvLog (LError (Vpy.unicode vpy) msg)) →
  P (EvWarn (Lines._error_message "error" (Vpy.unicode vpy) msg)) →
  appends P (ReleaseLog.log_error vpy msg).
Proof.
  intros H1 H2. unfold ReleaseLog.log_error, warn.
  apply appends_bind; [by apply appends_emit | intros _]. by apply appends_emit.
Qed.

Lemma appends_abort P vpy msg :
  P (EvLog (LAborting (Vpy.unicode vpy) msg)) →
  appends P (ReleaseLog.abort vpy msg).
Proof.
  intros H1. unfold ReleaseLog.abort.
  apply appends_bind; [by apply appends_emit | intros _]. apply appends_raise.
Qed.

Lemma migrate_loop_no_install world vpy to_install :
  appends (fun e => ¬ Spec.is_install_line e) (Deploy.migrate_loop world vpy to_install).
Proof.
  unfold Deploy.migrate_loop. apply appends_for_each. intros proj _.
  destruct (migrate proj); [|apply appends_ret].
  apply appends_bind; [apply appends_run; simpl; tauto | intros r].
  destruct r; [apply appends_ret|].
  apply appends_bind; [apply appends_lift | intros msg].
  apply appends_log_error; simpl; tauto.
Qed.

Lemma add_updated_trace vpy s :
  ∃ s1, Deploy.add_updated vpy s = (Ok tt, s1) ∧ trace s1 = trace s
        ∧ latest_pkg s1 = latest_pkg s.
Proof.
  unfold Deploy.add_updated. munfold. simpl.
  destruct (existsb _ _); eexists; split; reflexivity || done.
Qed.

(** A target that is updated to the end gets every install line twice: once
    after each install, once more after the migrations. *)
Lemma update_install_lines self world vpy to_install s s' :
  Deploy.update self world vpy to_install s = (Ok tt, s') →
  Spec.install_lines (trace s')
  = Spec.install_lines (trace s)
    ++ map (fun w => (Vpy.unicode vpy, w)) to_install
    ++ map (fun w => (Vpy.unicode vpy, w)) to_install.
Proof.
  unfold Deploy.update.
  destruct (add_updated_trace vpy s) as (s1 & Hadd & Ht1 & _).
  rewrite bind_eq, Hadd. mstep.
  destruct (succeeded world _ _); mstep; [|discriminate].
  destruct (Deploy.install_loop _ _ _ _ _ _ _) as [[[]|e] s2] eqn:Hloop;
    mstep; [|discriminate].
  apply install_loop_ok in Hloop.
  destruct (migrate_loop_no_install world vpy to_install s2) as (evs & [Hc _] & Hno).
  destruct (Deploy.migrate_loop _ _ _ s2) as [[[]|e] s3]; mstep; [|discriminate].
  simpl in Hc.
  rewrite (for_each_after (fun wheel => ReleaseLog.add_install vpy wheel)
             (fun w => [EvLog (LInstall (Vpy.unicode vpy) w)]) to_install s3
             (fun x s => add_install_eq vpy x s)).
  intros [= <-]. simpl. rewrite Hc, Hloop. simpl.
  rewrite !install_lines_app, Ht1, install_lines_install_events,
    (install_lines_none evs Hno), install_lines_add_install.
  change (Spec.install_lines [EvRun vpy (CmdMkdir (Vpy.wheels vpy))]) with (@nil (string * string)).
  by rewrite !app_nil_r, <- app_assoc.
Qed.

Lemma deploy_vpy_ok self world vpy s s' :
  Deploy.deploy_vpy self world vpy s = (Ok tt, s') →
  ∃ pv installed plan s1,
    py_version world (trace s) vpy = Ok pv
    ∧ installed_pkgs world (trace s ++ [EvRun vpy CmdPyVersion]) vpy = Ok installed
    ∧ Planner.get_pkgs_to_install installed vpy (latest_pkg s) pv = Ok plan
    ∧ missing plan = []
    ∧ installables plan ≠ []
    ∧ Spec.install_lines (trace s1) = Spec.install_lines (trace s)
    ∧ Deploy.update self world vpy (installables plan) s1 = (Ok tt, s').
Proof.
  unfold Deploy.deploy_vpy, Vpy.get_py_version, Vpy.get_pkgs_to_install,
    Vpy.get_installed_pkgs, Deploy.prompt.
  munfold. simpl.
  destruct (py_version world (trace s) vpy) as [pv|] eqn:Hpv; simpl; [|discriminate].
  destruct (installed_pkgs world _ vpy) as [installed|] eqn:Hinst; simpl; [|discriminate].
  destruct (Planner.get_pkgs_to_install installed vpy (latest_pkg s) pv)
    as [plan|] eqn:Hplan; simpl; [|discriminate].
  destruct (ahead plan); simpl;
    (destruct (missing plan) eqn:Hmiss; simpl; [|by intros [=]]);
    (destruct (installables plan) eqn:Hinstall; simpl; [by intros [=]|]);
    (destruct (_ || _); [|by intros [=]]);
    intros Hupd;
    match type of Hupd with
    | Deploy.update _ _ _ _ ?s1 = _ => exists pv, installed, plan, s1
    end;
    (split; [done|]); (split; [done|]); (split; [done|]); (split; [done|]);
    (split; [by rewrite Hinstall|]); (split; [|by rewrite Hinstall]);
    simpl; rewrite !install_lines_app; simpl; by rewrite !app_nil_r.
Qed.

(** C5 (as amended). The install entries of a target. When the install loop
    of a target runs to its end over the installable wheels w1..wn, it has
    issued the install command once for each wheel, in the order of the
    plan, each preceded by the transfer of the wheel for a remote target and
    followed at once by one install line naming the target and the wheel.
    When the whole update of the target runs to its end, the wheels are those
    of the plan computed for the target and every wheel has got a second
    install line after the migrations, all in the order of the plan: 2n
    install lines for the target. *)
Theorem install_entries_per_wheel
    (self : LocalConf) (world : World) (vpy : VirtualenvConf) (s s' : State) :
  (∀ to_install,
     Deploy.install_loop self world vpy to_install 0 to_install s = (Ok tt, s') →
     trace s' = trace s ++ flat_map (Spec.install_events self vpy) to_install
     ∧ Spec.install_lines (trace s')
       = Spec.install_lines (trace s)
         ++ map (fun w => (Vpy.unicode vpy, w)) to_install)
  ∧ (Deploy.deploy_vpy self world vpy s = (Ok tt, s') →
     ∃ pv installed plan,
       py_version world (trace s) vpy = Ok pv
       ∧ installed_pkgs world (trace s ++ [EvRun vpy CmdPyVersion]) vpy = Ok installed
       ∧ Planner.get_pkgs_to_install installed vpy (latest_pkg s) pv = Ok plan
       ∧ Spec.install_lines (trace s')
         = Spec.install_lines (trace s)
           ++ map (fun w => (Vpy.unicode vpy, w)) (installables plan)
           ++ map (fun w => (Vpy.unicode vpy, w)) (installables plan)).
Proof.
  split.
  - intros to_install Hloop%install_loop_ok. subst s'. simpl. split; [done|].
    by rewrite install_lines_app, install_lines_install_events.
  - intros (pv & installed & plan & s1 & Hpv & Hinst & Hplan & _ & _ & Hs1 & Hupd)
      %deploy_vpy_ok.
    exists pv, installed, plan. repeat split; try done.
    rewrite (update_install_lines _ _ _ _ _ _ Hupd). by rewrite Hs1.
Qed.

Lemma install_entries_per_wheel_witness :
  Spec.install_lines
    (trace (Deploy.deploy_vpy (Ex.conf [Ex.A]) (Ex.world Ex.nothing_fails) Ex.A
              (Ex.start Ex.repo_ab ∅)).2)
  = [("web1:/srv/a"%string, Ex.wheel_a); ("web1:/srv/a"%string, Ex.wheel_a)].
Proof.
  destruct (proj2 (install_entries_per_wheel (Ex.conf [Ex.A])
                     (Ex.world Ex.nothing_fails) Ex.A (Ex.start Ex.repo_ab ∅)
                     (Deploy.deploy_vpy (Ex.conf [Ex.A]) (Ex.world Ex.nothing_fails)
                        Ex.A (Ex.start Ex.repo_ab ∅)).2))
    as (pv & installed & plan & Hpv & Hinst & Hplan & Hlines).
  { vm_compute. reflexivity. }
  injection Hpv as <-. injection Hinst as <-.
  vm_compute in Hplan. injection Hplan as <-.
  exact Hlines.
Defined.

(** The claim of one install line for each installed wheel fails on a target
    with one installable wheel on which nothing fails: the wheel is logged
    twice. *)
Lemma install_logged_twice :
  let r := Deploy.deploy_vpy (Ex.conf [Ex.A]) (Ex.world Ex.nothing_fails) Ex.A
             (Ex.start Ex.repo_ab ∅) in
  r.1 = Ok tt
  ∧ Planner.get_pkgs_to_install ∅ Ex.A Ex.repo_ab {| major := 3; minor := 7 |}
    = Ok {| installables := [Ex.wheel_a]; missing := []; ahead := [] |}
  ∧ Spec.install_lines (trace r.2)
    = [("web1:/srv/a"%string, Ex.wheel_a); ("web1:/srv/a"%string, Ex.wheel_a)]
  ∧ length (Spec.install_lines (trace r.2)) ≠ length [Ex.wheel_a].
Proof. vm_compute. repeat split; congruence. Qed.

(** ** Fatal failures *)

(** The three calls of [abort] in [task_deploy]: a failed [mkdir], a failed
    [put] and the failed install of the first wheel append one [aborting]
    line for the target and raise [SystemExit]. *)
Lemma mkdir_failure_aborts self world vpy to_install s :
  ∃ s1, Deploy.add_updated vpy s = (Ok tt, s1) ∧
    (succeeded world (trace s1) (EvRun vpy (CmdMkdir (Vpy.wheels vpy))) = false →
     Deploy.update self world vpy to_install s
     = (Raise SystemExit,
        after s1 [EvRun vpy (CmdMkdir (Vpy.wheels vpy));
                  EvLog (LAborting (Vpy.unicode vpy) "cannot create wheel directory")])).
Proof.
  destruct (add_updated_trace vpy s) as (s1 & Hadd & _).
  exists s1. split; [done|]. intros Hfail.
  unfold Deploy.update. rewrite bind_eq, Hadd. mstep. rewrite Hfail. mstep.
  by rewrite after_app.
Qed.

Lemma put_failure_aborts self world vpy to_install i wheel rest s :
  String.eqb (hostname (host vpy)) "localhost" = false →
  succeeded world (trace s)
    (EvPut vpy (Py.path_join (wheels self) wheel) (Py.path_join (Vpy.wheels vpy) wheel))
  = false →
  Deploy.install_loop self world vpy to_install i (wheel :: rest) s
  = (Raise SystemExit,
     after s [EvPut vpy (Py.path_join (wheels self) wheel)
                (Py.path_join (Vpy.wheels vpy) wheel);
              EvLog (LAborting (Vpy.unicode vpy) ("could not put " +:+ wheel))]).
Proof.
  intros Hremote Hfail. cbn [Deploy.install_loop]. rewrite Hremote.
  mstep. rewrite Hfail. mstep. by rewrite after_app.
Qed.

(** The failed install of a later wheel raises [AttributeError] while the
    message is put together: [abort] is not reached and no line is written. *)
Lemma later_install_failure_raises self world vpy to_install i wheel rest s :
  String.eqb (hostname (host vpy)) "localhost" = true →
  take i to_install ≠ [] →
  succeeded world (trace s)
    (EvRun vpy (CmdInstall (Py.path_join (wheels self) wheel))) = false →
  Deploy.install_loop self world vpy to_install i (wheel :: rest) s
  = (Raise AttributeError,
     after s [EvRun vpy (CmdInstall (Py.path_join (wheels self) wheel))]).
Proof.
  intros Hlocal Htake Hfail. cbn [Deploy.install_loop]. rewrite Hlocal.
  mstep. rewrite Hfail. mstep.
  destruct (take i to_install); [done|]. reflexivity.
Qed.

(** An exception other than [Skip] raised for a target ends the run at once:
    no reload for this round, no later target. *)
Lemma deploy_loop_stops self world vpys vpy rest s e s1 :
  Deploy.deploy_vpy self world vpy s = (Raise e, s1) →
  e ≠ Skip →
  Deploy.deploy_loop self world vpys (vpy :: rest) s = (Raise e, s1).
Proof.
  intros Hvpy Hne. unfold Deploy.deploy_loop. apply for_each_raise.
  rewrite bind_eq. unfold except_Skip. rewrite Hvpy. by destruct e.
Qed.

(** C4. The claim fails on the code for an install that fails after an
    earlier wheel of the same target was installed. Target /srv/ab on web1
    needs the wheels of a and b; the install of a succeeds, the install of b
    fails: the run ends with [AttributeError], the release log has the install
    line of a and no aborting line, and target /srv/c is not looked at. *)
Theorem later_install_failure_leaves_no_aborting_line :
  let r := Deploy.task_deploy (Ex.conf [Ex.AB; Ex.C]) (Ex.world Ex.install_b_fails) ""
             (Ex.start Ex.repo_ab ∅) in
  r.1 = Raise AttributeError
  ∧ trace r.2
    = [EvRun Ex.AB CmdPyVersion; EvRun Ex.AB CmdFreeze; EvPrompt Ex.AB;
       EvRun Ex.AB (CmdMkdir "/srv/ab/wheels");
       EvPut Ex.AB "/home/me/wheels/a-1.0-py3-none-any.whl"
         "/srv/ab/wheels/a-1.0-py3-none-any.whl";
       EvRun Ex.AB (CmdInstall "/srv/ab/wheels/a-1.0-py3-none-any.whl");
       EvLog (LInstall "web1:/srv/ab" Ex.wheel_a);
       EvPut Ex.AB "/home/me/wheels/b-1.0-py3-none-any.whl"
         "/srv/ab/wheels/b-1.0-py3-none-any.whl";
       EvRun Ex.AB (CmdInstall "/srv/ab/wheels/b-1.0-py3-none-any.whl")]
  ∧ Spec.aborting_lines (trace r.2) = [].
Proof. vm_compute. repeat split. Qed.

Lemma first_install_failure_aborts self world vpy to_install wheel rest s :
  String.eqb (hostname (host vpy)) "localhost" = true →
  succeeded world (trace s)
    (EvRun vpy (CmdInstall (Py.path_join (wheels self) wheel))) = false →
  Deploy.install_loop self world vpy to_install 0 (wheel :: rest) s
  = (Raise SystemExit,
     after s [EvRun vpy (CmdInstall (Py.path_join (wheels self) wheel));
              EvLog (LAborting (Vpy.unicode vpy)
                       ("could not install " +:+ wheel +:+ " after installing " +:+ ""))]).
Proof.
  intros Hlocal Hfail. cbn [Deploy.install_loop]. rewrite Hlocal.
  mstep. rewrite Hfail. mstep. unfold after. simpl. by rewrite <- app_assoc.
Qed.

(** ** Reloads *)

Create HintDb appends discriminated.

Ltac appends_step :=
  lazymatch goal with
  | |- appends _ (mret _) => apply appends_ret
  | |- appends _ (raise _) => apply appends_raise
  | |- appends _ (lift _) => apply appends_lift
  | |- appends _ history => apply appends_history
  | |- appends _ get_latest_pkg => apply appends_get_latest_pkg
  | |- appends _ get_updated_vpys => apply appends_get_updated_vpys
  | |- appends _ (Deploy.add_updated _) => apply appends_add_updated
  | |- appends _ (emit _) => apply appends_emit; simpl; tauto
  | |- appends _ (_ ≫= _) => apply appends_bind; [|intros ?]
  | |- appends _ (for_each _ _) => apply appends_for_each; intros ? _
  | |- appends _ (if ?b then _ else _) => destruct b
  | |- appends _ (match ?x with _ => _ end) => destruct x
  | |- appends _ _ => solve [auto with appends nocore]
  end.

Section no_reload.

Variables (self : LocalConf) (world : World) (vpy : VirtualenvConf).

Abbreviation quiet := (fun e : Event => ¬ Spec.is_reload e).

Lemma install_loop_quiet to_install rest : ∀ i,
  appends quiet (Deploy.install_loop self world vpy to_install i rest).
Proof.
  induction rest as [|wheel rest IH]; intros i; cbn [Deploy.install_loop].
  - apply appends_ret.
  - unfold Deploy.put, Vpy.run, ReleaseLog.abort, ReleaseLog.add_install.
    repeat appends_step.
Qed.

#[local] Hint Resolve install_loop_quiet : appends.

Lemma update_quiet to_install :
  appends quiet (Deploy.update self world vpy to_install).
Proof.
  unfold Deploy.update, Deploy.migrate_loop, Vpy.run, ReleaseLog.abort,
    ReleaseLog.log_error, ReleaseLog.add_install, warn.
  repeat appends_step.
Qed.

#[local] Hint Resolve update_quiet : appends.

(** The body of the [try] issues no reload. *)
Lemma deploy_vpy_quiet : appends quiet (Deploy.deploy_vpy self world vpy).
Proof.
  unfold Deploy.deploy_vpy, Vpy.get_py_version, Vpy.get_pkgs_to_install,
    Vpy.get_installed_pkgs, Deploy.prompt, warn.
  repeat appends_step.
Qed.

End no_reload.

Lemma reloads_app evs1 evs2 :
  Spec.reloads (evs1 ++ evs2) = Spec.reloads evs1 ++ Spec.reloads evs2.
Proof. apply omap_app. Qed.

Lemma reloads_quiet evs :
  Forall (fun e => ¬ Spec.is_reload e) evs → Spec.reloads evs = [].
Proof.
  induction 1 as [|e evs He _ IH]; [done|].
  change (e :: evs) with ([e] ++ evs). rewrite reloads_app, IH.
  destruct e as [? []| | | |]; simpl in *; tauto.
Qed.

Lemma reloads_reload_events h vs :
  Spec.reloads (Spec.reload_events h vs)
  = map (fun v => (h, v)) (if reload_once h then take 1 vs else vs).
Proof.
  unfold Spec.reload_events.
  induction (if reload_once h then take 1 vs else vs) as [|v l IH]; [done|].
  change (Spec.reloads ([EvRun v (CmdReload h)]
                        ++ map (fun v => EvRun v (CmdReload h)) l)
          = (h, v) :: map (fun v => (h, v)) l).
  by rewrite reloads_app, IH.
Qed.

Lemma flat_map_singleton {A B} (g : A → B) l :
  flat_map (fun x => [g x]) l = map g l.
Proof. induction l; simpl; congruence. Qed.

Lemma reload_webservices_eq world h vpys s :
  Host.reload_webservices world h vpys s = (Ok tt, after s (Spec.reload_events h vpys)).
Proof.
  unfold Host.reload_webservices, Spec.reload_events.
  rewrite (for_each_after _ (fun v => [EvRun v (CmdReload h)])).
  - by rewrite flat_map_singleton.
  - intros v s1. by mstep.
Qed.

Lemma reload_updated_eq world vpys s :
  Deploy.reload_updated world vpys s
  = (Ok tt,
     after s (flat_map
                (fun h => Spec.reload_events h
                            (filter (fun v => Host.same (host v) h = true) vpys))
                (Deploy.reload_order world s))).
Proof.
  unfold Deploy.reload_updated, Deploy.reload_order. rewrite !bind_eq. simpl.
  apply for_each_after. intros h s1. apply reload_webservices_eq.
Qed.

(** The iteration of a set goes through its elements, whatever the order. *)
Lemma insert_by_elem rank h hs x :
  x ∈ Deploy.insert_by rank h hs ↔ x = h ∨ x ∈ hs.
Proof.
  induction hs as [|y hs IH]; simpl.
  - rewrite elem_of_cons, elem_of_nil. tauto.
  - destruct (rank h <? rank y).
    + by rewrite elem_of_cons.
    + rewrite !elem_of_cons, IH. tauto.
Qed.

Lemma set_order_elem rank hs x :
  x ∈ Deploy.set_order rank hs ↔ x ∈ hs.
Proof.
  unfold Deploy.set_order. induction hs as [|h hs IH]; simpl; [done|].
  by rewrite insert_by_elem, elem_of_cons, IH.
Qed.

Lemma insert_by_length rank h hs :
  length (Deploy.insert_by rank h hs) = S (length hs).
Proof.
  induction hs as [|y hs IH]; simpl; [done|].
  destruct (rank h <? rank y); simpl; [done | by rewrite IH].
Qed.

Lemma set_order_length rank hs :
  length (Deploy.set_order rank hs) = length hs.
Proof.
  unfold Deploy.set_order. induction hs as [|h hs IH]; simpl; [done|].
  by rewrite insert_by_length, IH.
Qed.

Lemma hosts_of_updated upd : ∀ seen h,
  h ∈ Deploy.hosts_of seen upd → ∃ u, u ∈ upd ∧ host u = h.
Proof.
  induction upd as [|v upd IH]; intros seen h; simpl; [by intros ?%elem_of_nil|].
  destruct (existsb _ seen).
  - intros (u & Hu & Hh)%IH. exists u. split; [by right|done].
  - intros [->|(u & Hu & Hh)%IH]%elem_of_cons.
    + exists v. split; [left|done].
    + exists u. split; [by right|done].
Qed.

(** Every updated target has its host among the hosts of a pass. *)
Lemma hosts_of_covers upd : ∀ seen u,
  u ∈ upd →
  existsb (Host.same (host u)) seen = true
  ∨ ∃ h, h ∈ Deploy.hosts_of seen upd ∧ Host.same (host u) h = true.
Proof.
  induction upd as [|v upd IH]; intros seen u; simpl; [by intros ?%elem_of_nil|].
  intros [->|Hu]%elem_of_cons.
  - destruct (existsb (Host.same (host v)) seen) eqn:Hseen; [by left|].
    right. exists (host v). split; [left|]. unfold Host.same. apply Nat.eqb_refl.
  - destruct (existsb (Host.same (host v)) seen) eqn:Hseen.
    + destruct (IH seen u Hu) as [?|(h & Hh & Hsame)]; [by left|].
      right. by exists h.
    + destruct (IH (host v :: seen) u Hu) as [Hex|(h & Hh & Hsame)].
      * simpl in Hex. apply orb_true_iff in Hex as [Hv|?]; [|by left].
        right. exists (host v). split; [left|done].
      * right. exists h. split; [by right|done].
Qed.

(** C6. Reloads. One call of reload_webservices issues the reload command
    of the host once, on the first of the targets it is given, when the host
    is marked reload-once, and otherwise once on each of these targets, in
    their order. The pass over the hosts is part of the body of the loop over
    the selected targets: after every selected target, updated or skipped,
    the hosts of the targets updated so far are gone through, each once, in
    the order of the iteration of a set, and reload_webservices is called with
    all selected targets of the host; nothing else in the loop issues a reload
    command. So a reload-once host with two updated
    targets is reloaded after the first target, before the second one is
    looked at, and again after the second: twice in the run, not once after
    all its targets. And a host that is not reload-once, with a selected
    target that has nothing to install followed by one that is updated, is
    reloaded on both: once for each selected target, not once for each
    updated one. *)
Theorem reload_pass_after_every_target :
  (∀ (world : World) (h : HostConf) (vpys : list VirtualenvConf) (s : State),
     Host.reload_webservices world h vpys s
     = (Ok tt,
        after s (map (fun v => EvRun v (CmdReload h))
                   (if reload_once h then take 1 vpys else vpys))))
  ∧ (∀ (self : LocalConf) (world : World) (vpys rest : list VirtualenvConf)
       (vpy : VirtualenvConf) (s : State),
       Deploy.deploy_loop self world vpys (vpy :: rest) s
       = ((except_Skip (Deploy.deploy_vpy self world vpy);;
           Deploy.reload_updated world vpys);;
          Deploy.deploy_loop self world vpys rest) s)
  ∧ (∀ (world : World) (vpys : list VirtualenvConf) (s : State),
       Deploy.reload_updated world vpys s
       = (Ok tt,
          after s (flat_map
                     (fun h => Spec.reload_events h
                                 (filter (fun v => Host.same (host v) h = true) vpys))
                     (Deploy.reload_order world s)))
       ∧ (∀ h, h ∈ Deploy.reload_order world s → ∃ u, u ∈ updated_vpys s ∧ host u = h)
       ∧ (∀ u, u ∈ updated_vpys s →
            ∃ h, h ∈ Deploy.reload_order world s ∧ Host.same (host u) h = true))
  ∧ (∀ (self : LocalConf) (world : World) (vpy : VirtualenvConf) (s : State),
       ∃ evs,
         trace (Deploy.deploy_vpy self world vpy s).2 = trace s ++ evs
         ∧ Spec.reloads evs = [])
  ∧ (let r := Deploy.task_deploy (Ex.conf [Ex.C; Ex.D]) (Ex.world Ex.nothing_fails) ""
                (Ex.start Ex.repo_ab ∅) in
     reload_once Ex.web2 = true
     ∧ host Ex.C = Ex.web2 ∧ host Ex.D = Ex.web2
     ∧ r.1 = Ok tt
     ∧ updated_vpys r.2 = [Ex.C; Ex.D]
     ∧ omap (fun e => match e with
                      | EvPrompt _ | EvRun _ (CmdReload _) => Some e
                      | _ => None
                      end) (trace r.2)
       = [EvPrompt Ex.C; EvRun Ex.C (CmdReload Ex.web2);
          EvPrompt Ex.D; EvRun Ex.C (CmdReload Ex.web2)])
  ∧ (let r := Deploy.task_deploy (Ex.conf [Ex.B; Ex.A]) (Ex.world Ex.nothing_fails) ""
                (Ex.start Ex.repo_ab ∅) in
     reload_once Ex.web1 = false
     ∧ r.1 = Ok tt
     ∧ updated_vpys r.2 = [Ex.A]
     ∧ Spec.reloads (trace r.2) = [(Ex.web1, Ex.B); (Ex.web1, Ex.A)]).
Proof.
  split; [|split; [|split; [|split; [|split]]]].
  - intros. apply reload_webservices_eq.
  - reflexivity.
  - intros world vpys s. split; [apply reload_updated_eq|]. split.
    + intros h Hh. by apply set_order_elem, hosts_of_updated in Hh.
    + intros u Hu. destruct (hosts_of_covers (updated_vpys s) [] u Hu)
        as [Hex|(h & Hh & Hsame)]; [done|].
      exists h. split; [|done]. by apply set_order_elem.
  - intros self world vpy s.
    destruct (deploy_vpy_quiet self world vpy s) as (evs & [Ht _] & Hq).
    exists evs. split; [done|]. by apply reloads_quiet.
  - vm_compute. repeat split.
  - vm_compute. repeat split.
Qed.

(** ** Replay of the release log *)

Section replay.

Context {pip : Pip}.

Abbreviation is_release l := (Py.startswith l "release:" = true).

Lemma read_lines_app lines1 : ∀ repo lines2,
  Replay.read_lines repo (lines1 ++ lines2)
  = (Replay.read_lines repo lines1 ≫= fun r => Replay.read_lines r lines2).
Proof.
  induction lines1 as [|l lines1 IH]; intros repo lines2; simpl; [done|].
  destruct (Py.startswith l "release:"); [|apply IH].
  destruct (Replay.release_fields l) as [[[pkg version] wheel]|]; simpl; [|done].
  destruct (Repository.add_wheel repo pkg version wheel) as [[r b]|]; simpl; [|done].
  apply IH.
Qed.







End replay.




(** ** Wheel intake *)

(** The test for a wheel with the same tags compares a list with the strings
    of a list: it never finds one. *)
Lemma same_tags_never_found py_version (ws : list (list string * string)) :
  existsb (fun vw => Intake.list_in py_version (fst vw)) ws = false.
Proof.
  induction ws as [|[v w] ws IH]; simpl; [done|]. rewrite IH.
  unfold Intake.list_in. by induction v.
Qed.

(** An older wheel makes [task_add_wheel] return: the paths after it are not
    looked at. *)
Lemma out_of_date_returns `{Pip} self path rest s pkg version x e :
  Py.endswith path ".whl" = true →
  Py.path_join (wheels self) (Py.basename path) ∉ files s →
  Py.split (Py.basename path) "-" (Some 2) = [pkg; version; x] →
  latest_pkg s !! pkg = Some e →
  Version.lt (Version.new version) (PkgSpecList.version e) = Ok true →
  Intake.task_add_wheel self (path :: rest) s
  = (Ok tt,
     after s [EvWarn ("wheel " +:+ Py.basename path +:+ " is out of date, ignoring")]).
Proof.
  intros Hwhl Hnew Hsplit Hold Hlt.
  cbn [Intake.task_add_wheel]. unfold Intake.add_path. rewrite Hwhl.
  rewrite !bind_eq. unfold get_files at 1. cbv beta iota.
  rewrite decide_False by done. rewrite Hsplit.
  unfold ReleaseLog.get_latest, Intake.check_existing.
  rewrite !bind_eq. unfold get_latest_pkg at 1. cbv beta iota.
  change ((mret (latest_pkg s !! pkg) : M _) s) with (Ok (latest_pkg s !! pkg), s).
  cbv beta iota. rewrite Hold. cbv beta iota. rewrite Hlt. reflexivity.
Qed.

(** C8. The claim fails on the code for a batch with an older wheel in it.
    From an empty repository, the wheels a 2.0, a 1.0 and b 1.0 given in one
    call: a 2.0 is released, a 1.0 is found out of date and the call returns;
    the wheel of b is neither copied nor released, although given alone it is
    copied and released. *)
Theorem out_of_date_wheel_ends_the_batch :
  let s := Ex.start ∅ {[ "/in/a-2.0-py3-none-any.whl"%string;
                         "/in/a-1.0-py3-none-any.whl"%string;
                         "/in/b-1.0-py3-none-any.whl"%string ]} in
  let r := Intake.task_add_wheel (H := five_field_pyversions) (Ex.conf [])
             ["/in/a-2.0-py3-none-any.whl"%string;
              "/in/a-1.0-py3-none-any.whl"%string;
              "/in/b-1.0-py3-none-any.whl"%string] s in
  let r' := Intake.task_add_wheel (H := five_field_pyversions) (Ex.conf [])
              ["/in/b-1.0-py3-none-any.whl"%string] s in
  r.1 = Ok tt
  ∧ trace r.2
    = [EvLog (LRelease "a" "2.0" "a-2.0-py3-none-any.whl");
       EvWarn "wheel a-1.0-py3-none-any.whl is out of date, ignoring"]
  ∧ latest_pkg r.2 !! "b"%string = None
  ∧ bool_decide ("/home/me/wheels/b-1.0-py3-none-any.whl"%string ∈ files r.2) = false
  ∧ r'.1 = Ok tt
  ∧ trace r'.2 = [EvLog (LRelease "b" "1.0" "b-1.0-py3-none-any.whl")]
  ∧ bool_decide ("/home/me/wheels/b-1.0-py3-none-any.whl"%string ∈ files r'.2) = true.
Proof. vm_compute. repeat split. Qed.

(** * Further properties *)

(** ** Strings *)

Lemma chars_app a b : Py.chars (a +:+ b) = Py.chars a ++ Py.chars b.
Proof.
  unfold Py.chars. induction a as [|c a IH]; [reflexivity|].
  change (String c a +:+ b) with (String c (a +:+ b)). simpl. congruence.
Qed.

Lemma text_chars s : Py.text (Py.chars s) = s.
Proof. apply string_of_list_ascii_of_string. Qed.

Lemma chars_text l : Py.chars (Py.text l) = l.
Proof. apply list_ascii_of_string_of_list_ascii. Qed.

Lemma text_app l1 l2 : Py.text (l1 ++ l2) = Py.text l1 +:+ Py.text l2.
Proof.
  unfold Py.text. induction l1 as [|c l1 IH]; [reflexivity|].
  simpl. rewrite IH. reflexivity.
Qed.

Lemma length_chars s : length (Py.chars s) = String.length s.
Proof. unfold Py.chars. induction s as [|c s IH]; simpl; congruence. Qed.

Lemma prefix_of_app p s : Py.prefix_of p (p ++ s) = true.
Proof.
  induction p as [|c p IH]; simpl; [done|]. by rewrite Ascii.eqb_refl.
Qed.

Lemma prefix_of_head_ne c p x s : c ≠ x → Py.prefix_of (c :: p) (x :: s) = false.
Proof.
  intros Hne. simpl. destruct (Ascii.eqb c x) eqn:E; [|done].
  apply Ascii.eqb_eq in E. congruence.
Qed.

(** *** split *)

Lemma split_go_fuel sep : ∀ f1 f2 n cur s,
  sep ≠ [] → length s < f1 → length s < f2 →
  Py.split_go sep n cur s f1 = Py.split_go sep n cur s f2.
Proof.
  induction f1 as [|f1 IH]; intros f2 n cur s Hsep H1 H2; [lia|].
  destruct f2 as [|f2]; [lia|]. simpl.
  destruct s as [|c s]; [done|]. simpl in H1, H2.
  assert (length (drop (length sep) (c :: s)) < f1
          ∧ length (drop (length sep) (c :: s)) < f2) as [Hd1 Hd2].
  { destruct sep as [|x sep]; [done|]. simpl. rewrite length_drop. lia. }
  destruct n as [[|k]|]; [done| |];
    (destruct (Py.prefix_of sep (c :: s));
     [f_equal; apply IH; done | apply IH; [done|lia|lia]]).
Qed.

Lemma split_go_zero sep cur s fuel :
  Py.split_go sep (Some 0) cur s fuel = [Py.text (rev cur ++ s)].
Proof.
  destruct fuel as [|fuel]; simpl; [done|].
  destruct s; [by rewrite app_nil_r | done].
Qed.

Lemma split_go_none c0 sep' a : ∀ n cur fuel,
  c0 ∉ a → length a < fuel →
  Py.split_go (c0 :: sep') n cur a fuel = [Py.text (rev cur ++ a)].
Proof.
  induction a as [|x a IH]; intros n cur fuel Hno Hlen.
  - destruct fuel; [simpl in Hlen; lia|]. simpl. by rewrite app_nil_r.
  - destruct fuel as [|fuel]; [simpl in Hlen; lia|].
    apply not_elem_of_cons in Hno as [Hx Hno]. simpl in Hlen.
    cbn [Py.split_go]. rewrite (prefix_of_head_ne c0 sep' x a Hx).
    destruct n as [[|k]|]; [done| |];
      (rewrite IH by (done || lia); simpl; by rewrite <- app_assoc).
Qed.

Lemma split_go_first c0 sep' a rest : ∀ n cur fuel,
  c0 ∉ a → n ≠ Some 0 →
  length (a ++ (c0 :: sep') ++ rest) < fuel →
  Py.split_go (c0 :: sep') n cur (a ++ (c0 :: sep') ++ rest) fuel
  = Py.text (rev cur ++ a)
    :: Py.split_go (c0 :: sep') (pred <$> n) [] rest (S (length rest)).
Proof.
  induction a as [|x a IH]; intros n cur fuel Hno Hn Hlen.
  - destruct fuel as [|fuel]; [simpl in Hlen; lia|].
    rewrite app_nil_l in *. rewrite app_nil_r.
    rewrite length_app in Hlen. simpl in Hlen.
    set (R := Py.split_go (c0 :: sep') (pred <$> n) [] rest (S (length rest))).
    assert (Py.split_go (c0 :: sep') (pred <$> n) [] rest fuel = R) as HR
      by (apply split_go_fuel; [done|lia|lia]).
    clearbody R.
    change ((c0 :: sep') ++ rest) with (c0 :: sep' ++ rest) at 1.
    cbn [Py.split_go].
    change (c0 :: sep' ++ rest) with ((c0 :: sep') ++ rest).
    rewrite prefix_of_app, drop_app_length.
    destruct n as [[|k]|]; [done| |]; by rewrite HR.
  - destruct fuel as [|fuel]; [simpl in Hlen; lia|].
    apply not_elem_of_cons in Hno as [Hx Hno].
    change ((x :: a) ++ (c0 :: sep') ++ rest) with (x :: (a ++ (c0 :: sep') ++ rest)) in *.
    assert (length (a ++ (c0 :: sep') ++ rest) < fuel) as Hlen'
      by (change (length (x :: ?l)) with (S (length l)) in Hlen; lia).
    specialize (IH n (x :: cur) fuel Hno Hn Hlen').
    set (R := Py.split_go (c0 :: sep') (pred <$> n) [] rest (S (length rest))) in *.
    clearbody R.
    cbn [Py.split_go].
    rewrite (prefix_of_head_ne c0 sep' x _ Hx).
    destruct n as [[|k]|]; [done| |];
      (rewrite IH; simpl; by rewrite <- app_assoc).
Qed.

(** [s.split(sep, 0)] is [[s]]. *)
Lemma split_zero s sep : Py.split s sep (Some 0) = [s].
Proof. unfold Py.split. rewrite split_go_zero. simpl. by rewrite text_chars. Qed.

(** A string without the first character of the separator is not cut. *)
Lemma split_none s sep c0 sep' n :
  Py.chars sep = c0 :: sep' → c0 ∉ Py.chars s →
  Py.split s sep n = [s].
Proof.
  intros Hsep Hno. unfold Py.split. rewrite Hsep.
  rewrite split_go_none by (done || rewrite length_chars; lia).
  simpl. by rewrite text_chars.
Qed.

(** The first field ends at the first separator. *)
Lemma split_first a sep rest c0 sep' n :
  Py.chars sep = c0 :: sep' → c0 ∉ Py.chars a → n ≠ Some 0 →
  Py.split (a +:+ sep +:+ rest) sep n = a :: Py.split rest sep (pred <$> n).
Proof.
  intros Hsep Hno Hn. unfold Py.split.
  rewrite !chars_app, Hsep.
  rewrite split_go_first; [|done|done|].
  - simpl. rewrite text_chars. by rewrite length_chars.
  - rewrite <- length_chars, !chars_app, Hsep. lia.
Qed.

(** *** strip *)



Lemma lstrip_u_app a b c :
  head b = Some c → Py.isspace_u c = false →
  Py.lstrip_u (a ++ b) = Py.lstrip_u a ++ b.
Proof.
  intros Hb Hc. destruct b as [|c' b]; [done|]. injection Hb as ->.
  induction a as [|x a IH]; simpl; [by rewrite Hc|].
  by destruct (Py.isspace_u x).
Qed.

(** The same for [strip] on a [unicode] text. *)
Lemma strip_u_app s t c1 c2 :
  head (Py.chars s) = Some c1 → Py.isspace_u c1 = false →
  last (Py.chars s) = Some c2 → Py.isspace_u c2 = false →
  Py.strip_u (s +:+ t) = s +:+ Py.text (rstrip_chars_u (Py.chars t)).
Proof.
  intros Hh Hc1 Hl Hc2. unfold Py.strip_u, rstrip_chars_u.
  rewrite chars_app.
  assert (Py.lstrip_u (Py.chars s ++ Py.chars t) = Py.chars s ++ Py.chars t) as ->.
  { destruct (Py.chars s) as [|x l]; [done|]. injection Hh as ->.
    simpl. by rewrite Hc1. }
  rewrite rev_app_distr.
  rewrite (lstrip_u_app _ _ c2); [| |done].
  - rewrite rev_app_distr, rev_involutive, text_app. by rewrite text_chars.
  - rewrite <- head_reverse in Hl. by rewrite rev_alt in *.
Qed.

Lemma isspace_isspace_u c : Py.isspace c = true → Py.isspace_u c = true.
Proof. intros Hc. unfold Py.isspace_u. by rewrite Hc. Qed.

Lemma sapp_assoc a b c : (a +:+ b) +:+ c = a +:+ (b +:+ c).
Proof.
  rewrite <- (text_chars ((a +:+ b) +:+ c)), <- (text_chars (a +:+ (b +:+ c))).
  by rewrite !chars_app, app_assoc.
Qed.

Lemma sapp_nil_r a : a +:+ "" = a.
Proof.
  rewrite <- (text_chars (a +:+ "")). rewrite chars_app. simpl.
  by rewrite app_nil_r, text_chars.
Qed.

Lemma lacks_app c a b : lacks c (a +:+ b) ↔ lacks c a ∧ lacks c b.
Proof. unfold lacks. rewrite chars_app, not_elem_of_app. done. Qed.

Ltac lacks_literal :=
  let H := fresh in
  unfold lacks; intros H; simpl in H;
  repeat (apply elem_of_cons in H as [H|H]; [discriminate H|]);
  by apply elem_of_nil in H.



Ltac tags_wf :=
  let vs := fresh in let w := fresh in let v := fresh in
  let Hin := fresh in let Hv := fresh in
  intros vs w v Hin Hv;
  repeat (apply elem_of_cons in Hin as [Hin|Hin];
          [injection Hin as -> ->;
           repeat (apply elem_of_cons in Hv as [->|Hv]; [reflexivity|]);
           by apply elem_of_nil in Hv|]);
  by apply elem_of_nil in Hin.

Ltac no_entry :=
  let e := fresh in let He := fresh in
  intros e He; vm_compute in He; discriminate He.

(** *** readlines *)

Lemma readlines_go_app t1 : ∀ cur t2,
  Py.readlines_go cur ((t1 ++ ["010"%char]) ++ t2)
  = Py.readlines_go cur (t1 ++ ["010"%char]) ++ Py.readlines_go [] t2.
Proof.
  induction t1 as [|c t1 IH]; intros cur t2; simpl.
  - done.
  - destruct (Ascii.eqb c "010"); simpl; by rewrite IH.
Qed.

Lemma readlines_go_line a : ∀ cur,
  "010"%char ∉ a →
  Py.readlines_go cur (a ++ ["010"%char]) = [Py.text (rev cur ++ a ++ ["010"%char])].
Proof.
  induction a as [|c a IH]; intros cur Hno; simpl.
  - by rewrite rev_alt, <- !rev_alt.
  - apply not_elem_of_cons in Hno as [Hc Hno].
    destruct (Ascii.eqb c "010") eqn:E; [apply Ascii.eqb_eq in E; congruence|].
    rewrite IH by done. simpl. by rewrite <- app_assoc.
Qed.

(** After a terminated text the lines of what follows are read on their
    own. *)
Lemma readlines_app content more :
  terminated content →
  Py.readlines (content +:+ more) = Py.readlines content ++ Py.readlines more.
Proof.
  unfold Py.readlines. intros [-> | [t ->]]; [done|].
  rewrite !chars_app. apply readlines_go_app.
Qed.

(** A line without an inner newline is read as one line. *)
Lemma readlines_line a :
  lacks "010" a → Py.readlines (a +:+ Lines.nl) = [a +:+ Lines.nl].
Proof.
  intros Hno. unfold Py.readlines. rewrite chars_app.
  change (Py.chars Lines.nl) with ["010"%char].
  rewrite readlines_go_line by done. simpl.
  by rewrite text_app, text_chars.
Qed.

Lemma terminated_app content a : terminated (content +:+ a +:+ Lines.nl).
Proof. right. exists (content +:+ a). by rewrite sapp_assoc. Qed.

Lemma startswith_app p s : Py.startswith (p +:+ s) p = true.
Proof. unfold Py.startswith. rewrite chars_app. apply prefix_of_app. Qed.

(** ** The release log: what is written is what is read *)





Lemma log_text_terminated lines : terminated (log_text lines).
Proof.
  induction lines as [|[line stamp] lines IH]; [by left|].
  simpl. destruct IH as [-> | [t ->]].
  - rewrite sapp_nil_r. right.
    destruct line; simpl; unfold Lines.release_line, Lines.install_line,
      Lines._error_message; eexists; rewrite <- ?sapp_assoc; reflexivity.
  - right. exists (Lines.render line stamp +:+ t). by rewrite sapp_assoc.
Qed.

Section log_replay.

Context {pip : Pip}.


Lemma released_app lines1 : ∀ repo lines2,
  released repo (lines1 ++ lines2)
  = (released repo lines1 ≫= fun r => released r lines2).
Proof.
  induction lines1 as [|l lines1 IH]; intros repo lines2; [done|].
  destruct l as [pkg version wheel| | |]; simpl; try apply IH.
  destruct (Repository.add_wheel repo pkg version wheel) as [[r b]|]; simpl; [|done].
  apply IH.
Qed.


End log_replay.







(** ** The version order is a total preorder *)

Lemma string_compare_lt_trans s1 s2 s3 :
  String.compare s1 s2 = Lt → String.compare s2 s3 = Lt → String.compare s1 s3 = Lt.
Proof.
  intros H12 H23.
  assert (String.le s1 s3) as Hle.
  { transitivity s2; unfold String.le, String.leb; [by rewrite H12 | by rewrite H23]. }
  unfold String.le, String.leb in Hle.
  destruct (String.compare s1 s3) eqn:H13; [|done|done].
  apply String.compare_eq_iff in H13 as ->.
  rewrite String.compare_antisym, H23 in H12. discriminate.
Qed.

Lemma cmp_component_eq a b : Version.cmp_component a b = Eq → a = b.
Proof.
  destruct a, b; simpl; try discriminate.
  - by intros ->%Z.compare_eq.
  - by intros ->%String.compare_eq_iff.
Qed.

Lemma cmp_component_lt_trans a b c :
  Version.cmp_component a b = Lt → Version.cmp_component b c = Lt →
  Version.cmp_component a c = Lt.
Proof.
  destruct a, b, c; simpl; try done.
  - rewrite !Z.compare_lt_iff. lia.
  - apply string_compare_lt_trans.
Qed.

Lemma cmp_list_eq l1 : ∀ l2, Version.cmp_list l1 l2 = Eq → l1 = l2.
Proof.
  induction l1 as [|a l1 IH]; intros [|b l2]; simpl; try done.
  destruct (Version.cmp_component a b) eqn:E; try done.
  apply cmp_component_eq in E as ->. by intros ->%IH.
Qed.

Lemma cmp_list_lt_trans l1 : ∀ l2 l3,
  Version.cmp_list l1 l2 = Lt → Version.cmp_list l2 l3 = Lt →
  Version.cmp_list l1 l3 = Lt.
Proof.
  induction l1 as [|a l1 IH]; intros [|b l2] [|c l3]; simpl; try done.
  destruct (Version.cmp_component a b) eqn:Eab; try done.
  - apply cmp_component_eq in Eab as ->.
    destruct (Version.cmp_component b c); try done. apply IH.
  - intros _. destruct (Version.cmp_component b c) eqn:Ebc; try done.
    + apply cmp_component_eq in Ebc as ->. by rewrite Eab.
    + by rewrite (cmp_component_lt_trans a b c Eab Ebc).
Qed.

(** Not lower than something not lower. *)
Lemma cmp_ge_trans a b c :
  Version.cmp a b ≠ Lt → Version.cmp b c ≠ Lt → Version.cmp a c ≠ Lt.
Proof.
  unfold Version.cmp. intros Hab Hbc Hac.
  destruct (Version.cmp_list (Version.version a) (Version.version b)) eqn:Eab; [|done|].
  - apply cmp_list_eq in Eab. rewrite Eab in Hac. done.
  - destruct (Version.cmp_list (Version.version b) (Version.version c)) eqn:Ebc; [|done|].
    + apply cmp_list_eq in Ebc. rewrite <- Ebc in Hac. congruence.
    + rewrite cmp_list_antisym in Eab, Ebc.
      destruct (Version.cmp_list (Version.version b) (Version.version a)) eqn:Eba;
        try done.
      destruct (Version.cmp_list (Version.version c) (Version.version b)) eqn:Ecb;
        try done.
      pose proof (cmp_list_lt_trans _ _ _ Ecb Eba) as Hca.
      rewrite cmp_list_antisym, Hca in Hac. done.
Qed.

(** ** The repository under add_wheel and replay *)

Section repository.

Context {pip : Pip}.

Lemma never_below_refl repo : never_below repo repo.
Proof. intros k old Hk. exists old. split; [done|]. by rewrite cmp_refl. Qed.

Lemma never_below_trans r1 r2 r3 :
  never_below r1 r2 → never_below r2 r3 → never_below r1 r3.
Proof.
  intros H12 H23 k old Hk.
  destruct (H12 k old Hk) as (e2 & Hk2 & Hc2).
  destruct (H23 k e2 Hk2) as (e3 & Hk3 & Hc3).
  exists e3. split; [done|]. by eapply cmp_ge_trans.
Qed.

(** What one call of [add_wheel] does, read off its result. *)
Lemma add_wheel_cases (self : PkgRepository) pkg version wheel r b :
  Repository.add_wheel self pkg version wheel = Ok (r, b) →
  let replaced :=
    ∃ tags, get_platform_tags wheel = Ok tags ∧ b = true
      ∧ r = <[pkg := PkgSpecList.mk pkg (Version.new version) [(tags, wheel)]]> self in
  match self !! pkg with
  | None => replaced
  | Some old =>
      match Version.cmp (Version.new version) (PkgSpecList.version old) with
      | Gt => replaced
      | Eq => ∃ tags, get_platform_tags wheel = Ok tags ∧ b = true
                ∧ r = <[pkg := PkgSpecList.mk (PkgSpecList.pkg old)
                                 (PkgSpecList.version old)
                                 (PkgSpecList.wheels old ++ [(tags, wheel)])]> self
      | Lt => b = false ∧ r = self
      end
  end.
Proof.
  unfold Repository.add_wheel, PkgSpecList.new, PkgSpecList.add_wheel,
    Version.gt, Version.eq. simpl.
  destruct (self !! pkg) as [old|].
  - destruct (compare_cases (Version.new version) (PkgSpecList.version old))
      as [-> | ->]; simpl; [|done].
    destruct (Version.cmp _ _); simpl.
    + destruct (get_platform_tags wheel) as [tags|]; simpl; [|done].
      intros [= <- <-]. by exists tags.
    + by intros [= <- <-].
    + destruct (get_platform_tags wheel) as [tags|]; simpl; [|done].
      intros [= <- <-]. by exists tags.
  - destruct (get_platform_tags wheel) as [tags|]; simpl; [|done].
    intros [= <- <-]. by exists tags.
Qed.

Lemma add_wheel_never_below (self : PkgRepository) pkg version wheel r b :
  Repository.add_wheel self pkg version wheel = Ok (r, b) → never_below self r.
Proof.
  intros Hadd%add_wheel_cases k old Hk. simpl in Hadd.
  destruct (decide (k = pkg)) as [->|Hne].
  - rewrite Hk in Hadd.
    destruct (Version.cmp (Version.new version) (PkgSpecList.version old)) eqn:Hc.
    + destruct Hadd as (tags & _ & _ & ->). eexists. rewrite lookup_insert_eq.
      split; [done|]. simpl. by rewrite cmp_refl.
    + destruct Hadd as [_ ->]. exists old. split; [done|]. by rewrite cmp_refl.
    + destruct Hadd as (tags & _ & _ & ->). eexists. rewrite lookup_insert_eq.
      split; [done|]. simpl. by rewrite Hc.
  - assert (r !! k = self !! k) as Hframe.
    { destruct (self !! pkg) as [o|];
        [destruct (Version.cmp (Version.new version) (PkgSpecList.version o))|];
        first [ destruct Hadd as (tags & _ & _ & ->); by rewrite lookup_insert_ne
              | by destruct Hadd as [_ ->] ]. }
    exists old. rewrite Hframe. split; [done|]. by rewrite cmp_refl.
Qed.

Lemma add_wheel_ok (self : PkgRepository) pkg version wheel r b :
  repository_ok self →
  Repository.add_wheel self pkg version wheel = Ok (r, b) → repository_ok r.
Proof.
  intros Hok Hadd%add_wheel_cases. simpl in Hadd.
  assert (∀ tags, get_platform_tags wheel = Ok tags →
          repository_ok (<[pkg := PkgSpecList.mk pkg (Version.new version)
                                    [(tags, wheel)]]> self)) as Hrepl.
  { intros tags Ht k e. rewrite lookup_insert. case_decide as Hk.
    - intros [= <-]. simpl. repeat split; [done|done|]. by repeat constructor.
    - apply Hok. }
  destruct (self !! pkg) as [old|] eqn:Hold.
  - destruct (Version.cmp _ _).
    + destruct Hadd as (tags & Ht & _ & ->). intros k e. rewrite lookup_insert.
      case_decide as Hk; [|apply Hok].
      intros [= <-]. simpl. destruct (Hok pkg old Hold) as (Hp & Hw & Hall).
      repeat split; [congruence| |].
      * by destruct (PkgSpecList.wheels old).
      * apply Forall_app. split; [done|]. by repeat constructor.
    + by destruct Hadd as [_ ->].
    + destruct Hadd as (tags & Ht & _ & ->). by apply Hrepl.
  - destruct Hadd as (tags & Ht & _ & ->). by apply Hrepl.
Qed.

Lemma read_lines_never_below lines : ∀ repo r,
  Replay.read_lines repo lines = Ok r → never_below repo r.
Proof.
  induction lines as [|l lines IH]; intros repo r; simpl.
  - intros [= <-]. apply never_below_refl.
  - destruct (Py.startswith l "release:"); [|apply IH].
    destruct (Replay.release_fields l) as [[[pkg version] wheel]|]; simpl; [|done].
    destruct (Repository.add_wheel repo pkg version wheel) as [[r1 b]|] eqn:Hadd;
      simpl; [|done].
    intros Hrest%IH. eapply never_below_trans; [|exact Hrest].
    by eapply add_wheel_never_below.
Qed.

Lemma read_lines_ok lines : ∀ repo r,
  repository_ok repo → Replay.read_lines repo lines = Ok r → repository_ok r.
Proof.
  induction lines as [|l lines IH]; intros repo r Hok; simpl.
  - by intros [= <-].
  - destruct (Py.startswith l "release:"); [|by apply IH].
    destruct (Replay.release_fields l) as [[[pkg version] wheel]|]; simpl; [|done].
    destruct (Repository.add_wheel repo pkg version wheel) as [[r1 b]|] eqn:Hadd;
      simpl; [|done].
    apply IH. by eapply add_wheel_ok.
Qed.

End repository.

(** X4. Effect of add_wheel. A call of [PkgRepository.add_wheel] that returns
    leaves the entries of all other packages as they were; when it returns
    [False] the repository is unchanged; when it returns [True] the entry of
    the package ends with the new wheel, holds the tags pip reads off its
    name, and has a version equal to the one given. *)
Theorem add_wheel_effect (pip : Pip) (self : PkgRepository)
    (pkg version wheel : string) (r : PkgRepository) (b : bool) :
  Repository.add_wheel self pkg version wheel = Ok (r, b) →
  (∀ k, k ≠ pkg → r !! k = self !! k)
  ∧ (b = false → r = self)
  ∧ (b = true →
     ∃ e tags, r !! pkg = Some e
       ∧ get_platform_tags wheel = Ok tags
       ∧ last (PkgSpecList.wheels e) = Some (tags, wheel)
       ∧ Version.cmp (PkgSpecList.version e) (Version.new version) = Eq).
Proof.
  intros Hadd%add_wheel_cases. simpl in Hadd.
  assert (∀ tags, get_platform_tags wheel = Ok tags → b = true →
          r = <[pkg := PkgSpecList.mk pkg (Version.new version) [(tags, wheel)]]> self →
          (∀ k, k ≠ pkg → r !! k = self !! k)
          ∧ (b = false → r = self)
          ∧ (b = true →
             ∃ e tags, r !! pkg = Some e
               ∧ get_platform_tags wheel = Ok tags
               ∧ last (PkgSpecList.wheels e) = Some (tags, wheel)
               ∧ Version.cmp (PkgSpecList.version e) (Version.new version) = Eq))
    as Hrepl.
  { intros tags Ht -> ->. split; [|split; [done|]].
    - intros k Hk. by rewrite lookup_insert_ne.
    - intros _. eexists _, tags. rewrite lookup_insert_eq.
      repeat split; [done|]. simpl. apply cmp_refl. }
  destruct (self !! pkg) as [old|].
  - destruct (Version.cmp (Version.new version) (PkgSpecList.version old)) eqn:Hc.
    + destruct Hadd as (tags & Ht & -> & ->). split; [|split; [done|]].
      * intros k Hk. by rewrite lookup_insert_ne.
      * intros _. eexists _, tags. rewrite lookup_insert_eq.
        repeat split; [done|apply last_snoc|]. simpl.
        by rewrite cmp_antisym, Hc.
    + destruct Hadd as [-> ->]. by repeat split.
    + destruct Hadd as (tags & Ht & Hb & Hr). by apply (Hrepl tags).
  - destruct Hadd as (tags & Ht & Hb & Hr). by apply (Hrepl tags).
Qed.

Lemma add_wheel_effect_witness :
  let r := <[ "a"%string := PkgSpecList.mk "a" (Version.new "1.1")
                              [(["py3"%string], "a-1.1-py3-none-any.whl"%string)] ]>
             Ex.repo_ab in
  (∀ k, k ≠ "a"%string → r !! k = Ex.repo_ab !! k)
  ∧ (true = false → r = Ex.repo_ab)
  ∧ (true = true →
     ∃ e tags, r !! "a"%string = Some e
       ∧ get_platform_tags (H := five_field_pyversions) "a-1.1-py3-none-any.whl" = Ok tags
       ∧ last (PkgSpecList.wheels e) = Some (tags, "a-1.1-py3-none-any.whl"%string)
       ∧ Version.cmp (PkgSpecList.version e) (Version.new "1.1") = Eq).
Proof.
  apply (add_wheel_effect five_field_pyversions Ex.repo_ab "a" "1.1"
           "a-1.1-py3-none-any.whl").
  vm_compute. reflexivity.
Defined.

(** X5. Replay keeps and never lowers. Whatever lines are replayed on top of
    a repository, and so whatever is appended to a terminated release log,
    every package stays in the repository and its version is never lower
    than before. *)
Theorem replay_never_regresses (pip : Pip) :
  (∀ repo lines r, Replay.read_lines repo lines = Ok r → never_below repo r)
  ∧ (∀ content more r1 r2,
       terminated content →
       Replay._read_entries content = Ok r1 →
       Replay._read_entries (content +:+ more) = Ok r2 →
       never_below r1 r2).
Proof.
  split; [intros; by eapply read_lines_never_below|].
  intros content more r1 r2 Hterm H1. unfold Replay._read_entries in *.
  rewrite readlines_app, read_lines_app, H1 by done. simpl.
  apply read_lines_never_below.
Qed.

Lemma replay_never_regresses_witness :
  never_below {[ "a"%string := Cases.entry_a ]}
    {[ "a"%string := PkgSpecList.mk "a" (Version.new "1.1")
                       [(["py3"%string], "a-1.1-py3-none-any.whl"%string)] ]}.
Proof.
  apply (proj2 (replay_never_regresses five_field_pyversions) Cases.release_a
           ("release: a==1.1 a-1.1-py3-none-any.whl at 2016-05-02T10:00:00" +:+ Lines.nl)).
  - right. eexists. reflexivity.
  - vm_compute. reflexivity.
  - vm_compute. reflexivity.
Defined.

(** X6. The entries of a replayed repository. Every entry of the repository
    that [_read_entries] returns is stored under its own package name, has at
    least one wheel, and holds for each wheel the tags pip reads off the
    wheel's name. *)
Theorem replay_entries_ok (pip : Pip) (content : string) (repo : PkgRepository) :
  Replay._read_entries content = Ok repo → repository_ok repo.
Proof.
  apply read_lines_ok. intros k e Hk. by rewrite lookup_empty in Hk.
Qed.

Lemma replay_entries_ok_witness :
  repository_ok (H := five_field_pyversions) {[ "a"%string := Cases.entry_a ]}.
Proof.
  apply (replay_entries_ok five_field_pyversions Cases.release_a).
  vm_compute. reflexivity.
Defined.

(** ** More on get_wheel *)

Lemma scan_wheels_elem test ws w :
  PkgSpecList.scan_wheels test ws = Ok (Some w) → w ∈ map snd ws.
Proof.
  induction ws as [|[vs w'] ws IH]; simpl; [done|].
  destruct (PkgSpecList.scan_tags test vs) as [[]|]; simpl; [| |done].
  - intros [= ->]. left.
  - intros H%IH. by right.
Qed.

(** X7. The wheel comes from the entry. A wheel returned by [get_wheel] is
    one of the wheels of the entry, whatever the tags look like. *)
Theorem get_wheel_from_entry (self : PkgSpecList.t) (pv : PyVersionInfo) (w : string) :
  PkgSpecList.get_wheel self pv = Ok (Some w) → w ∈ map snd (PkgSpecList.wheels self).
Proof.
  unfold PkgSpecList.get_wheel.
  destruct (PkgSpecList.scan_wheels (PkgSpecList.exact_tag _ _) _) as [[w1|]|] eqn:E1;
    simpl; [| |done].
  - intros [= <-]. by eapply scan_wheels_elem.
  - apply scan_wheels_elem.
Qed.

Lemma get_wheel_from_entry_witness :
  Ex.wheel_a ∈ map snd (PkgSpecList.wheels Cases.entry_a).
Proof.
  apply (get_wheel_from_entry Cases.entry_a {| major := 3; minor := 7 |}).
  reflexivity.
Defined.

Lemma digit_value_range c : Py.isdigit c = true → (0 ≤ Spec.digit_value c ≤ 9)%Z.
Proof.
  unfold Py.isdigit, Spec.digit_value.
  intros [H1%Nat.leb_le H2%Nat.leb_le]%andb_true_iff. lia.
Qed.

Lemma encodes_exact_range major minor v :
  Spec.encodes_exact major minor v = true →
  (0 ≤ major ≤ 9)%Z ∧ (0 ≤ minor ≤ 9)%Z.
Proof.
  unfold Spec.encodes_exact. destruct (Spec.last2 v) as [[c2 c1]|]; [|done].
  intros [[[H2 H1]%andb_true_iff Hm%Z.eqb_eq]%andb_true_iff Hn%Z.eqb_eq]%andb_true_iff.
  apply digit_value_range in H1, H2. lia.
Qed.

Lemma first_with_none p ws :
  (∀ v, p v = false) → Spec.first_with p ws = None.
Proof.
  intros Hp. unfold Spec.first_with.
  induction ws as [|[vs w] ws IH]; simpl; [done|].
  assert (existsb p vs = false) as ->; [|done].
  induction vs as [|v vs IHv]; simpl; [done|]. by rewrite Hp.
Qed.

(** X8. No exact match beyond one digit. The exact tier reads the last two
    characters of a tag as major and minor, one digit each: for an
    interpreter whose major or minor number is not between 0 and 9 (Python
    3.10 and later) no tag is an exact match, and the result is the first
    wheel with the generic tag of the family, if there is one. *)
Theorem no_exact_match_beyond_one_digit (self : PkgSpecList.t) (pv : PyVersionInfo) :
  Spec.wheels_wf (PkgSpecList.wheels self) →
  ¬ ((0 ≤ major pv ≤ 9)%Z ∧ (0 ≤ minor pv ≤ 9)%Z) →
  PkgSpecList.get_wheel self pv
  = Ok (Spec.first_with (Spec.generic_for (major pv)) (PkgSpecList.wheels self)).
Proof.
  intros Hwf Hrange. rewrite (get_wheel_select self pv Hwf). unfold Spec.select.
  rewrite first_with_none; [done|].
  intros v. destruct (Spec.encodes_exact (major pv) (minor pv) v) eqn:E; [|done].
  by apply encodes_exact_range in E.
Qed.

Lemma no_exact_match_beyond_one_digit_witness :
  PkgSpecList.get_wheel Cases.entry_x {| major := 3; minor := 10 |}
  = Ok (Some "x-1.0-py3-none-any.whl"%string).
Proof.
  rewrite (no_exact_match_beyond_one_digit Cases.entry_x {| major := 3; minor := 10 |});
    [reflexivity| |simpl; lia].
  tags_wf.
Defined.

(** X9. Tags that make get_wheel raise. When the first tag of the first
    wheel has fewer than two characters, [get_wheel] raises [IndexError];
    when it ends in the digit of the interpreter's major number followed by
    a character that is not a digit, [get_wheel] raises [ValueError]. *)
Theorem get_wheel_raises_on_first_tag (self : PkgSpecList.t) (pv : PyVersionInfo)
    (v : string) (vs : list string) (w : string) (rest : list (list string * string)) :
  PkgSpecList.wheels self = (v :: vs, w) :: rest →
  (Spec.last2 v = None → PkgSpecList.get_wheel self pv = Raise IndexError)
  ∧ (∀ c2 c1, Spec.last2 v = Some (c2, c1) →
       Py.isdigit c2 = true → Spec.digit_value c2 = major pv →
       Py.isdigit c1 = false →
       PkgSpecList.get_wheel self pv = Raise ValueError).
Proof.
  intros Hws. unfold PkgSpecList.get_wheel. rewrite Hws. simpl. split.
  - intros Hshort. by rewrite short_tag_raises.
  - intros c2 c1 Hlast H2 Hval H1.
    unfold PkgSpecList.exact_tag, Py.neg_index, Py.int_char.
    unfold Spec.last2 in Hlast.
    destruct (rev (Py.chars v)) as [|x1 [|x2 l]]; try discriminate.
    injection Hlast as -> ->. simpl. rewrite H2. simpl.
    unfold Spec.digit_value in Hval. rewrite Hval, Z.eqb_refl. simpl.
    by rewrite H1.
Qed.

Lemma get_wheel_raises_on_first_tag_witness :
  PkgSpecList.get_wheel Cases.entry_short {| major := 3; minor := 7 |} = Raise IndexError
  ∧ PkgSpecList.get_wheel Cases.entry_odd {| major := 3; minor := 7 |} = Raise ValueError.
Proof.
  split.
  - apply (proj1 (get_wheel_raises_on_first_tag Cases.entry_short
                    {| major := 3; minor := 7 |} "3" [] "y-1.0-3-none-any.whl" []
                    eq_refl)).
    reflexivity.
  - apply (proj2 (get_wheel_raises_on_first_tag Cases.entry_odd
                    {| major := 3; minor := 7 |} "cp3x" [] "z-1.0-cp3x-none-any.whl" []
                    eq_refl) "3"%char "x"%char); reflexivity.
Defined.

(** ** More on the planner *)

Lemma rows_app installed release_log pyversion l1 : ∀ l2,
  Planner.rows installed release_log pyversion (l1 ++ l2)
  = (rs1 ← Planner.rows installed release_log pyversion l1;
     rs2 ← Planner.rows installed release_log pyversion l2;
     Ok (rs1 ++ rs2)).
Proof.
  induction l1 as [|pkg l1 IH]; intros l2; simpl.
  - by destruct (Planner.rows _ _ _ l2).
  - destruct (Planner.row _ _ _ pkg) as [r|]; simpl; [|done].
    rewrite IH. destruct (Planner.rows _ _ _ l1) as [rs1|]; simpl; [|done].
    by destruct (Planner.rows _ _ _ l2).
Qed.

(** X10. A package named twice is planned twice. The planner walks through
    the requirement names and then the site packages without removing
    duplicates: the wheel of an installable package that is named in both is
    listed once among the wheels of the requirements and once more among
    those of the site packages. *)
Theorem package_named_twice_is_planned_twice
    (installed : gmap string (option LooseVersion)) (self : VirtualenvConf)
    (release_log : PkgRepository) (pyversion : PyVersionInfo) (plan : ToInstallResult)
    (pkg : string) (e : PkgSpecList.t) (w : string) :
  Planner.get_pkgs_to_install installed self release_log pyversion = Ok plan →
  pkg ∈ map fst (requirements self) →
  pkg ∈ site_packages self →
  release_log !! pkg = Some e →
  PkgSpecList.get_wheel e pyversion = Ok (Some w) →
  (installed !! pkg ≫= id) = None →
  ∃ first second,
    installables plan = first ++ second
    ∧ w ∈ first ∧ w ∈ second
    ∧ length first ≤ length (requirements self)
    ∧ length second ≤ length (site_packages self).
Proof.
  intros Hplan. destruct (plan_returned _ _ _ _ _ Hplan) as (rs & Hrs & ->).
  unfold Planner.packages in Hrs. rewrite rows_app in Hrs.
  destruct (Planner.rows _ _ _ (map fst (requirements self))) as [rs1|] eqn:H1;
    simpl in Hrs; [|done].
  destruct (Planner.rows _ _ _ (site_packages self)) as [rs2|] eqn:H2;
    simpl in Hrs; [|done].
  injection Hrs as <-.
  intros Hreq Hsite He Hget Hver. simpl.
  exists (omap Planner.installable_of rs1), (omap Planner.installable_of rs2).
  assert (∀ pkgs rs, Planner.rows installed release_log pyversion pkgs = Ok rs →
          pkg ∈ pkgs → w ∈ omap Planner.installable_of rs) as Hin.
  { intros pkgs rs Hrs Hp.
    destruct (rows_of_pkg _ _ _ _ _ pkg Hrs Hp) as (r & Hr & Hrow).
    destruct (row_fields _ _ _ _ _ Hrow) as (_ & Hs & Hv & Hw).
    rewrite He, Hget in Hw. injection Hw as Hw.
    apply list_elem_of_omap. exists r. split; [done|].
    unfold Planner.installable_of, Planner.is_installable.
    by rewrite <- Hw, Hs, He, Hv, Hver. }
  assert (∀ rs : list Row, length (omap Planner.installable_of rs) ≤ length rs) as Hlen.
  { intros rs. induction rs as [|r rs IH]; [done|]. rewrite omap_cons.
    destruct (Planner.installable_of r); simpl; lia. }
  split; [apply omap_app|]. split; [by eapply Hin|]. split; [by eapply Hin|].
  split.
  - etrans; [apply Hlen|]. rewrite (rows_length _ _ _ _ _ H1). by rewrite length_map.
  - etrans; [apply Hlen|]. by rewrite (rows_length _ _ _ _ _ H2).
Qed.

Lemma package_named_twice_is_planned_twice_witness :
  ∃ first second,
    [Ex.wheel_a; Ex.wheel_a] = first ++ second
    ∧ Ex.wheel_a ∈ first ∧ Ex.wheel_a ∈ second
    ∧ length first ≤ 1 ∧ length second ≤ 1.
Proof.
  apply (package_named_twice_is_planned_twice ∅ Cases.twice Ex.repo_ab
           {| major := 3; minor := 7 |}
           {| installables := [Ex.wheel_a; Ex.wheel_a]; missing := []; ahead := [] |}
           "a" Cases.entry_a Ex.wheel_a).
  - vm_compute. reflexivity.
  - simpl. left.
  - simpl. left.
  - vm_compute. reflexivity.
  - reflexivity.
  - reflexivity.
Defined.

Lemma rows_ext installed1 installed2 release_log pyversion pkgs :
  (∀ pkg, (installed1 !! pkg ≫= id) = (installed2 !! pkg ≫= id)) →
  Planner.rows installed1 release_log pyversion pkgs
  = Planner.rows installed2 release_log pyversion pkgs.
Proof.
  intros Hext. induction pkgs as [|pkg pkgs IH]; simpl; [done|].
  unfold Planner.row. by rewrite Hext, IH.
Qed.

(** X11. Version unknown counts as not installed. For the planner a package
    that [pip freeze] lists without a version is the same as a package that
    is not listed: the plan is the one computed without the package among
    the installed ones, so its wheel is installed again whenever one
    matches. *)
Theorem unknown_version_counts_as_absent
    (installed : gmap string (option LooseVersion)) (name : string)
    (self : VirtualenvConf) (release_log : PkgRepository) (pyversion : PyVersionInfo) :
  Planner.get_pkgs_to_install (<[name := None]> installed) self release_log pyversion
  = Planner.get_pkgs_to_install (delete name installed) self release_log pyversion.
Proof.
  unfold Planner.get_pkgs_to_install.
  rewrite (rows_ext (<[name := None]> installed) (delete name installed)); [done|].
  intros pkg. destruct (decide (name = pkg)) as [->|Hne].
  - by rewrite lookup_insert_eq, lookup_delete_eq.
  - by rewrite lookup_insert_ne, lookup_delete_ne.
Qed.

(** ** Requirement lines *)

Lemma split_go_nonempty sep n : ∀ fuel cur s, Py.split_go sep n cur s fuel ≠ [].
Proof.
  induction fuel as [|fuel IH]; intros cur s; simpl; [done|].
  destruct s as [|c s]; [done|].
  destruct n as [[|k]|]; try done; destruct (Py.prefix_of sep (c :: s)); done || apply IH.
Qed.

Lemma lstrip_u_all_space l :
  Forall (fun c => Py.isspace_u c = true) l → Py.lstrip_u l = [].
Proof. induction 1 as [|c l Hc _ IH]; simpl; [done|]. by rewrite Hc. Qed.

Lemma strip_u_blank l :
  Forall (fun c => Py.isspace_u c = true) (Py.chars l) → Py.strip_u l = ""%string.
Proof. intros Hall. unfold Py.strip_u. by rewrite (lstrip_u_all_space _ Hall). Qed.

Lemma strip_u_trailing s t c1 c2 :
  head (Py.chars s) = Some c1 → Py.isspace_u c1 = false →
  last (Py.chars s) = Some c2 → Py.isspace_u c2 = false →
  Forall (fun c => Py.isspace_u c = true) (Py.chars t) →
  Py.strip_u (s +:+ t) = s.
Proof.
  intros Hh H1 Hl H2 Hall. rewrite (strip_u_app s t c1 c2) by done.
  unfold rstrip_chars_u. rewrite lstrip_u_all_space.
  - apply sapp_nil_r.
  - by apply Forall_rev.
Qed.

Lemma item_pinned name version t c1 c2 :
  lacks "=" name →
  head (Py.chars name) = Some c1 → Py.isspace_u c1 = false →
  last (Py.chars version) = Some c2 → Py.isspace_u c2 = false →
  Forall (fun c => Py.isspace_u c = true) (Py.chars t) →
  Requirements.item (name +:+ "==" +:+ version +:+ t)
  = Ok (name, Some (Version.new version)).
Proof.
  intros Hno Hh H1 Hl H2 Hall. unfold Requirements.item.
  assert (name +:+ "==" +:+ version +:+ t = (name +:+ "==" +:+ version) +:+ t) as ->
    by (by rewrite !sapp_assoc).
  rewrite (strip_u_trailing _ t c1 c2); try done.
  - rewrite (split_first name "==" version "="%char ["="%char] (Some 1)); try done.
    change (Init.Nat.pred <$> Some 1) with (Some 0). by rewrite split_zero.
  - rewrite chars_app. destruct (Py.chars name); [done|]. done.
  - rewrite !chars_app, !last_app, Hl. done.
Qed.

Lemma item_blank_u l :
  Forall (fun c => Py.isspace_u c = true) (Py.chars l) →
  Requirements.item l = Ok (""%string, None).
Proof. intros Hall. unfold Requirements.item. by rewrite strip_u_blank. Qed.

Lemma item_blank l :
  Forall (fun c => Py.isspace c = true) (Py.chars l) →
  Requirements.item l = Ok (""%string, None).
Proof.
  intros Hall. apply item_blank_u. eapply Forall_impl; [exact Hall|].
  apply isspace_isspace_u.
Qed.

(** X12. What a requirement line yields. The lines are [unicode] texts,
    and white space is what [unicode.strip] removes: the white space of
    ASCII, the separators \x1c to \x1f, \x85 and \xa0. A line
    [name==version], followed by white space only, yields the name with that
    version; a line with a name alone yields the name with no version; a line
    of white space only yields the empty name with no version. Name and
    version are taken to begin and end with a character that is not white
    space, the name to hold no equals sign. *)
Theorem requirement_line_items :
  (∀ name version t c1 c2,
     lacks "=" name →
     head (Py.chars name) = Some c1 → Py.isspace_u c1 = false →
     last (Py.chars version) = Some c2 → Py.isspace_u c2 = false →
     Forall (fun c => Py.isspace_u c = true) (Py.chars t) →
     Requirements.item (name +:+ "==" +:+ version +:+ t)
     = Ok (name, Some (Version.new version)))
  ∧ (∀ name t c1 c2,
       lacks "=" name →
       head (Py.chars name) = Some c1 → Py.isspace_u c1 = false →
       last (Py.chars name) = Some c2 → Py.isspace_u c2 = false →
       Forall (fun c => Py.isspace_u c = true) (Py.chars t) →
       Requirements.item (name +:+ t) = Ok (name, None))
  ∧ (∀ l, Forall (fun c => Py.isspace_u c = true) (Py.chars l) →
       Requirements.item l = Ok (""%string, None)).
Proof.
  split; [|split].
  - apply item_pinned.
  - intros name t c1 c2 Hno Hh H1 Hl H2 Hall. unfold Requirements.item.
    rewrite (strip_u_trailing _ t c1 c2); try done.
    by rewrite (split_none name "==" "="%char ["="%char]).
  - apply item_blank_u.
Qed.

Lemma requirement_line_items_witness :
  Requirements.item ("Django" +:+ "==" +:+ "1.8.4" +:+ Lines.nl)
  = Ok ("Django"%string, Some (Version.new "1.8.4"))
  ∧ Requirements.item ("six" +:+ Lines.nl) = Ok ("six"%string, None)
  ∧ Requirements.item Lines.nl = Ok (""%string, None).
Proof.
  split; [|split].
  - apply (proj1 requirement_line_items "Django" "1.8.4" Lines.nl "D"%char "4"%char);
      first [reflexivity | lacks_literal | by repeat constructor].
  - apply (proj1 (proj2 requirement_line_items) "six" Lines.nl "s"%char "x"%char);
      first [reflexivity | lacks_literal | by repeat constructor].
  - apply (proj2 (proj2 requirement_line_items)). by repeat constructor.
Defined.

Lemma item_total l : ∃ name v, Requirements.item l = Ok (name, v).
Proof.
  unfold Requirements.item, Py.split.
  pose proof (split_go_nonempty (Py.chars "==") (Some 1)
                (S (String.length (Py.strip_u l))) [] (Py.chars (Py.strip_u l))) as Hne.
  destruct (Py.split_go _ _ _ _ _) as [|name [|version [|x rest]]]; [done|eauto..].
Qed.

Lemma fill_app lines1 : ∀ acc lines2,
  Requirements.fill acc (lines1 ++ lines2)
  = (Requirements.fill acc lines1 ≫= fun m => Requirements.fill m lines2).
Proof.
  induction lines1 as [|l lines1 IH]; intros acc lines2; simpl; [done|].
  destruct (Requirements.item l) as [[name v]|]; simpl; [apply IH|done].
Qed.

Lemma fill_total lines : ∀ acc, ∃ m, Requirements.fill acc lines = Ok m.
Proof.
  induction lines as [|l lines IH]; intros acc; simpl; [eauto|].
  destruct (item_total l) as (name & v & ->). simpl. apply IH.
Qed.

Lemma fill_keeps_keys lines : ∀ acc m k,
  Requirements.fill acc lines = Ok m → is_Some (acc !! k) → is_Some (m !! k).
Proof.
  induction lines as [|l lines IH]; intros acc m k; simpl.
  - by intros [= <-].
  - destruct (Requirements.item l) as [[name v]|]; simpl; [|done].
    intros Hfill Hk. apply (IH _ _ _ Hfill).
    rewrite lookup_insert. case_decide; [done|done].
Qed.

(** X13. The requirement dict. [_lines_to_requirements] never raises; the
    last line decides what a name is mapped to, the other names being mapped
    as by the lines before; and every line puts its name among the keys: a
    blank line puts the empty name there. *)
Theorem lines_to_requirements_dict :
  (∀ lines, ∃ m, Requirements._lines_to_requirements lines = Ok m)
  ∧ (∀ lines l name v m0 m,
       Requirements._lines_to_requirements lines = Ok m0 →
       Requirements.item l = Ok (name, v) →
       Requirements._lines_to_requirements (lines ++ [l]) = Ok m →
       m = <[name := v]> m0)
  ∧ (∀ lines l name v m,
       l ∈ lines →
       Requirements.item l = Ok (name, v) →
       Requirements._lines_to_requirements lines = Ok m →
       is_Some (m !! name))
  ∧ (∀ lines l m,
       l ∈ lines →
       Forall (fun c => Py.isspace c = true) (Py.chars l) →
       Requirements._lines_to_requirements lines = Ok m →
       is_Some (m !! ""%string)).
Proof.
  assert (∀ lines l name v m,
       l ∈ lines →
       Requirements.item l = Ok (name, v) →
       Requirements._lines_to_requirements lines = Ok m →
       is_Some (m !! name)) as Hkey.
  { unfold Requirements._lines_to_requirements. intros lines l name v m Hin Hitem.
    apply list_elem_of_split in Hin as (l1 & l2 & ->).
    rewrite fill_app.
    destruct (Requirements.fill ∅ l1) as [m1|]; simpl; [|done].
    rewrite Hitem. simpl. intros Hfill.
    apply (fill_keeps_keys _ _ _ _ Hfill). by rewrite lookup_insert_eq. }
  split; [|split; [|split]].
  - intros lines. apply fill_total.
  - unfold Requirements._lines_to_requirements. intros lines l name v m0 m H0 Hitem.
    rewrite fill_app, H0. simpl. rewrite Hitem. simpl. by intros [= <-].
  - exact Hkey.
  - intros lines l m Hin Hblank. apply (Hkey lines l ""%string None m Hin).
    by apply item_blank.
Qed.

Lemma lines_to_requirements_dict_witness :
  is_Some ((<[ ""%string := None ]>
              (<[ "a"%string := Some (Version.new "1.0") ]> ∅)
            : gmap string (option LooseVersion)) !! ""%string).
Proof.
  apply (proj2 (proj2 (proj2 lines_to_requirements_dict))
           ["a==1.0"%string; ""%string] ""%string).
  - right. left.
  - constructor.
  - reflexivity.
Defined.

(** ** Selecting targets *)

Lemma contains_go_lacks c l : c ∉ l → Py.contains_go [c] l = false.
Proof.
  induction l as [|x l IH]; intros Hno; simpl; [done|].
  apply not_elem_of_cons in Hno as [Hx Hno].
  destruct (Ascii.eqb c x) eqn:E; [apply Ascii.eqb_eq in E; done|].
  by apply IH.
Qed.

Lemma contains_go_prefix sub s : Py.prefix_of sub s = true → Py.contains_go sub s = true.
Proof. intros Hp. destruct s; simpl; by rewrite Hp. Qed.

Lemma contains_go_app sub a b : Py.contains_go sub (a ++ sub ++ b) = true.
Proof.
  induction a as [|x a IH].
  - rewrite app_nil_l. apply contains_go_prefix, prefix_of_app.
  - simpl. rewrite IH. by destruct (Py.prefix_of sub (x :: a ++ sub ++ b)).
Qed.

Lemma contains_lacks c s : lacks c s → Py.contains (String c "") s = false.
Proof. intros Hno. unfold Py.contains. by apply contains_go_lacks. Qed.

Lemma contains_app sub a b : Py.contains sub (a +:+ sub +:+ b) = true.
Proof. unfold Py.contains. rewrite !chars_app. apply contains_go_app. Qed.

Lemma select_filter names vpys : ∀ r,
  Deploy.select vpys names = Ok r →
  r = List.filter (fun v => match Deploy.any_match v names with
                            | Ok true => true
                            | _ => false
                            end) vpys.
Proof.
  induction vpys as [|v vpys IH]; intros r; simpl; [by intros [= <-]|].
  destruct (Deploy.any_match v names) as [b|]; simpl; [|done].
  destruct (Deploy.select vpys names) as [rest|]; simpl; [|done].
  intros [= <-]. rewrite <- (IH rest eq_refl). by destruct b.
Qed.

Lemma select_empty_query vpys : Deploy.select vpys (Py.split "" "," None) = Ok vpys.
Proof.
  induction vpys as [|v vpys IH]; [done|].
  cbn [Deploy.select]. rewrite IH.
  change (Py.split "" "," None) with [""%string]. reflexivity.
Qed.

(** X14. The selection. When the selection of [task_deploy] returns, it
    returns the targets of the configuration that match one of the names, in
    the order of the configuration, each as often as it is configured. The
    empty string, which is what [task_deploy] is given when it is called
    without names, selects every target. *)
Theorem selection_keeps_order (vpys : list VirtualenvConf) :
  (∀ names r,
     Deploy.select vpys names = Ok r →
     r = List.filter (fun v => match Deploy.any_match v names with
                               | Ok true => true
                               | _ => false
                               end) vpys)
  ∧ Deploy.select vpys (Py.split "" "," None) = Ok vpys.
Proof. split; [intros names r; apply select_filter | apply select_empty_query]. Qed.

Lemma selection_keeps_order_witness :
  [Ex.C; Ex.D]
  = List.filter (fun v => match Deploy.any_match v ["web2"%string] with
                          | Ok true => true
                          | _ => false
                          end) [Ex.A; Ex.C; Ex.B; Ex.D].
Proof.
  apply (proj1 (selection_keeps_order [Ex.A; Ex.C; Ex.B; Ex.D]) ["web2"%string]).
  reflexivity.
Defined.

(** X15. The queries of match. A query without [@] and [:] matches when it is
    empty or is the host name of the target; a query [user@host:path] whose
    parts hold no further [@] or [:] matches when the user is the owner of
    the virtualenv, the path is its path and the host part is empty or the
    host name. *)
Theorem match_queries (self : VirtualenvConf) :
  (∀ query,
     lacks "@" query → lacks ":" query →
     Vpy.matches self query
     = Ok (String.eqb query "" || String.eqb query (hostname (host self))))
  ∧ (∀ user h path,
       lacks "@" user → lacks "@" h → lacks ":" h → lacks "@" path → lacks ":" path →
       Vpy.matches self (user +:+ "@" +:+ h +:+ ":" +:+ path)
       = Ok (bool_decide (vpy_user self = Some user)
             && String.eqb (vpy_path self) path
             && (String.eqb h "" || String.eqb h (hostname (host self))))).
Proof.
  split.
  - intros query Hat Hcolon. unfold Vpy.matches.
    rewrite (contains_lacks "@" query Hat). simpl.
    rewrite (contains_lacks ":" query Hcolon). simpl.
    by destruct (String.eqb query "").
  - intros user h path Hu Hh1 Hh2 Hp1 Hp2. unfold Vpy.matches.
    rewrite (contains_app "@" user (h +:+ ":" +:+ path)).
    rewrite (split_first user "@" _ "@"%char [] None); try done.
    rewrite (split_none (h +:+ ":" +:+ path) "@" "@"%char []); try done.
    2: { apply lacks_app. split; [done|]. apply lacks_app. split; [lacks_literal|done]. }
    simpl. destruct (decide (vpy_user self = Some user)) as [Hus|Hus].
    + rewrite bool_decide_true by done. simpl.
      rewrite (contains_app ":" h path).
      rewrite (split_first h ":" _ ":"%char [] None); try done.
      rewrite (split_none path ":" ":"%char []); try done. simpl.
      destruct (String.eqb (vpy_path self) path); simpl; [|done].
      by destruct (String.eqb h "").
    + by rewrite bool_decide_false.
Qed.

Lemma match_queries_witness :
  Vpy.matches Ex.A "web1" = Ok true
  ∧ Vpy.matches Ex.A ("deploy" +:+ "@" +:+ "web1" +:+ ":" +:+ "/srv/a") = Ok true
  ∧ Vpy.matches Ex.A ("root" +:+ "@" +:+ "" +:+ ":" +:+ "/srv/a") = Ok false.
Proof.
  split; [|split].
  - refine (proj1 (match_queries Ex.A) "web1" _ _); lacks_literal.
  - refine (proj2 (match_queries Ex.A) "deploy" "web1" "/srv/a" _ _ _ _ _); lacks_literal.
  - refine (proj2 (match_queries Ex.A) "root" "" "/srv/a" _ _ _ _ _); lacks_literal.
Defined.

(** X16. A query with two [@]. A query in which [@] occurs twice makes
    [match] raise [ValueError] for every target, and so makes the selection
    of [task_deploy] raise for every configuration with a target. *)
Theorem match_raises_on_second_at (self : VirtualenvConf) (a b c : string)
    (vpys : list VirtualenvConf) :
  lacks "@" a → lacks "@" b → lacks "@" c → lacks "," a → lacks "," b → lacks "," c →
  Vpy.matches self (a +:+ "@" +:+ b +:+ "@" +:+ c) = Raise ValueError
  ∧ Deploy.select (self :: vpys) (Py.split (a +:+ "@" +:+ b +:+ "@" +:+ c) "," None)
    = Raise ValueError.
Proof.
  intros Ha Hb Hc Ha' Hb' Hc'.
  assert (Vpy.matches self (a +:+ "@" +:+ b +:+ "@" +:+ c) = Raise ValueError) as Hm.
  { unfold Vpy.matches. rewrite (contains_app "@" a (b +:+ "@" +:+ c)).
    rewrite (split_first a "@" _ "@"%char [] None); try done.
    rewrite (split_first b "@" _ "@"%char [] None); try done.
    by rewrite (split_none c "@" "@"%char []). }
  split; [done|].
  rewrite (split_none _ "," ","%char []); try done.
  - cbn [Deploy.select Deploy.any_match]. by rewrite Hm.
  - repeat (apply lacks_app; split); done || lacks_literal.
Qed.

Lemma match_raises_on_second_at_witness :
  Vpy.matches Ex.A ("deploy" +:+ "@" +:+ "web1" +:+ "@" +:+ "web2") = Raise ValueError
  ∧ Deploy.select [Ex.A; Ex.B]
      (Py.split ("deploy" +:+ "@" +:+ "web1" +:+ "@" +:+ "web2") "," None)
    = Raise ValueError.
Proof.
  apply (match_raises_on_second_at Ex.A "deploy" "web1" "web2" [Ex.B]); lacks_literal.
Defined.

(** ** Skipped targets *)

(** X17. Skipped targets. A target whose plan has missing packages, or
    nothing to install, or whose update is not confirmed with j or y, is
    skipped: nothing is run on it besides the version probe and [pip freeze],
    nothing is written to the release log, it is not counted as updated, and
    the run goes on with the reloads, for the hosts of the targets updated
    before it in the order in which their set is iterated, and the next
    target. *)
Theorem skipped_target (self : LocalConf) (world : World) (vpy : VirtualenvConf)
    (s : State) (pv : PyVersionInfo) (installed : gmap string (option LooseVersion))
    (plan : ToInstallResult) :
  py_version world (trace s) vpy = Ok pv →
  installed_pkgs world (trace s ++ [EvRun vpy CmdPyVersion]) vpy = Ok installed →
  Planner.get_pkgs_to_install installed vpy (latest_pkg s) pv = Ok plan →
  (missing plan ≠ [] →
   Deploy.deploy_vpy self world vpy s
   = (Raise Skip,
      after s (planning_events vpy plan
               ++ [EvWarn ("skipping " +:+ Vpy.unicode vpy +:+ ": missing packages: "
                           +:+ Py.join ", " (missing plan))])))
  ∧ (missing plan = [] → installables plan = [] →
     Deploy.deploy_vpy self world vpy s = (Raise Skip, after s (planning_events vpy plan)))
  ∧ (missing plan = [] → installables plan ≠ [] →
     let confirm := answer world (trace s ++ planning_events vpy plan) vpy in
     String.eqb (Py.lower confirm) "j" || String.eqb (Py.lower confirm) "y" = false →
     Deploy.deploy_vpy self world vpy s
     = (Raise Skip, after s (planning_events vpy plan ++ [EvPrompt vpy])))
  ∧ (∀ vpys rest s1,
       Deploy.deploy_vpy self world vpy s = (Raise Skip, s1) →
       Deploy.deploy_loop self world vpys (vpy :: rest) s
       = Deploy.deploy_loop self world vpys rest
           (after s1 (flat_map
                        (fun h => Spec.reload_events h
                                    (filter (fun v => Host.same (host v) h = true) vpys))
                        (Deploy.reload_order world s1)))).
Proof.
  intros Hpv Hinst Hplan.
  assert (∀ evs1 evs2, after (after s evs1) evs2 = after s (evs1 ++ evs2)) as Haft
    by (intros; apply after_app).
  split; [|split; [|split]];
    [unfold Deploy.deploy_vpy, Vpy.get_py_version, Vpy.get_pkgs_to_install,
       Vpy.get_installed_pkgs, Deploy.prompt, planning_events..|].
  - intros Hmiss. munfold. simpl. rewrite Hpv. simpl. rewrite Hinst. simpl.
    rewrite Hplan. simpl.
    destruct (ahead plan); simpl; (destruct (missing plan); [done|]); simpl;
      unfold after; simpl; by rewrite <- ?app_assoc.
  - intros Hmiss Hnone. munfold. simpl. rewrite Hpv. simpl. rewrite Hinst. simpl.
    rewrite Hplan. simpl. rewrite Hmiss, Hnone.
    destruct (ahead plan); simpl; unfold after; simpl; by rewrite <- ?app_assoc.
  - intros Hmiss Hsome. cbv zeta. intros Hno. munfold. simpl. rewrite Hpv. simpl.
    rewrite Hinst. simpl. rewrite Hplan. simpl. rewrite Hmiss.
    destruct (installables plan) as [|w ws]; [done|].
    destruct (ahead plan); simpl in *; rewrite <- ?app_assoc in *; simpl in *;
      rewrite Hno; unfold after; simpl; by rewrite <- ?app_assoc.
  - intros vpys rest s1 Hskip. unfold Deploy.deploy_loop. cbn [for_each].
    rewrite !bind_eq. unfold except_Skip. rewrite Hskip.
    by rewrite reload_updated_eq.
Qed.

Lemma skipped_target_witness :
  Deploy.deploy_vpy (Ex.conf [Ex.B]) (Ex.world Ex.nothing_fails) Ex.B
    (Ex.start Ex.repo_ab ∅)
  = (Raise Skip,
     after (Ex.start Ex.repo_ab ∅) [EvRun Ex.B CmdPyVersion; EvRun Ex.B CmdFreeze])
  ∧ Deploy.deploy_vpy (Ex.conf [Ex.A]) Cases.declining Ex.A (Ex.start Ex.repo_ab ∅)
    = (Raise Skip,
       after (Ex.start Ex.repo_ab ∅)
         [EvRun Ex.A CmdPyVersion; EvRun Ex.A CmdFreeze; EvPrompt Ex.A]).
Proof.
  split.
  - refine (proj1 (proj2 (skipped_target (Ex.conf [Ex.B]) (Ex.world Ex.nothing_fails)
                            Ex.B (Ex.start Ex.repo_ab ∅) {| major := 3; minor := 7 |} ∅
                            {| installables := []; missing := []; ahead := [] |}
                            _ _ _)) _ _); reflexivity.
  - refine (proj1 (proj2 (proj2
              (skipped_target (Ex.conf [Ex.A]) Cases.declining
                 Ex.A (Ex.start Ex.repo_ab ∅) {| major := 3; minor := 7 |} ∅
                 {| installables := [Ex.wheel_a]; missing := []; ahead := [] |}
                 _ _ _))) _ _ _); first [reflexivity | discriminate | vm_compute; reflexivity].
Defined.

(** ** What a run touches *)

Lemma extends_refl targets s : extends targets s s [].
Proof. split; [apply continues_refl | done]. Qed.

Lemma extends_trans targets s1 s2 s3 evs1 evs2 :
  extends targets s1 s2 evs1 → extends targets s2 s3 evs2 →
  extends targets s1 s3 (evs1 ++ evs2).
Proof.
  intros (Hc1 & Hl1 & Hf1 & Hw1) (Hc2 & Hl2 & Hf2 & Hw2).
  split; [by eapply continues_trans|]. repeat split; [congruence..|auto].
Qed.

Section frames.

Context {A B : Type} (targets : list VirtualenvConf) (P : Event → Prop).

Lemma frames_ret (a : A) : frames targets P (mret a).
Proof. intros s. exists []. split; [apply extends_refl | constructor]. Qed.

Lemma frames_raise e : frames targets P (raise e : M A).
Proof. intros s. exists []. split; [apply extends_refl | constructor]. Qed.

Lemma frames_lift (r : result A) : frames targets P (lift r).
Proof. intros s. exists []. split; [apply extends_refl | constructor]. Qed.

Lemma frames_bind (m : M A) (k : A → M B) :
  frames targets P m → (∀ a, frames targets P (k a)) → frames targets P (m ≫= k).
Proof.
  intros Hm Hk s. destruct (Hm s) as (evs1 & Hc1 & HP1).
  unfold mbind, M_bind. destruct (m s) as [[a|e] s1] eqn:Hms; simpl in *.
  - destruct (Hk a s1) as (evs2 & Hc2 & HP2).
    exists (evs1 ++ evs2). split; [by eapply extends_trans | by apply Forall_app].
  - by exists evs1.
Qed.

Lemma frames_weaken (Q : Event → Prop) (m : M A) :
  (∀ e, P e → Q e) → frames targets P m → frames targets Q m.
Proof.
  intros HPQ Hm s. destruct (Hm s) as (evs & Hc & HP).
  exists evs. split; [done|]. eapply Forall_impl; eauto.
Qed.

End frames.

Lemma frames_emit targets (P : Event → Prop) e : P e → frames targets P (emit e).
Proof.
  intros HP s. exists [e]. split; [|by repeat constructor]. by repeat split.
Qed.

Lemma frames_history targets P : frames targets P history.
Proof. intros s. exists []. split; [apply extends_refl | constructor]. Qed.

Lemma frames_get_latest_pkg targets P : frames targets P get_latest_pkg.
Proof. intros s. exists []. split; [apply extends_refl | constructor]. Qed.

Lemma frames_get_updated_vpys targets P : frames targets P get_updated_vpys.
Proof. intros s. exists []. split; [apply extends_refl | constructor]. Qed.

Lemma frames_except_Skip targets P body :
  frames targets P body → frames targets P (except_Skip body).
Proof.
  intros Hb s. destruct (Hb s) as (evs & Hc & HP). exists evs.
  unfold except_Skip. by destruct (body s) as [[[]|[]] s1].
Qed.

Lemma frames_for_each {A} targets P (l : list A) body :
  (∀ x, x ∈ l → frames targets P (body x)) → frames targets P (for_each l body).
Proof.
  induction l as [|x l IH]; intros Hb; simpl.
  - apply frames_ret.
  - apply frames_bind; [apply Hb; left|].
    intros _. apply IH. intros y Hy. apply Hb. by right.
Qed.

Lemma frames_add_updated targets P vpy :
  vpy ∈ targets → frames targets P (Deploy.add_updated vpy).
Proof.
  intros Hvpy s. exists []. split; [|constructor].
  unfold Deploy.add_updated. munfold. simpl.
  destruct (existsb _ _); simpl; repeat split; try (by rewrite app_nil_r); try done.
  - intros u Hu. apply elem_of_app. by left.
  - intros Hin u [Hu | ->%list_elem_of_singleton]%elem_of_app; auto.
Qed.

Create HintDb frames discriminated.

Ltac frames_step :=
  lazymatch goal with
  | |- frames _ _ (mret _) => apply frames_ret
  | |- frames _ _ (raise _) => apply frames_raise
  | |- frames _ _ (lift _) => apply frames_lift
  | |- frames _ _ history => apply frames_history
  | |- frames _ _ get_latest_pkg => apply frames_get_latest_pkg
  | |- frames _ _ get_updated_vpys => apply frames_get_updated_vpys
  | |- frames _ _ (Deploy.add_updated _) => apply frames_add_updated; assumption
  | |- frames _ _ (emit _) => apply frames_emit; simpl; tauto
  | |- frames _ _ (_ ≫= _) => apply frames_bind; [|intros ?]
  | |- frames _ _ (for_each _ _) => apply frames_for_each; intros ? _
  | |- frames _ _ (if ?b then _ else _) => destruct b
  | |- frames _ _ (match ?x with _ => _ end) => destruct x
  | |- frames _ _ _ => solve [auto with frames nocore]
  end.

Section touched.

Variables (self : LocalConf) (world : World) (targets : list VirtualenvConf).

Hypothesis targets_distinct : distinct_ids targets.

Abbreviation about vpy := (fun e : Event => unconditional e ∨ modifies vpy e).

Lemma install_loop_frames vpy to_install rest : ∀ i,
  frames targets (about vpy) (Deploy.install_loop self world vpy to_install i rest).
Proof.
  induction rest as [|wheel rest IH]; intros i; cbn [Deploy.install_loop].
  - apply frames_ret.
  - unfold Deploy.put, Vpy.run, ReleaseLog.abort, ReleaseLog.add_install.
    repeat frames_step.
Qed.

#[local] Hint Resolve install_loop_frames : frames.

Lemma update_frames vpy to_install :
  vpy ∈ targets →
  frames targets (about vpy) (Deploy.update self world vpy to_install).
Proof.
  intros Hvpy.
  unfold Deploy.update, Deploy.migrate_loop, Vpy.run, ReleaseLog.abort,
    ReleaseLog.log_error, ReleaseLog.add_install, warn.
  repeat frames_step.
Qed.

(** [update] begins by counting its target as updated, and it stays so. *)
Lemma update_marks vpy to_install s :
  vpy ∈ targets → within targets s →
  vpy ∈ updated_vpys (Deploy.update self world vpy to_install s).2.
Proof.
  intros Hvpy Hwithin.
  assert (∃ s1, Deploy.add_updated vpy s = (Ok tt, s1)
                ∧ vpy ∈ updated_vpys s1) as (s1 & Hadd & Hu).
  { unfold Deploy.add_updated. munfold. simpl.
    destruct (existsb _ _) eqn:Hex.
    - apply existsb_exists in Hex as (u & Hu%list_elem_of_In & Hid%Nat.eqb_eq).
      exists s. split; [done|].
      by rewrite <- (targets_distinct u vpy (Hwithin u Hu) Hvpy Hid).
    - eexists. split; [done|]. simpl. apply elem_of_app. right. left. }
  unfold Deploy.update. rewrite bind_eq, Hadd.
  match goal with
  | |- vpy ∈ updated_vpys (?rest s1).2 =>
      assert (frames targets (about vpy) rest) as Hrest
  end.
  { unfold Deploy.migrate_loop, Vpy.run, ReleaseLog.abort,
      ReleaseLog.log_error, ReleaseLog.add_install, warn.
    repeat frames_step. }
  destruct (Hrest s1) as (evs & ([_ Hmono] & _) & _). by apply Hmono.
Qed.

Lemma allowed_mono upd1 upd2 e :
  (∀ u, u ∈ upd1 → u ∈ upd2) → allowed upd1 e → allowed upd2 e.
Proof.
  intros Hsub [He|(u & Hu & Hm)]; [by left|].
  right. exists u. split; [by apply Hsub | done].
Qed.

Lemma guarded_of_frames {A} (m : M A) :
  frames targets unconditional m → guarded targets m.
Proof.
  intros Hm s _. destruct (Hm s) as (evs & Hext & Hall). exists evs. split; [done|].
  eapply Forall_impl; [exact Hall|]. intros e He. by left.
Qed.

Lemma guarded_bind {A B} (m : M A) (k : A → M B) :
  guarded targets m → (∀ a, guarded targets (k a)) → guarded targets (m ≫= k).
Proof.
  intros Hm Hk s Hs. destruct (Hm s Hs) as (evs1 & Hc1 & HP1).
  unfold mbind, M_bind. destruct (m s) as [[a|e] s1] eqn:Hms; simpl in *.
  - assert (within targets s1) as Hs1 by (by apply Hc1).
    destruct (Hk a s1 Hs1) as (evs2 & Hc2 & HP2).
    exists (evs1 ++ evs2). split; [by eapply extends_trans|].
    apply Forall_app. split; [|done].
    eapply Forall_impl; [exact HP1|]. intros e. apply allowed_mono.
    by destruct Hc2 as ([_ Hmono] & _).
  - by exists evs1.
Qed.

Lemma guarded_except_Skip body :
  guarded targets body → guarded targets (except_Skip body).
Proof.
  intros Hb s Hs. destruct (Hb s Hs) as (evs & Hc & HP). exists evs.
  unfold except_Skip. by destruct (body s) as [[[]|[]] s1].
Qed.

Lemma guarded_for_each {A} (l : list A) body :
  (∀ x, x ∈ l → guarded targets (body x)) → guarded targets (for_each l body).
Proof.
  induction l as [|x l IH]; intros Hb; simpl.
  - apply guarded_of_frames, frames_ret.
  - apply guarded_bind; [apply Hb; left | intros _].
    apply IH. intros y Hy. apply Hb. by right.
Qed.

Lemma guarded_update vpy to_install :
  vpy ∈ targets → guarded targets (Deploy.update self world vpy to_install).
Proof.
  intros Hvpy s Hs. destruct (update_frames vpy to_install Hvpy s) as (evs & Hext & Hall).
  pose proof (update_marks vpy to_install s Hvpy Hs) as Hu.
  exists evs. split; [done|].
  eapply Forall_impl; [exact Hall|]. intros e [He|He]; [by left|].
  right. by exists vpy.
Qed.

Lemma guarded_deploy_vpy vpy :
  vpy ∈ targets → guarded targets (Deploy.deploy_vpy self world vpy).
Proof.
  intros Hvpy. unfold Deploy.deploy_vpy.
  apply guarded_bind; [|intros pv].
  { apply guarded_of_frames. unfold Vpy.get_py_version. repeat frames_step. }
  apply guarded_bind; [|intros plan].
  { apply guarded_of_frames.
    unfold Vpy.get_pkgs_to_install, Vpy.get_installed_pkgs. repeat frames_step. }
  apply guarded_bind; [|intros _].
  { apply guarded_of_frames. unfold warn. repeat frames_step. }
  destruct (missing plan).
  - destruct (installables plan).
    + apply guarded_of_frames, frames_raise.
    + apply guarded_bind; [|intros confirm].
      { apply guarded_of_frames. unfold Deploy.prompt. repeat frames_step. }
      destruct (_ || _); [by apply guarded_update|].
      apply guarded_of_frames, frames_raise.
  - apply guarded_of_frames. unfold warn. repeat frames_step.
Qed.

Lemma guarded_deploy_loop vpys rest :
  (∀ v, v ∈ rest → v ∈ targets) →
  guarded targets (Deploy.deploy_loop self world vpys rest).
Proof.
  intros Hrest. unfold Deploy.deploy_loop. apply guarded_for_each. intros vpy Hvpy.
  apply guarded_bind; [apply guarded_except_Skip, guarded_deploy_vpy; auto|intros _].
  apply guarded_of_frames.
  unfold Deploy.reload_updated, Host.reload_webservices, Vpy.run.
  repeat frames_step.
Qed.

End touched.

Lemma select_subset names vpys r v :
  Deploy.select vpys names = Ok r → v ∈ r → v ∈ vpys.
Proof.
  intros ->%select_filter Hv%list_elem_of_In.
  apply List.filter_In in Hv as [Hv _]. by apply list_elem_of_In.
Qed.

(** X18. What a run touches. The targets of the configuration are distinct
    objects. Whatever happens in a run of [task_deploy], it only adds to the
    trace, it leaves the repository and the local files as they are, it
    writes no release line, and every directory creation, transfer, install
    and migration is run on, and every install, error or aborting line is
    written under the name of, a target that is in the set of updated targets
    when the run ends, that is, one whose update was confirmed. *)
Theorem deploy_touches_only_updated_targets
    (self : LocalConf) (world : World) (vpy_names : string) (s : State) :
  distinct_ids (all_vpys self) →
  let r := Deploy.task_deploy self world vpy_names s in
  ∃ evs,
    trace r.2 = trace s ++ evs
    ∧ latest_pkg r.2 = latest_pkg s
    ∧ files r.2 = files s
    ∧ Forall (allowed (updated_vpys r.2)) evs.
Proof.
  intros Hdistinct.
  unfold Deploy.task_deploy. cbv zeta. rewrite bind_eq. unfold lift at 1.
  destruct (Deploy.select _ _) as [vpys|e] eqn:Hsel; simpl.
  - rewrite bind_eq. unfold set_updated_vpys at 1. cbv beta iota.
    match goal with
    | |- context [Deploy.deploy_loop self world vpys vpys ?s0] =>
        destruct (guarded_deploy_loop self world (all_vpys self) Hdistinct vpys vpys
                    ltac:(intros v Hv; by eapply select_subset) s0)
          as (evs & ([Ht _] & Hl & Hf & _) & Hall)
    end.
    { by intros u ?%elem_of_nil. }
    exists evs. by repeat split.
  - exists []. repeat split; [by rewrite app_nil_r | constructor].
Qed.

Lemma deploy_touches_only_updated_targets_witness :
  let r := Deploy.task_deploy (Ex.conf [Ex.B; Ex.A]) (Ex.world Ex.nothing_fails) ""
             (Ex.start Ex.repo_ab ∅) in
  ∃ evs,
    trace r.2 = [] ++ evs
    ∧ latest_pkg r.2 = Ex.repo_ab
    ∧ files r.2 = ∅
    ∧ Forall (allowed (updated_vpys r.2)) evs.
Proof.
  apply (deploy_touches_only_updated_targets (Ex.conf [Ex.B; Ex.A])
           (Ex.world Ex.nothing_fails) "" (Ex.start Ex.repo_ab ∅)).
  intros u v Hu Hv Hid. simpl in Hu, Hv.
  repeat (apply elem_of_cons in Hu as [->|Hu]);
    repeat (apply elem_of_cons in Hv as [->|Hv]);
    first [reflexivity | discriminate Hid | by apply elem_of_nil in Hu
          | by apply elem_of_nil in Hv].
Defined.

(** ** Failed migrations *)

Section migrations.

Variables (world : World) (vpy : VirtualenvConf) (to_install : list string).

Hypothesis to_install_ne : to_install ≠ [].

Abbreviation migrate_round :=
  (fun proj : ProjectConf =>
     if migrate proj then
       r ← Vpy.run world vpy (CmdMigrate proj);
       if r : bool then mret tt
       else
         installed ← lift (Deploy.join_wheel_attr to_install);
         ReleaseLog.log_error vpy
           ("could not migrate in " +:+ settings_module proj
            +:+ " after installing " +:+ installed)
     else mret tt).

Lemma migrate_rounds l : ∀ s,
  ∃ ps,
    (for_each l migrate_round s).2
    = after s (map (fun p => EvRun vpy (CmdMigrate p)) ps)
    ∧ ps `prefix_of` filter (fun p => migrate p = true) l
    ∧ match (for_each l migrate_round s).1 with
      | Ok _ => ps = filter (fun p => migrate p = true) l
      | Raise e => e = AttributeError
      end.
Proof.
  induction l as [|p l IH]; intros s.
  - exists []. simpl. by rewrite after_nil.
  - cbn [for_each]. rewrite bind_eq, filter_cons.
    destruct (migrate p) eqn:Hp.
    + rewrite decide_True by done. mstep.
      destruct (succeeded world (trace s) (EvRun vpy (CmdMigrate p))); mstep.
      * destruct (IH (after s [EvRun vpy (CmdMigrate p)])) as (ps & Hs & Hpre & Hout).
        exists (p :: ps). rewrite Hs, after_app. split; [done|].
        split; [by apply prefix_cons|].
        destruct (for_each l _ _).1; [by f_equal | done].
      * exists [p]. destruct to_install; [done|]. simpl.
        split; [done|]. split; [|done]. apply prefix_cons, prefix_nil.
    + rewrite decide_False by done. mstep. apply IH.
Qed.

Lemma migrate_rounds_fail l proj : ∀ s,
  proj ∈ l → migrate proj = true →
  (∀ h, succeeded world h (EvRun vpy (CmdMigrate proj)) = false) →
  (for_each l migrate_round s).1 = Raise AttributeError.
Proof.
  induction l as [|p l IH]; intros s Hin Hm Hfail; [by apply elem_of_nil in Hin|].
  cbn [for_each]. rewrite bind_eq.
  destruct (migrate p) eqn:Hp.
  - mstep.
    destruct (succeeded world (trace s) (EvRun vpy (CmdMigrate p))) eqn:Hok; mstep.
    + apply elem_of_cons in Hin as [->|Hin]; [by rewrite Hfail in Hok|]. by apply IH.
    + by destruct to_install.
  - mstep. apply elem_of_cons in Hin as [->|Hin]; [congruence|]. by apply IH.
Qed.

Lemma install_loop_outcome self rest : ∀ i s,
  match (Deploy.install_loop self world vpy to_install i rest s).1 with
  | Ok _ => True
  | Raise e => e = SystemExit ∨ e = AttributeError
  end.
Proof.
  induction rest as [|wheel rest IH]; intros i s; [done|].
  cbn [Deploy.install_loop].
  destruct (String.eqb (hostname (host vpy)) "localhost").
  - mstep. destruct (succeeded world _ _); mstep; [apply IH|].
    unfold Deploy.join_wheel_attr. destruct (take i to_install); mstep; auto.
  - mstep. destruct (succeeded world _ _); mstep; [|auto].
    destruct (succeeded world _ _); mstep; [apply IH|].
    unfold Deploy.join_wheel_attr. destruct (take i to_install); mstep; auto.
Qed.

#[local] Arguments lift : simpl never.

Lemma migrate_rounds_quiet l : ∀ s,
  ∃ evs,
    (for_each l migrate_round s).2 = after s evs
    ∧ Forall no_abort evs
    ∧ match (for_each l migrate_round s).1 with
      | Ok _ => True
      | Raise e => e = AttributeError
      end.
Proof.
  remember (Deploy.join_wheel_attr to_install) as joined eqn:Hj.
  assert (joined = Ok ""%string ∨ joined = Raise AttributeError) as Hcases
    by (subst joined; clear; destruct to_install; auto).
  clear Hj.
  induction l as [|p l IH]; intros s.
  - exists []. simpl. by rewrite after_nil.
  - cbn [for_each]. rewrite bind_eq.
    destruct (migrate p); [|mstep; apply IH].
    mstep.
    destruct (succeeded world (trace s) (EvRun vpy (CmdMigrate p))); mstep.
    + destruct (IH (after s [EvRun vpy (CmdMigrate p)])) as (evs & Hs & Hq & Hout).
      exists (EvRun vpy (CmdMigrate p) :: evs). rewrite Hs, after_app.
      split; [done|]. split; [|done]. by constructor.
    + destruct Hcases as [-> | ->]; mstep.
      * match goal with
        | |- context [for_each l _ ?s1] =>
            destruct (IH s1) as (evs & Hs & Hq & Hout)
        end.
        eexists. rewrite Hs. split; [|split; [|done]].
        -- unfold after. simpl. rewrite <- !app_assoc. reflexivity.
        -- simpl. by repeat (apply List.Forall_cons; [exact I|]).
      * exists [EvRun vpy (CmdMigrate p)]. split; [done|]. split; [|done].
        by repeat constructor.
Qed.

Lemma migrate_loop_quiet s :
  ∃ evs,
    (Deploy.migrate_loop world vpy to_install s).2 = after s evs
    ∧ Forall no_abort evs
    ∧ match (Deploy.migrate_loop world vpy to_install s).1 with
      | Ok _ => True
      | Raise e => e = AttributeError
      end.
Proof. apply migrate_rounds_quiet. Qed.

End migrations.

(** X19. Failed migrations. When wheels were installed, the migrations of a
    target run in the order of its projects until the first one fails; a
    failed migration writes no error line and gives no warning, it raises
    [AttributeError] while the message is put together. The update of the
    target then does not come to its end: it raises [AttributeError] or
    [SystemExit], and the install lines after the migrations are not
    written. *)
Theorem failed_migration_raises (world : World) (vpy : VirtualenvConf)
    (to_install : list string) :
  to_install ≠ [] →
  (∀ s, ∃ ps,
     (Deploy.migrate_loop world vpy to_install s).2
     = after s (map (fun p => EvRun vpy (CmdMigrate p)) ps)
     ∧ ps `prefix_of` migrations vpy
     ∧ match (Deploy.migrate_loop world vpy to_install s).1 with
       | Ok _ => ps = migrations vpy
       | Raise e => e = AttributeError
       end)
  ∧ (∀ proj,
       proj ∈ migrations vpy →
       (∀ h, succeeded world h (EvRun vpy (CmdMigrate proj)) = false) →
       (∀ s, (Deploy.migrate_loop world vpy to_install s).1 = Raise AttributeError)
       ∧ (∀ self s,
            (Deploy.update self world vpy to_install s).1 = Raise AttributeError
            ∨ (Deploy.update self world vpy to_install s).1 = Raise SystemExit)).
Proof.
  intros Hne. split; [intros s; by apply migrate_rounds|].
  intros proj [Hm Hin]%list_elem_of_filter Hfail.
  assert (∀ s, (Deploy.migrate_loop world vpy to_install s).1 = Raise AttributeError)
    as Hloop by (intros s; by eapply migrate_rounds_fail).
  split; [done|]. intros self s.
  unfold Deploy.update. destruct (add_updated_trace vpy s) as (s1 & Hadd & _).
  rewrite bind_eq, Hadd. mstep.
  destruct (succeeded world _ _); mstep; [|by right].
  pose proof (install_loop_outcome world vpy to_install self to_install 0
                (after s1 [EvRun vpy (CmdMkdir (Vpy.wheels vpy))])) as Hout.
  destruct (Deploy.install_loop _ _ _ _ _ _ _) as [[[]|e] s2]; mstep.
  - specialize (Hloop s2).
    destruct (Deploy.migrate_loop world vpy to_install s2) as [[[]|e] s3];
      simpl in Hloop; [done|]. mstep. left. done.
  - simpl in Hout. destruct Hout as [-> | ->]; auto.
Qed.

Lemma failed_migration_raises_witness :
  let world := Ex.world Cases.migrate_fails in
  (∀ s, (Deploy.migrate_loop world Cases.with_project [Ex.wheel_a] s).1
        = Raise AttributeError)
  ∧ (∀ self s,
       (Deploy.update self world Cases.with_project [Ex.wheel_a] s).1 = Raise AttributeError
       ∨ (Deploy.update self world Cases.with_project [Ex.wheel_a] s).1 = Raise SystemExit).
Proof.
  refine (proj2 (failed_migration_raises (Ex.world Cases.migrate_fails) Cases.with_project
                   [Ex.wheel_a] _) Cases.shop _ _).
  - discriminate.
  - vm_compute. left.
  - intros h. reflexivity.
Defined.

(** ** Exits *)

Lemma abort_shape_app vpy r pre evs :
  Forall no_abort pre → abort_shape vpy r evs → abort_shape vpy r (pre ++ evs).
Proof.
  intros Hpre. destruct r as [[]|e]; simpl.
  - intros Hevs. by apply Forall_app.
  - destruct e; try (intros [He Hevs]; split; [done | by apply Forall_app]).
    intros (evs' & msg & -> & Hevs' & Hmsg).
    exists (pre ++ evs'), msg. rewrite app_assoc. split; [done|].
    split; [by apply Forall_app | done].
Qed.

Lemma abort_shape_exit vpy pre msg :
  Forall no_abort pre → abort_message msg →
  abort_shape vpy (Raise SystemExit) (pre ++ [EvLog (LAborting (Vpy.unicode vpy) msg)]).
Proof. intros Hpre Hmsg. by exists pre, msg. Qed.

Ltac quiet_list :=
  simpl; repeat (apply List.Forall_cons; [exact I|]); apply List.Forall_nil.

Lemma install_loop_exit self world vpy to_install rest : ∀ i s,
  ∃ evs,
    (Deploy.install_loop self world vpy to_install i rest s).2 = after s evs
    ∧ abort_shape vpy (Deploy.install_loop self world vpy to_install i rest s).1 evs.
Proof.
  induction rest as [|wheel rest IH]; intros i s.
  - exists []. simpl. by rewrite after_nil.
  - cbn [Deploy.install_loop].
    destruct (String.eqb (hostname (host vpy)) "localhost").
    + mstep. destruct (succeeded world _ _); mstep; rewrite ?after_app.
      * match goal with
        | |- context [Deploy.install_loop _ _ _ _ _ _ (after s ?pre)] =>
            destruct (IH (S i) (after s pre)) as (evs & Hs & Hshape);
            exists (pre ++ evs)
        end.
        rewrite Hs, !after_app. split; [reflexivity|].
        apply abort_shape_app; [quiet_list | done].
      * unfold Deploy.join_wheel_attr. destruct (take i to_install); mstep;
          rewrite ?after_app.
        -- eexists. split; [reflexivity|].
           apply (abort_shape_exit vpy [_]); [quiet_list|].
           right. eexists. by right.
        -- eexists. split; [reflexivity|]. split; [done | quiet_list].
    + mstep. destruct (succeeded world _ _); mstep; rewrite ?after_app.
      * destruct (succeeded world _ _); mstep; rewrite ?after_app.
        -- match goal with
           | |- context [Deploy.install_loop _ _ _ _ _ _ (after s ?pre)] =>
               destruct (IH (S i) (after s pre)) as (evs & Hs & Hshape);
               exists (pre ++ evs)
           end.
           rewrite Hs, !after_app. split; [reflexivity|].
           apply abort_shape_app; [quiet_list | done].
        -- unfold Deploy.join_wheel_attr. destruct (take i to_install); mstep;
             rewrite ?after_app.
           ++ eexists. split; [reflexivity|].
              apply (abort_shape_exit vpy [_; _]); [quiet_list|].
              right. eexists. by right.
           ++ eexists. split; [reflexivity|]. split; [done | quiet_list].
      * eexists. split; [reflexivity|].
        apply (abort_shape_exit vpy [_]); [quiet_list|].
        right. eexists. by left.
Qed.

Arguments abort_shape : simpl never.

Lemma update_exit self world vpy to_install s :
  ∃ evs,
    trace (Deploy.update self world vpy to_install s).2 = trace s ++ evs
    ∧ abort_shape vpy (Deploy.update self world vpy to_install s).1 evs.
Proof.
  unfold Deploy.update.
  destruct (add_updated_trace vpy s) as (s1 & Hadd & Ht1 & _).
  rewrite bind_eq, Hadd. mstep. rewrite <- Ht1.
  destruct (succeeded world _ _); mstep.
  - destruct (install_loop_exit self world vpy to_install to_install 0
                (after s1 [EvRun vpy (CmdMkdir (Vpy.wheels vpy))]))
      as (evs2 & Hs2 & Hshape2).
    destruct (Deploy.install_loop _ _ _ _ _ _ _) as [[[]|e] s2]; simpl in Hs2, Hshape2;
      subst s2; mstep.
    + destruct (migrate_loop_quiet world vpy to_install
                  (after (after s1 [EvRun vpy (CmdMkdir (Vpy.wheels vpy))]) evs2))
        as (evs3 & Hs3 & Hq3 & Hout3).
      destruct (Deploy.migrate_loop _ _ _ _) as [[[]|e] s3]; simpl in Hs3, Hout3;
        subst s3; mstep.
      * rewrite (for_each_after (fun wheel => ReleaseLog.add_install vpy wheel)
                   (fun w => [EvLog (LInstall (Vpy.unicode vpy) w)]) to_install _
                   (fun x s => add_install_eq vpy x s)).
        exists ([EvRun vpy (CmdMkdir (Vpy.wheels vpy))] ++ evs2 ++ evs3
                ++ flat_map (fun w => [EvLog (LInstall (Vpy.unicode vpy) w)]) to_install).
        split; [simpl; by rewrite <- !app_assoc|].
        unfold abort_shape in *. apply Forall_app. split; [by repeat constructor|].
        apply Forall_app. split; [done|]. apply Forall_app. split; [done|].
        clear. induction to_install; simpl; by constructor.
      * subst e. exists ([EvRun vpy (CmdMkdir (Vpy.wheels vpy))] ++ evs2 ++ evs3).
        split; [simpl; by rewrite <- !app_assoc|].
        unfold abort_shape in *. split; [done|].
        apply Forall_app. split; [by repeat constructor|]. by apply Forall_app.
    + exists ([EvRun vpy (CmdMkdir (Vpy.wheels vpy))] ++ evs2).
      split; [simpl; by rewrite <- !app_assoc|].
      apply abort_shape_app; [by repeat constructor | done].
  - eexists [_; _]. rewrite <- app_assoc. split; [reflexivity|].
    apply (abort_shape_exit vpy [_]); [by repeat constructor | by left].
Qed.

(** X20. Exits. An update that ends with [SystemExit] has written an
    aborting line naming its target as its last event, with one of the three
    messages of [task_deploy], and no other aborting line; an update that
    ends otherwise has written none, and the only other exception it raises
    is [AttributeError]. An exception other than [Skip] raised for a target
    ends the run at once, in the state the target was left in: no reload, no
    later target. *)
Theorem exit_follows_aborting_line (self : LocalConf) (world : World)
    (vpy : VirtualenvConf) :
  (∀ to_install s,
     ∃ evs,
       trace (Deploy.update self world vpy to_install s).2 = trace s ++ evs
       ∧ abort_shape vpy (Deploy.update self world vpy to_install s).1 evs)
  ∧ (∀ vpys rest s e s1,
       Deploy.deploy_vpy self world vpy s = (Raise e, s1) →
       e ≠ Skip →
       Deploy.deploy_loop self world vpys (vpy :: rest) s = (Raise e, s1)).
Proof.
  split; [intros; apply update_exit | intros; by apply deploy_loop_stops].
Qed.

Lemma exit_follows_aborting_line_witness :
  let world := Ex.world Cases.mkdir_fails in
  let s := Ex.start Ex.repo_ab ∅ in
  Deploy.deploy_loop (Ex.conf [Ex.A; Ex.C]) world [Ex.A; Ex.C] [Ex.A; Ex.C] s
  = (Raise SystemExit,
     {| trace := [EvRun Ex.A CmdPyVersion; EvRun Ex.A CmdFreeze; EvPrompt Ex.A;
                  EvRun Ex.A (CmdMkdir "/srv/a/wheels");
                  EvLog (LAborting "web1:/srv/a" "cannot create wheel directory")];
        updated_vpys := [Ex.A]; latest_pkg := Ex.repo_ab; files := ∅ |}).
Proof.
  refine (proj2 (exit_follows_aborting_line (Ex.conf [Ex.A; Ex.C])
                   (Ex.world Cases.mkdir_fails) Ex.A)
            [Ex.A; Ex.C] [Ex.C] (Ex.start Ex.repo_ab ∅) SystemExit _ _ _).
  - vm_compute. reflexivity.
  - discriminate.
Defined.

(** ** The release log and the repository in step *)

Section in_step.

Context {pip : Pip}.

Lemma add_release_eq pkg version wheel s :
  ReleaseLog.add_release pkg version wheel s
  = match Repository.add_wheel (latest_pkg s) pkg version wheel with
    | Ok (repo', _) =>
        (Ok tt, {| trace := trace s ++ [EvLog (LRelease pkg version wheel)];
                   updated_vpys := updated_vpys s; latest_pkg := repo';
                   files := files s |})
    | Raise e => (Raise e, after s [EvLog (LRelease pkg version wheel)])
    end.
Proof.
  unfold ReleaseLog.add_release. munfold. simpl.
  by destruct (Repository.add_wheel _ _ _ _) as [[r b]|].
Qed.

Lemma log_lines_app evs1 evs2 : log_lines (evs1 ++ evs2) = log_lines evs1 ++ log_lines evs2.
Proof. apply omap_app. Qed.

Lemma in_step_quiet {A} (m : M A) :
  (∀ s, (m s).2 = s) → in_step m.
Proof.
  intros Hm s. exists []. rewrite Hm, app_nil_r. by repeat split.
Qed.

Lemma in_step_bind {A B} (m : M A) (k : A → M B) :
  in_step m → (∀ a, in_step (k a)) → in_step (m ≫= k).
Proof.
  intros Hm Hk s. destruct (Hm s) as (evs1 & Ht1 & Hu1 & Hf1 & Hall1 & Hr1).
  unfold mbind, M_bind. destruct (m s) as [[a|e] s1] eqn:Hms; simpl in *.
  - destruct (Hk a s1) as (evs2 & Ht2 & Hu2 & Hf2 & Hall2 & Hr2).
    exists (evs1 ++ evs2). split; [by rewrite Ht2, Ht1, app_assoc|].
    split; [congruence|]. split; [set_solver|]. split; [by apply Forall_app|].
    intros b Hb. rewrite log_lines_app, released_app, (Hr1 a eq_refl). simpl.
    by eapply Hr2.
  - exists evs1. repeat split; try done.
Qed.

Lemma in_step_warn msg : in_step (warn msg).
Proof.
  intros s. exists [EvWarn msg]. repeat split; try done. by repeat constructor.
Qed.

Lemma in_step_copy path target_path : in_step (Intake.copy path target_path).
Proof.
  intros s. exists []. unfold Intake.copy. munfold. simpl.
  destruct (decide (path ∈ files s)); simpl; rewrite app_nil_r;
    repeat split; try done; try constructor.
  set_solver.
Qed.

Lemma in_step_add_release pkg version wheel :
  in_step (ReleaseLog.add_release pkg version wheel).
Proof.
  intros s. exists [EvLog (LRelease pkg version wheel)]. rewrite add_release_eq.
  destruct (Repository.add_wheel _ _ _ _) as [[r b]|] eqn:Hadd; simpl;
    repeat split; try done; try (by repeat constructor).
  intros _ _. by rewrite Hadd.
Qed.

Ltac in_step_step :=
  lazymatch goal with
  | |- in_step (_ ≫= _) => apply in_step_bind; [|intros ?]
  | |- in_step (warn _) => apply in_step_warn
  | |- in_step (Intake.copy _ _) => apply in_step_copy
  | |- in_step (ReleaseLog.add_release _ _ _) => apply in_step_add_release
  | |- in_step (if ?b then _ else _) => destruct b
  | |- in_step (match ?x with _ => _ end) => destruct x
  | |- in_step _ => by apply in_step_quiet
  end.

Lemma in_step_add_path self path : in_step (Intake.add_path self path).
Proof.
  unfold Intake.add_path, Intake.check_existing, ReleaseLog.get_latest.
  repeat in_step_step.
Qed.

Lemma in_step_task_add_wheel self pathnames :
  in_step (Intake.task_add_wheel self pathnames).
Proof.
  induction pathnames as [|path rest IH]; cbn [Intake.task_add_wheel].
  - by apply in_step_quiet.
  - apply in_step_bind; [apply in_step_add_path|]. intros [].
    + by apply in_step_quiet.
    + apply IH.
Qed.

End in_step.



(** X22. What the intake leaves. Whatever paths [task_add_wheel] is given
    and however it ends, it adds only warnings and release lines to the
    trace and removes no local file; when it returns, the repository is the
    one that the release lines it wrote, given in order to
    [PkgRepository.add_wheel], make of the repository it found. *)
Theorem intake_keeps_repository_in_step (pip : Pip) (self : LocalConf)
    (pathnames : list string) (s : State) :
  let r := Intake.task_add_wheel self pathnames s in
  ∃ evs,
    trace r.2 = trace s ++ evs
    ∧ updated_vpys r.2 = updated_vpys s
    ∧ files s ⊆ files r.2
    ∧ Forall intake_event evs
    ∧ (r.1 = Ok tt → released (latest_pkg s) (log_lines evs) = Ok (latest_pkg r.2)).
Proof.
  destruct (in_step_task_add_wheel self pathnames s) as (evs & Ht & Hu & Hf & Hall & Hr).
  exists evs. repeat split; try done. apply Hr.
Qed.

Lemma intake_keeps_repository_in_step_witness :
  let r := Intake.task_add_wheel (H := five_field_pyversions) (Ex.conf [])
             ["/in/a-1.0-py3-none-any.whl"%string; "/in/notes.txt"%string]
             (Ex.start ∅ {[ "/in/a-1.0-py3-none-any.whl"%string ]}) in
  released (H := five_field_pyversions) ∅ (log_lines (trace r.2)) = Ok (latest_pkg r.2).
Proof.
  cbv zeta.
  destruct (intake_keeps_repository_in_step five_field_pyversions (Ex.conf [])
              ["/in/a-1.0-py3-none-any.whl"%string; "/in/notes.txt"%string]
              (Ex.start ∅ {[ "/in/a-1.0-py3-none-any.whl"%string ]}))
    as (evs & Ht & _ & _ & _ & Hr).
  rewrite (Ht : _ = evs). apply Hr. vm_compute. reflexivity.
Defined.

(** ** The paths of the intake *)

Section intake.

Context {pip : Pip}.

Variables (self : LocalConf) (path : string) (s : State).

Abbreviation basepath := (Py.basename path).
Abbreviation target_path := (Py.path_join (wheels self) (Py.basename path)).

Lemma add_path_checked pkg version x :
  Py.endswith path ".whl" = true →
  target_path ∉ files s →
  Py.split basepath "-" (Some 2) = [pkg; version; x] →
  Intake.add_path self path s
  = (returned ← Intake.check_existing basepath version (latest_pkg s !! pkg);
     if returned : bool then mret true
     else
       Intake.copy path target_path;;
       ReleaseLog.add_release (Py.replace_char "_" "-" pkg) version basepath;;
       mret false) s.
Proof.
  intros Hwhl Hnew Hsplit. unfold Intake.add_path. rewrite Hwhl.
  rewrite bind_eq. unfold get_files at 1. cbv beta iota.
  rewrite decide_False by done. rewrite Hsplit.
  unfold ReleaseLog.get_latest. rewrite !bind_eq. unfold get_latest_pkg at 1.
  cbv beta iota. reflexivity.
Qed.

Lemma check_existing_passes version existing_pkg tags :
  get_platform_tags basepath = Ok tags →
  (∀ e, existing_pkg = Some e →
     Version.lt (Version.new version) (PkgSpecList.version e) = Ok false) →
  Intake.check_existing basepath version existing_pkg s = (Ok false, s).
Proof.
  intros Ht Hcheck. unfold Intake.check_existing.
  destruct existing_pkg as [e|]; [|done].
  rewrite bind_eq. unfold lift at 1. rewrite (Hcheck e eq_refl). cbv beta iota.
  destruct (lt_returns _ _ _ (Hcheck e eq_refl)) as [Hcmp _].
  rewrite bind_eq. unfold lift at 1, Version.eq. rewrite Hcmp. simpl.
  destruct (Version.cmp _ _); [|done..].
  rewrite bind_eq. unfold lift at 1. rewrite Ht. cbv beta iota.
  by rewrite same_tags_never_found.
Qed.

Lemma copy_eq :
  path ∈ files s →
  Intake.copy path target_path s
  = (Ok tt, {| trace := trace s; updated_vpys := updated_vpys s;
               latest_pkg := latest_pkg s; files := files s ∪ {[target_path]} |}).
Proof.
  intros Hin. unfold Intake.copy. rewrite bind_eq. unfold get_files at 1.
  cbv beta iota. by rewrite decide_True by done.
Qed.

Lemma add_path_accepts pkg version x tags :
  Py.endswith path ".whl" = true →
  target_path ∉ files s →
  path ∈ files s →
  Py.split basepath "-" (Some 2) = [pkg; version; x] →
  get_platform_tags basepath = Ok tags →
  (∀ e, latest_pkg s !! pkg = Some e →
     Version.lt (Version.new version) (PkgSpecList.version e) = Ok false) →
  (∀ e, latest_pkg s !! Py.replace_char "_" "-" pkg = Some e →
     Version.has_version (Version.new version) = true
     ∧ Version.has_version (PkgSpecList.version e) = true) →
  ∃ repo' b,
    Repository.add_wheel (latest_pkg s) (Py.replace_char "_" "-" pkg) version basepath
    = Ok (repo', b)
    ∧ Intake.add_path self path s
      = (Ok false,
         {| trace := trace s
                     ++ [EvLog (LRelease (Py.replace_char "_" "-" pkg) version basepath)];
            updated_vpys := updated_vpys s;
            latest_pkg := repo';
            files := files s ∪ {[target_path]} |}).
Proof.
  intros Hwhl Hnew Hin Hsplit Ht Hcheck Hver.
  destruct (add_wheel_returns (latest_pkg s) (Py.replace_char "_" "-" pkg) version
              basepath tags Ht Hver) as (repo' & b & Hadd).
  exists repo', b. split; [done|].
  rewrite (add_path_checked pkg version x) by done.
  rewrite bind_eq, (check_existing_passes version _ tags) by done.
  rewrite bind_eq, copy_eq by done.
  rewrite bind_eq, add_release_eq. simpl. by rewrite Hadd.
Qed.

End intake.

(** X23. An accepted wheel. A path that ends in [.whl], whose file exists
    and is not yet in the wheel directory, whose name pip accepts, and for
    which the repository has no newer release under the name cut from the
    file name, is copied into the wheel directory and released: one release
    line is written, under the package name with every underscore turned
    into a dash, and the repository is what [PkgRepository.add_wheel] makes
    of it. The loop then goes on with the next path. The comparisons with the
    entries found under the name cut from the file name and under the name
    with dashes are taken to return: the version of the file name and the
    stored ones are not empty. *)
Theorem accepted_wheel_is_copied_and_released (pip : Pip) (self : LocalConf)
    (path : string) (rest : list string) (s : State) (pkg version x : string)
    (tags : list string) :
  Py.endswith path ".whl" = true →
  Py.path_join (wheels self) (Py.basename path) ∉ files s →
  path ∈ files s →
  Py.split (Py.basename path) "-" (Some 2) = [pkg; version; x] →
  get_platform_tags (Py.basename path) = Ok tags →
  (∀ e, latest_pkg s !! pkg = Some e →
     Version.lt (Version.new version) (PkgSpecList.version e) = Ok false) →
  (∀ e, latest_pkg s !! Py.replace_char "_" "-" pkg = Some e →
     Version.has_version (Version.new version) = true
     ∧ Version.has_version (PkgSpecList.version e) = true) →
  ∃ repo' b,
    Repository.add_wheel (latest_pkg s) (Py.replace_char "_" "-" pkg) version
      (Py.basename path) = Ok (repo', b)
    ∧ Intake.task_add_wheel self (path :: rest) s
      = Intake.task_add_wheel self rest
          {| trace := trace s
                      ++ [EvLog (LRelease (Py.replace_char "_" "-" pkg) version
                                   (Py.basename path))];
             updated_vpys := updated_vpys s;
             latest_pkg := repo';
             files := files s ∪ {[Py.path_join (wheels self) (Py.basename path)]} |}.
Proof.
  intros Hwhl Hnew Hin Hsplit Ht Hcheck Hver.
  destruct (add_path_accepts self path s pkg version x tags Hwhl Hnew Hin Hsplit Ht
              Hcheck Hver) as (repo' & b & Hadd & Hpath).
  exists repo', b. split; [done|].
  cbn [Intake.task_add_wheel]. by rewrite bind_eq, Hpath.
Qed.

Lemma accepted_wheel_is_copied_and_released_witness :
  ∃ repo' b,
    Repository.add_wheel (H := five_field_pyversions) ∅ "a" "1.0" "a-1.0-py3-none-any.whl"
    = Ok (repo', b)
    ∧ Intake.task_add_wheel (H := five_field_pyversions) (Ex.conf [])
        ["/in/a-1.0-py3-none-any.whl"%string]
        (Ex.start ∅ {[ "/in/a-1.0-py3-none-any.whl"%string ]})
      = (Ok tt,
         {| trace := [EvLog (LRelease "a" "1.0" "a-1.0-py3-none-any.whl")];
            updated_vpys := [];
            latest_pkg := repo';
            files := {[ "/in/a-1.0-py3-none-any.whl"%string ]}
                     ∪ {[ "/home/me/wheels/a-1.0-py3-none-any.whl"%string ]} |}).
Proof.
  refine (accepted_wheel_is_copied_and_released five_field_pyversions (Ex.conf [])
            "/in/a-1.0-py3-none-any.whl" [] (Ex.start ∅ {[ "/in/a-1.0-py3-none-any.whl"%string ]})
            "a" "1.0" "py3-none-any.whl" ["py3"%string] _ _ _ _ _ _ _).
  - reflexivity.
  - simpl. set_solver.
  - simpl. set_solver.
  - reflexivity.
  - reflexivity.
  - simpl. no_entry.
  - simpl. no_entry.
Defined.

(** X24. Package names with an underscore. The repository is looked up
    under the name cut from the file name, the release is stored under the
    name with dashes. For a wheel whose file name has an underscore in the
    package name, and whose package is in the repository under the name with
    dashes in a newer version, the comparison of the two versions returning
    that the wheel is older, the look-up finds nothing: the out-of-date
    wheel is not turned away, it is copied and a release line is written for
    it, while the repository stays as it is. *)
Theorem underscore_name_skips_checks (pip : Pip) (self : LocalConf)
    (path : string) (rest : list string) (s : State) (pkg version x : string)
    (tags : list string) (e : PkgSpecList.t) :
  Py.endswith path ".whl" = true →
  Py.path_join (wheels self) (Py.basename path) ∉ files s →
  path ∈ files s →
  Py.split (Py.basename path) "-" (Some 2) = [pkg; version; x] →
  get_platform_tags (Py.basename path) = Ok tags →
  latest_pkg s !! pkg = None →
  latest_pkg s !! Py.replace_char "_" "-" pkg = Some e →
  Version.lt (Version.new version) (PkgSpecList.version e) = Ok true →
  Intake.task_add_wheel self (path :: rest) s
  = Intake.task_add_wheel self rest
      {| trace := trace s
                  ++ [EvLog (LRelease (Py.replace_char "_" "-" pkg) version
                               (Py.basename path))];
         updated_vpys := updated_vpys s;
         latest_pkg := latest_pkg s;
         files := files s ∪ {[Py.path_join (wheels self) (Py.basename path)]} |}.
Proof.
  intros Hwhl Hnew Hin Hsplit Ht Hnone Hsome Hlt.
  destruct (lt_returns _ _ _ Hlt) as [Hcmp Hlt'].
  apply compare_returns in Hcmp as (_ & Hv & Hstored).
  destruct (add_path_accepts self path s pkg version x tags Hwhl Hnew Hin Hsplit Ht)
    as (repo' & b & Hadd & Hpath).
  { intros e'. by rewrite Hnone. }
  { intros e'. rewrite Hsome. by intros [= <-]. }
  apply add_wheel_cases in Hadd. simpl in Hadd. rewrite Hsome in Hadd.
  destruct (Version.cmp (Version.new version) (PkgSpecList.version e)); try done.
  destruct Hadd as [_ ->].
  cbn [Intake.task_add_wheel]. by rewrite bind_eq, Hpath.
Qed.

Lemma underscore_name_skips_checks_witness :
  Intake.task_add_wheel (H := five_field_pyversions) (Ex.conf [])
    ["/in/my_pkg-1.0-py3-none-any.whl"%string]
    (Ex.start Cases.repo_dash {[ "/in/my_pkg-1.0-py3-none-any.whl"%string ]})
  = (Ok tt,
     {| trace := [EvLog (LRelease "my-pkg" "1.0" "my_pkg-1.0-py3-none-any.whl")];
        updated_vpys := [];
        latest_pkg := Cases.repo_dash;
        files := {[ "/in/my_pkg-1.0-py3-none-any.whl"%string ]}
                 ∪ {[ "/home/me/wheels/my_pkg-1.0-py3-none-any.whl"%string ]} |}).
Proof.
  refine (underscore_name_skips_checks five_field_pyversions (Ex.conf [])
            "/in/my_pkg-1.0-py3-none-any.whl" []
            (Ex.start Cases.repo_dash {[ "/in/my_pkg-1.0-py3-none-any.whl"%string ]})
            "my_pkg" "1.0" "py3-none-any.whl" ["py3"%string]
            (PkgSpecList.mk "my-pkg" (Version.new "2.0")
               [(["py3"%string], "my_pkg-2.0-py3-none-any.whl"%string)])
            _ _ _ _ _ _ _ _).
  - reflexivity.
  - simpl. set_solver.
  - simpl. set_solver.
  - reflexivity.
  - reflexivity.
  - vm_compute. reflexivity.
  - vm_compute. reflexivity.
  - reflexivity.
Defined.

(** X25. Ignored paths. A path that does not end in [.whl], and a path whose
    file name is already in the wheel directory, are passed over with a
    warning, and the loop goes on with the next path. So a wheel that was
    accepted, the comparisons of its version with the stored ones having
    returned, is passed over when it is given again, in the same call or in
    a later one. *)
Theorem ignored_paths_do_not_end_the_batch (pip : Pip) (self : LocalConf)
    (path : string) (rest : list string) (s : State) :
  (Py.endswith path ".whl" = false →
   Intake.task_add_wheel self (path :: rest) s
   = Intake.task_add_wheel self rest
       (after s [EvWarn ("Ignoring non-wheel-file " +:+ path)]))
  ∧ (Py.endswith path ".whl" = true →
     Py.path_join (wheels self) (Py.basename path) ∈ files s →
     Intake.task_add_wheel self (path :: rest) s
     = Intake.task_add_wheel self rest
         (after s [EvWarn ("wheel " +:+ Py.basename path +:+ " already exists, ignoring")]))
  ∧ (∀ pkg version x tags,
       Py.endswith path ".whl" = true →
       Py.path_join (wheels self) (Py.basename path) ∉ files s →
       path ∈ files s →
       Py.split (Py.basename path) "-" (Some 2) = [pkg; version; x] →
       get_platform_tags (Py.basename path) = Ok tags →
       (∀ e, latest_pkg s !! pkg = Some e →
          Version.lt (Version.new version) (PkgSpecList.version e) = Ok false) →
       (∀ e, latest_pkg s !! Py.replace_char "_" "-" pkg = Some e →
          Version.has_version (Version.new version) = true
          ∧ Version.has_version (PkgSpecList.version e) = true) →
       ∃ s1,
         Intake.task_add_wheel self [path] s = (Ok tt, s1)
         ∧ Intake.task_add_wheel self [path; path] s
           = (Ok tt,
              after s1 [EvWarn ("wheel " +:+ Py.basename path
                                +:+ " already exists, ignoring")])).
Proof.
  assert (∀ s0 : State,
            Py.endswith path ".whl" = true →
            Py.path_join (wheels self) (Py.basename path) ∈ files s0 →
            Intake.add_path self path s0
            = (Ok false,
               after s0 [EvWarn ("wheel " +:+ Py.basename path
                                 +:+ " already exists, ignoring")])) as Hexists.
  { intros s0 Hwhl Hin. unfold Intake.add_path. rewrite Hwhl.
    rewrite bind_eq. unfold get_files at 1. cbv beta iota.
    by rewrite decide_True by done. }
  split; [|split].
  - intros Hwhl. cbn [Intake.task_add_wheel]. unfold Intake.add_path.
    by rewrite Hwhl.
  - intros Hwhl Hin. cbn [Intake.task_add_wheel]. by rewrite bind_eq, Hexists.
  - intros pkg version x tags Hwhl Hnew Hin Hsplit Ht Hcheck Hver.
    destruct (add_path_accepts self path s pkg version x tags Hwhl Hnew Hin Hsplit Ht
                Hcheck Hver) as (repo' & b & Hadd & Hpath).
    eexists. cbn [Intake.task_add_wheel]. rewrite !bind_eq, Hpath.
    split; [reflexivity|]. cbv beta iota. rewrite bind_eq, Hexists; [done|done|].
    simpl. apply elem_of_union. right. by apply elem_of_singleton.
Qed.

Lemma ignored_paths_do_not_end_the_batch_witness :
  Intake.task_add_wheel (H := five_field_pyversions) (Ex.conf [])
    ["/in/notes.txt"%string] (Ex.start ∅ ∅)
  = (Ok tt, after (Ex.start ∅ ∅) [EvWarn "Ignoring non-wheel-file /in/notes.txt"])
  ∧ ∃ s1,
      Intake.task_add_wheel (H := five_field_pyversions) (Ex.conf [])
        ["/in/a-1.0-py3-none-any.whl"%string]
        (Ex.start ∅ {[ "/in/a-1.0-py3-none-any.whl"%string ]}) = (Ok tt, s1)
      ∧ Intake.task_add_wheel (H := five_field_pyversions) (Ex.conf [])
          ["/in/a-1.0-py3-none-any.whl"%string; "/in/a-1.0-py3-none-any.whl"%string]
          (Ex.start ∅ {[ "/in/a-1.0-py3-none-any.whl"%string ]})
        = (Ok tt,
           after s1 [EvWarn "wheel a-1.0-py3-none-any.whl already exists, ignoring"]).
Proof.
  split.
  - refine (proj1 (ignored_paths_do_not_end_the_batch five_field_pyversions (Ex.conf [])
                     "/in/notes.txt" [] (Ex.start ∅ ∅)) _).
    reflexivity.
  - refine (proj2 (proj2 (ignored_paths_do_not_end_the_batch five_field_pyversions
                            (Ex.conf []) "/in/a-1.0-py3-none-any.whl" []
                            (Ex.start ∅ {[ "/in/a-1.0-py3-none-any.whl"%string ]})))
              "a" "1.0" "py3-none-any.whl" ["py3"%string] _ _ _ _ _ _ _).
    + reflexivity.
    + simpl. set_solver.
    + simpl. set_solver.
    + reflexivity.
    + reflexivity.
    + simpl. no_entry.
    + simpl. no_entry.
Defined.



(** ** The interpreter version *)

(** X27. The interpreter version. From an output [Python a.b] or
    [Python a.b.c] with a single space, [get_py_version] takes [int(a)] and
    [int(b)]. An output without a space, and an output with a second space,
    as the banner of some distributions has, raise [ValueError]; a version
    without a dot raises [IndexError], unless [int] has raised before. *)
Theorem py_version_of_output (int : PyInt) :
  (∀ interpreter a b rest,
     lacks " " interpreter → lacks " " a → lacks "." a →
     lacks " " b → lacks "." b → lacks " " rest →
     let expected :=
       (major ← py_int a; minor ← py_int b; Ok {| major := major; minor := minor |}) in
     PyVersion.parse (interpreter +:+ " " +:+ a +:+ "." +:+ b) = expected
     ∧ PyVersion.parse (interpreter +:+ " " +:+ a +:+ "." +:+ b +:+ "." +:+ rest)
       = expected)
  ∧ (∀ out, lacks " " out → PyVersion.parse out = Raise ValueError)
  ∧ (∀ interpreter version rest,
       lacks " " interpreter → lacks " " version →
       PyVersion.parse (interpreter +:+ " " +:+ version +:+ " " +:+ rest)
       = Raise ValueError)
  ∧ (∀ interpreter version,
       lacks " " interpreter → lacks " " version → lacks "." version →
       PyVersion.parse (interpreter +:+ " " +:+ version)
       = (py_int version ≫= fun _ => Raise IndexError)).
Proof.
  split; [|split; [|split]].
  - intros interpreter a b rest Hi Ha1 Ha2 Hb1 Hb2 Hr. cbv zeta.
    assert (∀ tail, tail = ""%string ∨ (∃ r, tail = "." +:+ r ∧ lacks " " r) →
            PyVersion.parse (interpreter +:+ " " +:+ a +:+ "." +:+ b +:+ tail)
            = (major ← py_int a; minor ← py_int b;
               Ok {| major := major; minor := minor |})) as Hparse.
    { intros tail Htail. unfold PyVersion.parse.
      rewrite (split_first interpreter " " _ " "%char [] (Some 2)); try done.
      change (Init.Nat.pred <$> Some 2) with (Some 1).
      rewrite (split_none _ " " " "%char []); try done.
      - rewrite (split_first a "." _ "."%char [] None); try done.
        assert (∃ l, Py.split (b +:+ tail) "." (Init.Nat.pred <$> None) = b :: l)
          as [l ->].
        { destruct Htail as [->|(r & -> & _)].
          - rewrite sapp_nil_r. exists []. by rewrite (split_none _ "." "."%char []).
          - eexists. by rewrite (split_first b "." _ "."%char [] None). }
        reflexivity.
      - repeat (apply lacks_app; split); try done; try lacks_literal.
        destruct Htail as [->|(r & -> & Hr')]; [lacks_literal|].
        apply lacks_app. split; [lacks_literal | done]. }
    split.
    + rewrite <- (sapp_nil_r b) at 1. apply Hparse. by left.
    + apply Hparse. right. by exists rest.
  - intros out Hno. unfold PyVersion.parse.
    by rewrite (split_none _ " " " "%char []).
  - intros interpreter version rest Hi Hv. unfold PyVersion.parse.
    rewrite (split_first interpreter " " _ " "%char [] (Some 2)); try done.
    change (Init.Nat.pred <$> Some 2) with (Some 1).
    rewrite (split_first version " " _ " "%char [] (Some 1)); try done.
    change (Init.Nat.pred <$> Some 1) with (Some 0).
    by rewrite split_zero.
  - intros interpreter version Hi Hv1 Hv2. unfold PyVersion.parse.
    rewrite (split_first interpreter " " _ " "%char [] (Some 2)); try done.
    change (Init.Nat.pred <$> Some 2) with (Some 1).
    rewrite (split_none _ " " " "%char []); try done.
    by rewrite (split_none _ "." "."%char []).
Qed.

Lemma py_version_of_output_witness :
  PyVersion.parse (H := digits_int) ("Python" +:+ " " +:+ "2" +:+ "." +:+ "7" +:+ "." +:+ "12")
  = Ok {| major := 2; minor := 7 |}
  ∧ PyVersion.parse (H := digits_int)
      ("Python" +:+ " " +:+ "3.7.4" +:+ " " +:+ ":: Anaconda, Inc.")
    = Raise ValueError.
Proof.
  split.
  - refine (proj2 (proj1 (py_version_of_output digits_int) "Python" "2" "7" "12"
                     _ _ _ _ _ _)); lacks_literal.
  - apply (proj1 (proj2 (proj2 (py_version_of_output digits_int)))); lacks_literal.
Defined.

(** ** Requirement files and the output of pip freeze *)

Lemma split_join lines :
  lines ≠ [] → Forall (lacks "010") lines →
  Py.split (Py.join Lines.nl lines) Lines.nl None = lines.
Proof.
  induction lines as [|l lines IH]; [done|]. intros _ Hall.
  apply Forall_cons in Hall as [Hl Hall].
  destruct lines as [|l' lines].
  - simpl. by apply (split_none l Lines.nl "010"%char []).
  - change (Py.join Lines.nl (l :: l' :: lines))
      with (l +:+ Lines.nl +:+ Py.join Lines.nl (l' :: lines)).
    rewrite (split_first l Lines.nl _ "010"%char [] None); try done.
    change (Init.Nat.pred <$> None) with (@None nat). by rewrite IH.
Qed.

Lemma fill_pins pins : ∀ acc,
  Forall pin_ok pins →
  Requirements.fill acc (Py.readlines (pins_text pins)) = Ok (pins_dict acc pins).
Proof.
  induction pins as [|[name version] pins IH]; intros acc Hall; [done|].
  apply Forall_cons in Hall as [(Hn1 & Hn2 & Hv & [c1 [Hh H1]] & [c2 [Hl H2]]) Hall].
  simpl in Hn1, Hn2, Hv, Hh, Hl. cbn [pins_text pins_dict].
  rewrite <- sapp_assoc.
  rewrite readlines_app by (right; by eexists).
  rewrite readlines_line.
  2: { apply lacks_app. split; [done|]. apply lacks_app. split; [lacks_literal|done]. }
  rewrite fill_app. cbn [Requirements.fill].
  rewrite sapp_assoc, sapp_assoc.
  rewrite (item_pinned name version Lines.nl c1 c2); try done.
  - simpl. by apply IH.
  - by repeat constructor.
Qed.

(** X28. Requirement files and the output of pip freeze. A requirement
    file with one line [name==version] for each of a list of pins is read as
    the dict that maps every name to the [LooseVersion] of its version, a
    later line replacing an earlier one for the same name; name and version
    hold no newline, the name no equals sign, and the name begins and the
    version ends with a character that [unicode.strip] does not remove (no
    white space of ASCII, none of \x1c to \x1f, \x85, \xa0). The output of
    [pip freeze] is cut at its newlines and read in the same way: an output
    made of lines joined by newlines gives what [_lines_to_requirements]
    gives for these lines. *)
Theorem requirements_of_text :
  (∀ pins, Forall pin_ok pins →
     Requirements.read_requirements (pins_text pins) = Ok (pins_dict ∅ pins))
  ∧ (∀ lines, lines ≠ [] → Forall (lacks "010") lines →
       Requirements.of_freeze (Py.join Lines.nl lines)
       = Requirements._lines_to_requirements lines).
Proof.
  split.
  - intros pins Hall. by apply fill_pins.
  - intros lines Hne Hall. unfold Requirements.of_freeze. by rewrite split_join.
Qed.

Lemma requirements_of_text_witness :
  Requirements.read_requirements (pins_text [("Django"%string, "1.8.4"%string);
                                             ("six"%string, "1.10.0"%string)])
  = Ok (<[ "six"%string := Some (Version.new "1.10.0") ]>
          (<[ "Django"%string := Some (Version.new "1.8.4") ]> ∅))
  ∧ Requirements.of_freeze (Py.join Lines.nl ["Django==1.8.4"%string; "six==1.10.0"%string])
    = Requirements._lines_to_requirements ["Django==1.8.4"%string; "six==1.10.0"%string].
Proof.
  split.
  - apply (proj1 requirements_of_text).
    repeat (apply List.Forall_cons;
            [repeat split; try lacks_literal; eexists; split; reflexivity|]).
    apply List.Forall_nil.
  - apply (proj2 requirements_of_text); [discriminate|].
    repeat (apply List.Forall_cons; [lacks_literal|]). apply List.Forall_nil.
Defined.
